(** * milvus_rag: the document lifecycle of [MilvusRAGManager]

    A shallow embedding of [src/milvus_rag.py].  The manager is a thin
    orchestration layer over collaborators that are not part of the
    repository (pymilvus, langchain, the PDF loaders, [os.path], [json]).
    The methods of [MilvusRAGManager] are translated line by line into a
    state-and-exception monad; the collaborators appear as

    - a small reference model of the vector database, as far as the manager
      consumes it (collection existence, drop, query, delete, batch insert),
    - an interface [Collaborators] for the others: file system predicates,
      the constructors of the embedding model, the model client and the text
      splitter, the connection, the loaders, the ranking and the generative
      model, and, of the database server, which names it accepts and how it
      reads an expression that is not one of the two the manager builds
      from a plain path or a primary key.

    Every call the manager makes to the database, the loaders and the
    generative model is recorded in a trace, so that the order of the calls
    can be stated.  [list_collections], [get_collection_stats] and [main],
    after its arguments are parsed, follow the manager's operations; what
    they need of the libraries is the interface [Reporting].

    The file has four parts: the program, the vocabulary of the statements,
    a reference installation, and the properties with their instances on the
    reference installation. *)

From Stdlib Require Import ZArith String Ascii List DecimalString DecimalZ Lia.
From stdpp Require Import base option list strings gmap.

Open Scope string_scope.
Open Scope list_scope.
Open Scope Z_scope.

(** ** Python values read from the JSON configuration *)

(** [json.load] yields [None], booleans, integers, floats, strings, lists and
    dicts.  The manager never looks inside a float or a nested container: such
    a value is carried by its Python type name and its [str()] rendering. *)
Inductive pyval :=
| PNone
| PBool (b : bool)
| PInt (z : Z)
| PStr (s : string)
| POpaque (type_name rendering : string).

(** The top level of the configuration: a dict, or any other JSON value. *)
Inductive pyconfig :=
| CDict (d : gmap string pyval)
| COther (v : pyval).

Definition type_name_of (v : pyval) : string :=
  match v with
  | PNone => "NoneType"
  | PBool _ => "bool"
  | PInt _ => "int"
  | PStr _ => "str"
  | POpaque t _ => t
  end.

(** ** Exceptions *)

Inductive exn :=
| FileNotFoundError (msg : string)
| ValueError (msg : string)
| KeyError (key : string)
| AttributeError (msg : string)
| TypeError (msg : string)
| MilvusException (msg : string).

(** ** Strings: f-string pieces and the boolean expressions sent to the store *)

(** [str(n)] for a Python int. *)
Definition str_int (z : Z) : string := NilZero.string_of_int (Z.to_int z).

(** [str(v)] for a configuration value, as the f-strings apply it. *)
Definition py_str (v : pyval) : string :=
  match v with
  | PNone => "None"
  | PBool true => "True"
  | PBool false => "False"
  | PInt z => str_int z
  | PStr s => s
  | POpaque _ r => r
  end.

Definition int_of_str (s : string) : option Z :=
  option_map Z.of_int (NilZero.int_of_string s).

Definition lower_ascii (c : ascii) : ascii :=
  let n := nat_of_ascii c in
  if (65 <=? n)%nat && (n <=? 90)%nat then ascii_of_nat (n + 32) else c.

(** [s.lower()], on the ASCII letters. *)
Fixpoint lower (s : string) : string :=
  match s with
  | EmptyString => EmptyString
  | String c r => String (lower_ascii c) (lower r)
  end.

Fixpoint strip_prefix (p s : string) : option string :=
  match p, s with
  | EmptyString, _ => Some s
  | String a p', String b s' => if Ascii.eqb a b then strip_prefix p' s' else None
  | String _ _, EmptyString => None
  end.

Fixpoint strip_last (c : ascii) (s : string) : option string :=
  match s with
  | EmptyString => None
  | String a EmptyString => if Ascii.eqb a c then Some EmptyString else None
  | String a r => option_map (String a) (strip_last c r)
  end.

(** A path that can be spliced between single quotes as it is: it contains
    neither a single quote nor a backslash. *)
Fixpoint plainb (s : string) : bool :=
  match s with
  | EmptyString => true
  | String c r =>
      negb (Ascii.eqb c "'") && negb (Ascii.eqb c "\") && plainb r
  end.

Definition plain (s : string) : Prop := plainb s = true.

(** [f"source == '{file_path}'"] *)
Definition source_expr (file_path : string) : string :=
  "source == '" +:+ file_path +:+ "'".

(** [f"pk in [{pk}]"] *)
Definition pk_expr (pk : Z) : string :=
  "pk in [" +:+ str_int pk +:+ "]".

(** ** Data model *)

(** A langchain [Document]: the text of a page or chunk with its metadata
    ([source] is the provenance key the loaders attach). *)
Record Document := mkDocument {
  page_content : string;
  doc_source : string;
  doc_page : Z;
  doc_start_index : Z;
}.

(** A row of the collection: the chunk and the primary key the store
    assigned.  The vector is a function of the text and is not stored. *)
Record Entry := mkEntry {
  pk : Z;
  e_text : string;
  e_source : string;
  e_page : Z;
  e_start_index : Z;
}.

(** What [collection.query(..., output_fields=["pk", "source"])] returns per
    hit. *)
Record Row := mkRow {
  row_pk : Z;
  row_source : string;
}.

(** [_get_search_params] and [_get_index_params] *)
Record SearchParams := mkSearchParams {
  sp_metric : string;
  sp_offset : Z;
  sp_limit : Z;
}.

Record IndexParams := mkIndexParams {
  ip_index_type : string;
  ip_metric_type : string;
  ip_nlist : Z;
}.

(** The connection arguments of [_get_connection_args]. *)
Record ConnectionArgs := mkConnectionArgs {
  ca_host : pyval;
  ca_port : string;
}.

(** A pymilvus [Collection] object: a handle on a named collection. *)
Record CollectionHandle := mkCollectionHandle {
  ch_name : string;
}.

(** A langchain [Milvus] vector store object: the collection it is on, the
    embedding model it was given ([self.embeddings], [None] before
    [_setup_components]) and the parameters of its caller. *)
Record VectorStore := mkVectorStore {
  vs_collection_name : string;
  vs_embedding : option pyval;
  vs_connection_args : ConnectionArgs;
  vs_search_params : option SearchParams;
  vs_index_params : option IndexParams;
}.

(** [RecursiveCharacterTextSplitter(chunk_size, chunk_overlap, len, True)] *)
Record TextSplitter := mkTextSplitter {
  ts_chunk_size : pyval;
  ts_chunk_overlap : pyval;
}.

(** The fields of a [MilvusRAGManager]. *)
Record Manager := mkManager {
  config : pyconfig;
  embeddings : option pyval;
  llm : bool;
  vector_db : option VectorStore;
  collection : option CollectionHandle;
  text_splitter : option TextSplitter;
}.

(** The vector database server: its collections, and the next primary key it
    hands out (primary keys are assigned by the store). *)
Record Store := mkStore {
  collections : gmap string (list Entry);
  next_pk : Z;
}.

(** One turn of a conversation: (question, answer). *)
Definition Turn : Type := string * string.

(** The calls made to collaborators, in the order they are made. *)
Inductive Event :=
| EConnect (host port : pyval)
| EHasCollection (name : string)
| EDropCollection (name : string)
| ECollection (name : string)
| EQuery (name expr : string)
| EDelete (name expr : string)
| EPdfLoad (path : string)
| EPdfDirLoad (path : string)
| ESplit (n_docs : nat)
| EFromDocuments (name : string) (docs : list Document)
    (sp : SearchParams) (ip : IndexParams)
| EMilvus (name : string)
| ESimilaritySearch (name query : string) (sp : option SearchParams)
| EGenerate (history : list Turn) (question : string).

(** The state a method runs in: the manager object, the database, what was
    printed and the calls made so far. *)
Record World := mkWorld {
  self : Manager;
  db : Store;
  stdout : list string;
  trace : list Event;
}.

(** ** The state-and-exception monad *)

Inductive outcome (A : Type) :=
| Ret (a : A)
| Raise (e : exn).
Arguments Ret {A} a.
Arguments Raise {A} e.

Definition M (A : Type) : Type := World -> outcome A * World.

Definition ret {A} (a : A) : M A := fun w => (Ret a, w).
Definition raise {A} (e : exn) : M A := fun w => (Raise e, w).
Definition bind {A B} (m : M A) (k : A -> M B) : M B :=
  fun w => match m w with
           | (Ret a, w') => k a w'
           | (Raise e, w') => (Raise e, w')
           end.

#[export] Instance M_ret : MRet M := @ret.
#[export] Instance M_bind : MBind M := fun A B k m => bind m k.

Definition get_self : M Manager := fun w => (Ret (self w), w).
Definition put_self (m : Manager) : M unit :=
  fun w => (Ret tt, mkWorld m (db w) (stdout w) (trace w)).
Definition get_db : M Store := fun w => (Ret (db w), w).
Definition put_db (s : Store) : M unit :=
  fun w => (Ret tt, mkWorld (self w) s (stdout w) (trace w)).
Definition print (line : string) : M unit :=
  fun w => (Ret tt, mkWorld (self w) (db w) (stdout w ++ [line]) (trace w)).
Definition emit (e : Event) : M unit :=
  fun w => (Ret tt, mkWorld (self w) (db w) (stdout w) (trace w ++ [e])).

Definition set_collection (c : option CollectionHandle) (m : Manager) : Manager :=
  mkManager (config m) (embeddings m) (llm m) (vector_db m) c (text_splitter m).
Definition set_vector_db (v : option VectorStore) (m : Manager) : Manager :=
  mkManager (config m) (embeddings m) (llm m) v (collection m) (text_splitter m).

(** [for x in xs: body(x)] *)
Fixpoint for_each {A} (xs : list A) (body : A -> M unit) : M unit :=
  match xs with
  | [] => ret tt
  | x :: r => body x;; for_each r body
  end.

(** [self.config[key]] *)
Definition config_getitem (key : string) : M pyval :=
  m ← get_self;
  match config m with
  | CDict d =>
      match d !! key with
      | Some v => ret v
      | None => raise (KeyError key)
      end
  | COther v =>
      raise (TypeError (type_name_of v +:+ " cannot be indexed by a str"))
  end.

(** [self.config.get(key, default)] *)
Definition config_get (key : string) (default_value : pyval) : M pyval :=
  m ← get_self;
  match config m with
  | CDict d => ret (default default_value (d !! key))
  | COther v =>
      raise (AttributeError (type_name_of v +:+ " object has no attribute 'get'"))
  end.

Definition lift {A} (o : outcome A) : M A :=
  match o with
  | Ret a => ret a
  | Raise e => raise e
  end.

(** ** The collaborators *)

(** Everything the manager calls and the repository does not define, apart
    from the rows the vector database holds, which are modelled below.  The
    functions are parameters; where a property of a collaborator is needed
    it is a hypothesis of the theorem that needs it. *)
Class Collaborators := {
  (** [os.path.isfile], [os.path.isdir] *)
  isfile : string -> bool;
  isdir : string -> bool;
  (** [open(path, 'r')] and reading it: [None] when the file does not exist *)
  read_text : string -> option string;
  (** [json.load]: the message of a [JSONDecodeError], or the value *)
  json_loads : string -> string + pyconfig;
  (** [HuggingFaceEmbeddings(model_name=model_name)]: returns or raises *)
  HuggingFaceEmbeddings : pyval -> outcome unit;
  (** [OpenAI()]: returns or raises *)
  OpenAI : outcome unit;
  (** [RecursiveCharacterTextSplitter(chunk_size=..., chunk_overlap=...,
      length_function=len, add_start_index=True)]: returns or raises *)
  RecursiveCharacterTextSplitter : pyval -> pyval -> outcome unit;
  (** [connections.connect(host=host, port=port)]: returns or raises *)
  connect : pyval -> pyval -> outcome unit;
  (** [utility.get_server_version()] *)
  server_version : string;
  (** the names the server accepts for a collection *)
  valid_name : string -> bool;
  (** the server's reading of a boolean expression: the rows it selects, or
      [None] when the expression does not parse *)
  parse_expr : string -> option (Entry -> bool);
  (** [PyPDFLoader(path).load()] *)
  pdf_load : string -> outcome (list Document);
  (** [PyPDFDirectoryLoader(path).load()] *)
  pdf_dir_load : string -> outcome (list Document);
  (** [text_splitter.split_documents(documents)] *)
  split_documents : TextSplitter -> list Document -> list Document;
  (** the order in which the store ranks rows against a query (embedding of
      the query and nearest-neighbour search) *)
  rank : string -> list Entry -> list Entry;
  (** the number of hits [similarity_search] returns for a vector store object
      with the given search parameters, when the caller passes no [k] *)
  search_k : option SearchParams -> nat;
  (** the generative model: rephrasing a follow-up question, and answering
      from the retrieved documents and the history *)
  condense_question : list Turn -> string -> outcome string;
  generate_answer : list Turn -> list Document -> string -> outcome string;
}.

(** ** The vector database, as the manager consumes it *)

Module Milvus.

Section Store.

Context `{C : Collaborators}.

(** The boolean expressions the store is sent are [source == '<path>'] and
    [pk in [<int>]].  Around a path that holds neither a quote nor a
    backslash the first is the comparison of [source] with that path, and
    the second is the comparison of the primary key with that integer.  Any
    other text, such as the first around a path that holds a quote, is read
    by the server's own parser. *)
Definition eval_expr (expr : string) : option (Entry -> bool) :=
  match strip_prefix "source == '" expr with
  | Some rest =>
      match strip_last "'" rest with
      | Some lit =>
          if plainb lit then Some (fun e => String.eqb (e_source e) lit)
          else parse_expr expr
      | None => parse_expr expr
      end
  | None =>
      match strip_prefix "pk in [" expr with
      | Some rest =>
          match strip_last "]" rest with
          | Some digits =>
              match int_of_str digits with
              | Some n => Some (fun e => Z.eqb (pk e) n)
              | None => parse_expr expr
              end
          | None => parse_expr expr
          end
      | None => parse_expr expr
      end
  end.

(** Collection names are strings, and the server refuses the strings it
    does not accept as a name. *)
Definition check_name (v : pyval) : M string :=
  match v with
  | PStr s =>
      if valid_name s then ret s
      else raise (MilvusException ("Invalid collection name: " +:+ s))
  | _ => raise (MilvusException
                  ("collection name must be str, not " +:+ type_name_of v))
  end.

Definition rows_of (s : Store) (name : string) : list Entry :=
  default [] (collections s !! name).

(** [utility.has_collection(name)] *)
Definition has_collection (name : pyval) : M bool :=
  n ← check_name name;
  emit (EHasCollection n);;
  s ← get_db;
  ret (bool_decide (is_Some (collections s !! n))).

(** [utility.drop_collection(name)] *)
Definition drop_collection (name : pyval) : M unit :=
  n ← check_name name;
  emit (EDropCollection n);;
  s ← get_db;
  put_db (mkStore (delete n (collections s)) (next_pk s)).

(** [Collection(name)]: a handle on an existing collection; without a
    schema the constructor refuses a collection that does not exist. *)
Definition Collection (name : pyval) : M CollectionHandle :=
  n ← check_name name;
  emit (ECollection n);;
  s ← get_db;
  match collections s !! n with
  | Some _ => ret (mkCollectionHandle n)
  | None => raise (MilvusException ("Collection '" +:+ n +:+ "' not exist"))
  end.

(** [collection.query(expr, output_fields=["pk", "source"])] *)
Definition query (c : CollectionHandle) (expr : string) : M (list Row) :=
  emit (EQuery (ch_name c) expr);;
  s ← get_db;
  match collections s !! ch_name c with
  | None => raise (MilvusException "collection not found")
  | Some rows =>
      match eval_expr expr with
      | None => raise (MilvusException ("cannot parse expression: " +:+ expr))
      | Some p =>
          ret (map (fun e => mkRow (pk e) (e_source e)) (List.filter p rows))
      end
  end.

(** [collection.delete(expr)] *)
Definition delete (c : CollectionHandle) (expr : string) : M unit :=
  emit (EDelete (ch_name c) expr);;
  s ← get_db;
  match collections s !! ch_name c with
  | None => raise (MilvusException "collection not found")
  | Some rows =>
      match eval_expr expr with
      | None => raise (MilvusException ("cannot parse expression: " +:+ expr))
      | Some p =>
          put_db (mkStore
                    (<[ch_name c := List.filter (fun e => negb (p e)) rows]>
                       (collections s))
                    (next_pk s))
      end
  end.

(** The rows a batch of documents becomes: primary keys are handed out in
    order, starting at [k]. *)
Fixpoint entries_from (k : Z) (docs : list Document) : list Entry :=
  match docs with
  | [] => []
  | d :: r =>
      mkEntry k (page_content d) (doc_source d) (doc_page d) (doc_start_index d)
        :: entries_from (k + 1) r
  end.

Definition add_documents (name : string) (docs : list Document) (s : Store)
  : Store :=
  mkStore (<[name := rows_of s name ++ entries_from (next_pk s) docs]>
             (collections s))
          (next_pk s + Z.of_nat (length docs)).

Definition insert_batch (name : string) (docs : list Document) (s : Store)
  : Store :=
  match docs with
  | [] => s
  | _ :: _ => add_documents name docs s
  end.

(** [Milvus.from_documents(documents, embedding, connection_args,
    collection_name, search_params, index_params)]: a vector store object on
    the named collection, and the documents appended to it.  The collection
    is created on the first non-empty batch (its schema is read off the first
    embedding); an empty batch inserts nothing and creates nothing.  The
    texts are embedded first, which needs the embedding model.  The batch
    is written in one step: a server that fails between two rows of a
    batch is not modelled. *)
Definition from_documents (docs : list Document) (embedding : option pyval)
    (ca : ConnectionArgs) (name : pyval) (sp : SearchParams) (ip : IndexParams)
  : M VectorStore :=
  n ← check_name name;
  emit (EFromDocuments n docs sp ip);;
  match embedding with
  | None =>
      raise (AttributeError
               "NoneType object has no attribute 'embed_documents'")
  | Some _ =>
      s ← get_db;
      put_db (insert_batch n docs s);;
      ret (mkVectorStore n embedding ca (Some sp) (Some ip))
  end.

(** [Milvus(embeddings, connection_args, collection_name)]: a vector store
    object with no search or index parameters of the caller's. *)
Definition Milvus (embedding : option pyval) (ca : ConnectionArgs)
    (name : pyval) : M VectorStore :=
  n ← check_name name;
  emit (EMilvus n);;
  ret (mkVectorStore n embedding ca None None).

End Store.

End Milvus.

Section Manager.

Context `{C : Collaborators}.

Definition doc_of_entry (e : Entry) : Document :=
  mkDocument (e_text e) (e_source e) (e_page e) (e_start_index e).

(** What the store answers to a search through [vs]: nothing when the
    collection does not exist; otherwise the query is embedded, which needs
    the embedding model, and the first hits of the ranking are returned as
    documents. *)
Definition search_result (vs : VectorStore) (query : string) (s : Store)
  : outcome (list Document) :=
  match collections s !! vs_collection_name vs with
  | None => Ret []
  | Some rows =>
      match vs_embedding vs with
      | None =>
          Raise (AttributeError
                   "NoneType object has no attribute 'embed_query'")
      | Some _ =>
          Ret (map doc_of_entry
                 (take (search_k (vs_search_params vs)) (rank query rows)))
      end
  end.

(** [vector_db.similarity_search(query)]: no [k] is passed. *)
Definition similarity_search (vs : VectorStore) (query : string)
  : M (list Document) :=
  emit (ESimilaritySearch (vs_collection_name vs) query (vs_search_params vs));;
  s ← get_db;
  lift (search_result vs query s).

(** [ConversationalRetrievalChain.from_llm(self.llm, retriever,
    memory=memory)]: the chain is refused without a model. *)
Definition chain_from_llm (llm : bool) : M unit :=
  if llm then ret tt
  else raise (ValueError "llm: none is not an allowed value").

(** One call of a [ConversationalRetrievalChain] built over the retriever of
    [vs] with the conversation memory [memory]: a follow-up question is
    rephrased against the history, documents are retrieved for it, the model
    answers, and the turn is saved to the memory. *)
Definition run_chain (vs : VectorStore) (memory : list Turn)
    (question : string) : M (string * list Turn) :=
  new_question ← match memory with
                 | [] => ret question
                 | _ :: _ => lift (condense_question memory question)
                 end;
  docs ← similarity_search vs new_question;
  emit (EGenerate memory new_question);;
  answer ← lift (generate_answer memory docs new_question);
  ret (answer, memory ++ [(question, answer)]).

(** *** [MilvusRAGManager] *)

Definition _load_config (config_path : string) : M pyconfig :=
  match read_text config_path with
  | None =>
      raise (FileNotFoundError ("Config file not found: " +:+ config_path))
  | Some text =>
      match json_loads text with
      | inl e => raise (ValueError ("Invalid JSON in config file: " +:+ e))
      | inr cfg => ret cfg
      end
  end.

Definition _connect_milvus : M unit :=
  host ← config_getitem "docker_host";
  port ← config_getitem "docker_port";
  emit (EConnect host port);;
  lift (connect host port);;
  print ("Connected to Milvus at " +:+ py_str host +:+ ":" +:+ py_str port);;
  print ("Server version: " +:+ server_version).

Definition _setup_components : M unit :=
  model_name ← config_get "embedding_model" (PStr "all-mpnet-base-v2");
  lift (HuggingFaceEmbeddings model_name);;
  m ← get_self;
  put_self (mkManager (config m) (Some model_name) (llm m) (vector_db m)
              (collection m) (text_splitter m));;
  lift OpenAI;;
  m ← get_self;
  put_self (mkManager (config m) (embeddings m) true (vector_db m)
              (collection m) (text_splitter m));;
  chunk_size ← config_get "chunk_size" (PInt 500);
  chunk_overlap ← config_get "chunk_overlap" (PInt 20);
  lift (RecursiveCharacterTextSplitter chunk_size chunk_overlap);;
  m ← get_self;
  put_self (mkManager (config m) (embeddings m) (llm m) (vector_db m)
              (collection m) (Some (mkTextSplitter chunk_size chunk_overlap)));;
  _connect_milvus.

(** [MilvusRAGManager(config_path)] *)
Definition __init__ (config_path : string) : M unit :=
  cfg ← _load_config config_path;
  put_self (mkManager cfg None false None None None);;
  _setup_components.

Definition _create_collection_if_not_exists : M unit :=
  collection_name ← config_getitem "collection_name";
  b ← Milvus.has_collection collection_name;
  if negb b then
    print ("Collection '" +:+ py_str collection_name
           +:+ "' does not exist. Will be created during first insert.")
  else
    print ("Collection '" +:+ py_str collection_name +:+ "' already exists.");;
    c ← Milvus.Collection collection_name;
    m ← get_self;
    put_self (set_collection (Some c) m).

Definition _get_connection_args : M ConnectionArgs :=
  host ← config_getitem "docker_host";
  port ← config_getitem "docker_port";
  ret (mkConnectionArgs host (py_str port)).

Definition _get_search_params : SearchParams :=
  mkSearchParams "IP" 0 10.

Definition _get_index_params : IndexParams :=
  mkIndexParams "IVF_FLAT" "L2" 128.

(** [v.lower()] for a configuration value *)
Definition str_lower (v : pyval) : M string :=
  match v with
  | PStr s => ret (lower s)
  | _ => raise (AttributeError
                  (type_name_of v +:+ " object has no attribute 'lower'"))
  end.

(** [self.text_splitter.split_documents(documents)] *)
Definition split (documents : list Document) : M (list Document) :=
  m ← get_self;
  match text_splitter m with
  | None =>
      raise (AttributeError
               "NoneType object has no attribute 'split_documents'")
  | Some ts =>
      emit (ESplit (length documents));;
      ret (split_documents ts documents)
  end.

Definition _load_documents (file_path : string) : M (list Document) :=
  ft ← config_get "file_type" (PStr "pdf");
  file_type ← str_lower ft;
  if isfile file_path then
    if String.eqb file_type "pdf" then
      emit (EPdfLoad file_path);;
      documents ← lift (pdf_load file_path);
      split documents
    else
      raise (ValueError ("Unsupported file type: " +:+ file_type))
  else if isdir file_path then
    if String.eqb file_type "pdf" then
      emit (EPdfDirLoad file_path);;
      documents ← lift (pdf_dir_load file_path);
      split documents
    else
      raise (ValueError
               ("Unsupported file type for directory: " +:+ file_type))
  else
    raise (FileNotFoundError
             ("File or directory not found: " +:+ file_path)).

Definition insert_documents (file_path : string) : M unit :=
  print ("Inserting documents from: " +:+ file_path);;
  documents ← _load_documents file_path;
  m ← get_self;
  connection_args ← _get_connection_args;
  collection_name ← config_getitem "collection_name";
  vs ← Milvus.from_documents documents (embeddings m) connection_args
         collection_name _get_search_params _get_index_params;
  m ← get_self;
  put_self (set_vector_db (Some vs) m);;
  print ("Successfully inserted " +:+ str_int (Z.of_nat (length documents))
         +:+ " document chunks").

(** [if not self.collection: self.collection = Collection(name)], and the
    handle then held *)
Definition ensure_collection : M CollectionHandle :=
  m ← get_self;
  match collection m with
  | Some c => ret c
  | None =>
      collection_name ← config_getitem "collection_name";
      c ← Milvus.Collection collection_name;
      m ← get_self;
      put_self (set_collection (Some c) m);;
      ret c
  end.

Definition delete_documents (file_path : string) : M unit :=
  c ← ensure_collection;
  res ← Milvus.query c (source_expr file_path);
  match res with
  | [] => print ("No documents found for file: " +:+ file_path)
  | _ :: _ =>
      for_each res (fun doc =>
        Milvus.delete c (pk_expr (row_pk doc));;
        print ("Deleted document with pk: " +:+ str_int (row_pk doc)));;
      print ("Successfully deleted " +:+ str_int (Z.of_nat (length res))
             +:+ " documents from " +:+ file_path)
  end.

Definition _check_file_exists (file_path : string) : M bool :=
  c ← ensure_collection;
  res ← Milvus.query c (source_expr file_path);
  ret (bool_decide (0 < length res)%nat).

Definition update_documents (file_path : string) : M unit :=
  print ("Updating documents from: " +:+ file_path);;
  b ← _check_file_exists file_path;
  (if (b : bool) then delete_documents file_path else ret tt);;
  insert_documents file_path.

(** [if not self.vector_db: self.vector_db = Milvus(...)], and the vector
    store object then held *)
Definition ensure_vector_db : M VectorStore :=
  m ← get_self;
  match vector_db m with
  | Some vs => ret vs
  | None =>
      connection_args ← _get_connection_args;
      collection_name ← config_getitem "collection_name";
      vs ← Milvus.Milvus (embeddings m) connection_args collection_name;
      m ← get_self;
      put_self (set_vector_db (Some vs) m);;
      ret vs
  end.

(** What [query_documents] returns: the answer text in RAG mode, the
    retrieved documents otherwise. *)
Inductive QueryResult :=
| Answer (text : string)
| Docs (docs : list Document).

Definition query_documents (query : string) (use_rag : bool) : M QueryResult :=
  vs ← ensure_vector_db;
  if use_rag then
    let memory : list Turn := [] in
    m ← get_self;
    chain_from_llm (llm m);;
    result ← run_chain vs memory query;
    ret (Answer (fst result))
  else
    docs ← similarity_search vs query;
    ret (Docs docs).

Definition _drop_collection : M unit :=
  collection_name ← config_getitem "collection_name";
  b ← Milvus.has_collection collection_name;
  if (b : bool) then
    Milvus.drop_collection collection_name;;
    print ("Collection '" +:+ py_str collection_name
           +:+ "' dropped successfully");;
    m ← get_self;
    put_self (set_collection None m);;
    m ← get_self;
    put_self (set_vector_db None m)
  else
    print ("Collection '" +:+ py_str collection_name +:+ "' does not exist").

Definition load_collection (file_path : string) : M unit :=
  _drop_collection;;
  print ("Loading documents from: " +:+ file_path);;
  documents ← _load_documents file_path;
  m ← get_self;
  connection_args ← _get_connection_args;
  collection_name ← config_getitem "collection_name";
  vs ← Milvus.from_documents documents (embeddings m) connection_args
         collection_name _get_search_params _get_index_params;
  m ← get_self;
  put_self (set_vector_db (Some vs) m);;
  print ("Successfully loaded " +:+ str_int (Z.of_nat (length documents))
         +:+ " document chunks into new collection");;
  c ← Milvus.Collection collection_name;
  m ← get_self;
  put_self (set_collection (Some c) m).

End Manager.

(** ** Listing, statistics and the command line *)

(** What [collection.get_stats()] returns, as far as it is read. *)
Record Stats := mkStats {
  row_count : Z;
}.

(** What these operations take from the libraries besides the above.  Their
    reads of the database are not recorded in the trace. *)
Class Reporting := {
  (** [collection.get_stats()] on a handle of the named collection: the
      statistics, or the exception the library raises *)
  collection_stats : Store -> string -> outcome Stats;
  (** [str(docs)] for the list a similarity search returns *)
  str_docs : list Document -> string;
  (** [str(e)] for an exception of pymilvus that carries this message *)
  str_milvus : string -> string;
}.

(** [--operation], one of the choices of the parser *)
Inductive Operation :=
| OpInsert
| OpUpdate
| OpDelete
| OpQuery
| OpDrop
| OpLoad.

(** The namespace [parser.parse_args()] returns. *)
Record Args := mkArgs {
  arg_config : string;
  arg_operation : Operation;
  arg_file_path : option string;
  arg_query : option string;
  arg_use_rag : bool;
}.

(** [not value] for an optional string argument: [None] and the empty string
    are false. *)
Definition not_given (value : option string) : bool :=
  match value with
  | None => true
  | Some s => String.eqb s EmptyString
  end.

(** The string of an argument that passed [not_given]. *)
Definition given (value : option string) : string :=
  default EmptyString value.

Section Cli.

Context `{C : Collaborators} `{R : Reporting}.

(** [utility.list_collections()]: the names, in the order of the map. *)
Definition list_collections : M (list string) :=
  s ← get_db;
  let collections_ := (map_to_list (collections s)).*1 in
  print "Available collections:";;
  for_each collections_ (fun collection => print ("  - " +:+ collection));;
  ret collections_.

(** [self.collection.get_stats()] *)
Definition get_stats (c : CollectionHandle) : M Stats :=
  s ← get_db;
  lift (collection_stats s (ch_name c)).

Definition get_collection_stats : M Stats :=
  c ← ensure_collection;
  stats ← get_stats c;
  collection_name ← config_getitem "collection_name";
  print ("Collection '" +:+ py_str collection_name +:+ "' statistics:");;
  print ("  Row count: " +:+ str_int (row_count stats));;
  ret stats.

(** [str(e)]: the message the exception carries; for a [KeyError] the [repr]
    of the key. *)
Definition str_exn (e : exn) : string :=
  match e with
  | FileNotFoundError msg => msg
  | ValueError msg => msg
  | KeyError key => "'" +:+ key +:+ "'"
  | AttributeError msg => msg
  | TypeError msg => msg
  | MilvusException msg => str_milvus msg
  end.

(** [print(result)] for what [query_documents] returned. *)
Definition str_result (r : QueryResult) : string :=
  match r with
  | Answer text => text
  | Docs docs => str_docs docs
  end.

(** [sys.exit(code)] inside the [try]: [SystemExit] is not an [Exception], so
    the handler lets it through and the rest of the body is skipped.  The body
    returns the exit code it asked for, if any. *)
Definition sys_exit (code : Z) : M (option Z) := ret (Some code).

(** The body of the [try] of [main]. *)
Definition main_body (args : Args) : M (option Z) :=
  __init__ (arg_config args);;
  exited ←
    match arg_operation args with
    | OpInsert =>
        if not_given (arg_file_path args) then
          print "Error: --file-path is required for insert operation";;
          sys_exit 1
        else
          insert_documents (given (arg_file_path args));; ret None
    | OpUpdate =>
        if not_given (arg_file_path args) then
          print "Error: --file-path is required for update operation";;
          sys_exit 1
        else
          update_documents (given (arg_file_path args));; ret None
    | OpDelete =>
        if not_given (arg_file_path args) then
          print "Error: --file-path is required for delete operation";;
          sys_exit 1
        else
          delete_documents (given (arg_file_path args));; ret None
    | OpQuery =>
        if not_given (arg_query args) then
          print "Error: --query is required for query operation";;
          sys_exit 1
        else
          result ← query_documents (given (arg_query args)) (arg_use_rag args);
          print "Query result:";;
          print (str_result result);;
          ret None
    | OpDrop => _drop_collection;; ret None
    | OpLoad =>
        if not_given (arg_file_path args) then
          print "Error: --file-path is required for load operation";;
          sys_exit 1
        else
          load_collection (given (arg_file_path args));; ret None
    end;
  match exited with
  | Some code => ret (Some code)
  | None =>
      match arg_operation args with
      | OpDrop => ret None
      | _ => get_collection_stats;; ret None
      end
  end.

(** [main()], after the arguments are parsed: the exit status of the process
    and the state it leaves.  An exception of the body is printed and turned
    into status 1; falling off the end is status 0. *)
Definition main (args : Args) (w : World) : Z * World :=
  match main_body args w with
  | (Ret None, w') => (0, w')
  | (Ret (Some code), w') => (code, w')
  | (Raise e, w') =>
      (1, mkWorld (self w') (db w')
            (stdout w' ++ ["Error: " +:+ str_exn e]) (trace w'))
  end.

End Cli.

(** * The vocabulary of the statements *)

Section Vocabulary.

Context `{C : Collaborators}.

(** The collection name the configuration gives, when it gives a string
    that the server accepts as the name of a collection. *)
Definition collection_name_of (m : Manager) : option string :=
  match config m with
  | CDict d =>
      match d !! "collection_name" with
      | Some (PStr name) => if valid_name name then Some name else None
      | _ => None
      end
  | COther _ => None
  end.

(** The configuration gives the string [name] as the collection name,
    whether or not the server accepts it. *)
Definition names_collection (m : Manager) (name : string) : Prop :=
  ∃ d, config m = CDict d ∧ d !! "collection_name" = Some (PStr name).

(** The connection arguments the configuration gives. *)
Definition connection_args_of (m : Manager) : option ConnectionArgs :=
  match config m with
  | CDict d =>
      match d !! "docker_host", d !! "docker_port" with
      | Some host, Some port => Some (mkConnectionArgs host (py_str port))
      | _, _ => None
      end
  | COther _ => None
  end.

(** The file type [_load_documents] compares with ['pdf']: the configured
    string (['pdf'] when the key is absent), lower-cased. *)
Definition file_type_of (m : Manager) : option string :=
  match config m with
  | CDict d =>
      match default (PStr "pdf") (d !! "file_type") with
      | PStr s => Some (lower s)
      | _ => None
      end
  | COther _ => None
  end.

(** The [Collection] object the manager holds, if any, is on the configured
    collection. *)
Definition handle_on (m : Manager) (name : string) : Prop :=
  ∀ c, collection m = Some c → ch_name c = name.

(** The number of rows whose [source] is [file_path]. *)
Definition count_source (file_path : string) (rows : list Entry) : nat :=
  length (List.filter (fun e => String.eqb (e_source e) file_path) rows).

(** The world after [_drop_collection] found the collection and dropped
    it. *)
Definition dropped (name : string) (w : World) : World :=
  mkWorld
    (set_vector_db None (set_collection None (self w)))
    (mkStore (delete name (collections (db w))) (next_pk (db w)))
    (stdout w ++ ["Collection '" +:+ name +:+ "' dropped successfully"])
    (trace w ++ [EHasCollection name; EDropCollection name]).

(** The world after [_drop_collection] found no collection. *)
Definition not_dropped (name : string) (w : World) : World :=
  mkWorld (self w) (db w)
    (stdout w ++ ["Collection '" +:+ name +:+ "' does not exist"])
    (trace w ++ [EHasCollection name]).

Definition after_drop (name : string) (w : World) : World :=
  match collections (db w) !! name with
  | Some _ => dropped name w
  | None => not_dropped name w
  end.

(** The manager has what the operations read: a collection name, the
    connection arguments, a text splitter and an embedding model. *)
Definition Ready (m : Manager) (name : string) (ca : ConnectionArgs)
    (ts : TextSplitter) : Prop :=
  collection_name_of m = Some name ∧
  connection_args_of m = Some ca ∧
  text_splitter m = Some ts ∧
  embeddings m ≠ None.

(** The documents the loader for [file_path] yields: the file's when it is
    a file, the directory's when it is a directory. *)
Definition loaded (file_path : string) : option (list Document) :=
  if isfile file_path then
    match pdf_load file_path with
    | Ret ds => Some ds
    | Raise _ => None
    end
  else if isdir file_path then
    match pdf_dir_load file_path with
    | Ret ds => Some ds
    | Raise _ => None
    end
  else None.

Definition load_event (file_path : string) : Event :=
  if isfile file_path then EPdfLoad file_path else EPdfDirLoad file_path.

(** The vector store object [insert_documents] and [load_collection] leave
    in [self.vector_db]. *)
Definition store_object (m : Manager) (name : string) (ca : ConnectionArgs)
  : VectorStore :=
  mkVectorStore name (embeddings m) ca
    (Some _get_search_params) (Some _get_index_params).

(** The world after a successful [insert_documents]. *)
Definition inserted (name : string) (ca : ConnectionArgs) (ts : TextSplitter)
    (fp : string) (raw : list Document) (w : World) : World :=
  let docs := split_documents ts raw in
  mkWorld
    (set_vector_db (Some (store_object (self w) name ca)) (self w))
    (Milvus.insert_batch name docs (db w))
    (stdout w ++
       ["Inserting documents from: " +:+ fp;
        "Successfully inserted " +:+ str_int (Z.of_nat (length docs))
          +:+ " document chunks"])
    (trace w ++
       [load_event fp; ESplit (length raw);
        EFromDocuments name docs _get_search_params _get_index_params]).

(** The rows whose [source] is [file_path]. *)
Definition hits (file_path : string) (rows : list Entry) : list Entry :=
  List.filter (fun e => String.eqb (e_source e) file_path) rows.

(** The rows left after one [delete] per primary key of [pks], in order. *)
Definition without_pks (pks : list Z) (rows : list Entry) : list Entry :=
  foldl (fun rs k => List.filter (fun e => negb (Z.eqb (pk e) k)) rs) rows pks.

Definition row_of_entry (e : Entry) : Row := mkRow (pk e) (e_source e).

(** The calls [ensure_collection] makes: none when the manager already
    holds a [Collection] object. *)
Definition acquire_events (m : Manager) (name : string) : list Event :=
  match collection m with
  | Some _ => []
  | None => [ECollection name]
  end.

(** The world once the manager holds a [Collection] object. *)
Definition acquired (name : string) (w : World) : World :=
  mkWorld (set_collection (Some (mkCollectionHandle name)) (self w))
    (db w) (stdout w) (trace w ++ acquire_events (self w) name).

(** The body of the loop of [delete_documents]. *)
Definition delete_one (c : CollectionHandle) (doc : Row) : M unit :=
  Milvus.delete c (pk_expr (row_pk doc));;
  print ("Deleted document with pk: " +:+ str_int (row_pk doc)).

(** The world after [delete_documents file_path] on a collection holding
    [rows]. *)
Definition deleted (name fp : string) (rows : list Entry) (w : World) : World :=
  let res := row_of_entry <$> hits fp rows in
  let w0 := acquired name w in
  match res with
  | [] =>
      mkWorld (self w0) (db w0)
        (stdout w0 ++ ["No documents found for file: " +:+ fp])
        (trace w0 ++ [EQuery name (source_expr fp)])
  | _ :: _ =>
      mkWorld (self w0)
        (mkStore (<[name := without_pks (row_pk <$> res) rows]>
                    (collections (db w)))
                 (next_pk (db w)))
        (stdout w0 ++
           ((fun doc => "Deleted document with pk: " +:+ str_int (row_pk doc))
              <$> res) ++
           ["Successfully deleted " +:+ str_int (Z.of_nat (length res))
              +:+ " documents from " +:+ fp])
        (trace w0 ++ [EQuery name (source_expr fp)] ++
           ((fun doc => EDelete name (pk_expr (row_pk doc))) <$> res))
  end.

(** The world after [_check_file_exists]. *)
Definition checked (name fp : string) (w : World) : World :=
  mkWorld (self (acquired name w)) (db w) (stdout w)
    (trace (acquired name w) ++ [EQuery name (source_expr fp)]).

(** The world [update_documents] hands to [insert_documents]: after the
    check, and after the deletions when the check found rows. *)
Definition cleared (name fp : string) (rows : list Entry) (w : World) : World :=
  let w1 :=
    checked name fp
      (mkWorld (self w) (db w)
         (stdout w ++ ["Updating documents from: " +:+ fp]) (trace w)) in
  match hits fp rows with
  | [] => w1
  | _ :: _ => deleted name fp rows w1
  end.

(** The calls [_drop_collection] makes. *)
Definition drop_events (s : Store) (name : string) : list Event :=
  match collections s !! name with
  | Some _ => [EHasCollection name; EDropCollection name]
  | None => [EHasCollection name]
  end.

(** What [load_collection] returns: the [Collection(name)] of its last line
    finds no collection when the batch was empty. *)
Definition load_result (name : string) (docs : list Document) : outcome unit :=
  match docs with
  | [] => Raise (MilvusException ("Collection '" +:+ name +:+ "' not exist"))
  | _ :: _ => Ret tt
  end.

(** The world after [load_collection]. *)
Definition reloaded (name : string) (ca : ConnectionArgs) (ts : TextSplitter)
    (fp : string) (raw : list Document) (w : World) : World :=
  let docs := split_documents ts raw in
  let w1 := after_drop name w in
  let m := set_vector_db (Some (store_object (self w) name ca)) (self w1) in
  mkWorld
    match docs with
    | [] => m
    | _ :: _ => set_collection (Some (mkCollectionHandle name)) m
    end
    (Milvus.insert_batch name docs (db w1))
    (stdout w1 ++
       ["Loading documents from: " +:+ fp;
        "Successfully loaded " +:+ str_int (Z.of_nat (length docs))
          +:+ " document chunks into new collection"])
    (trace w1 ++
       [load_event fp; ESplit (length raw);
        EFromDocuments name docs _get_search_params _get_index_params;
        ECollection name]).

(** The call [ensure_vector_db] makes: none when the manager already holds
    a vector store object. *)
Definition vector_db_events (m : Manager) (name : string) : list Event :=
  match vector_db m with
  | Some _ => []
  | None => [EMilvus name]
  end.

(** The vector store object a query runs on: the one the manager holds, or
    else a new one, which carries no search parameters. *)
Definition query_object (m : Manager) (name : string) (ca : ConnectionArgs)
  : VectorStore :=
  match vector_db m with
  | Some vs => vs
  | None => mkVectorStore name (embeddings m) ca None None
  end.

(** The world once the manager holds a vector store object. *)
Definition bound (name : string) (ca : ConnectionArgs) (w : World) : World :=
  mkWorld (set_vector_db (Some (query_object (self w) name ca)) (self w))
    (db w) (stdout w) (trace w ++ vector_db_events (self w) name).

(** The question the chain retrieves for and puts to the model: the
    question as given on an empty history, its rephrasing against the
    history otherwise. *)
Definition standalone (memory : list Turn) (question : string)
  : outcome string :=
  match memory with
  | [] => Ret question
  | _ :: _ => condense_question memory question
  end.

(** The world after one call of the chain. *)
Definition chained (vs : VectorStore) (q : string) (w : World) : World :=
  mkWorld (self w) (db w) (stdout w)
    (trace w ++
       [ESimilaritySearch (vs_collection_name vs) q (vs_search_params vs);
        EGenerate [] q]).

(** The manager [__init__] leaves for a configuration dict. *)
Definition configured (d : gmap string pyval) : Manager :=
  mkManager (CDict d)
    (Some (default (PStr "all-mpnet-base-v2") (d !! "embedding_model")))
    true None None
    (Some (mkTextSplitter (default (PInt 500) (d !! "chunk_size"))
                          (default (PInt 20) (d !! "chunk_overlap")))).

(** Within every collection the primary keys are unique and below the next
    one the store hands out. *)
Definition store_wf (s : Store) : Prop :=
  ∀ name rows, collections s !! name = Some rows →
    NoDup (pk <$> rows) ∧ Forall (fun e => pk e < next_pk s) rows.

(** [w'] has the calls of [w] and possibly more after them. *)
Definition extends (w w' : World) : Prop :=
  ∃ tl, trace w' = trace w ++ tl.

(** Running [m] only adds calls to the trace. *)
Definition grows {A} (m : M A) : Prop :=
  ∀ w, extends w (m w).2.

(** Running [m] keeps the primary keys of the database unique. *)
Definition keeps {A} (m : M A) : Prop :=
  ∀ w, store_wf (db w) → store_wf (db (m w).2).

(** *** What an operation may do to the database *)

(** Running [m] takes the database to one related to it by [rel], whatever
    [m] returns or raises. *)
Definition steps (rel : relation Store) {A} (m : M A) : Prop :=
  ∀ w, rel (db w) (db (m w).2).

(** [s'] has every collection of [s], each with the rows it had, in their
    order, and possibly more after them; the next primary key has not gone
    back. *)
Definition appended (s s' : Store) : Prop :=
  (∀ n rows, collections s !! n = Some rows →
     ∃ more, collections s' !! n = Some (rows ++ more)) ∧
  next_pk s ≤ next_pk s'.

(** [s'] has the collections of [s] and no other, each with some of the rows
    it had, in their order; the next primary key is the same. *)
Definition thinned (s s' : Store) : Prop :=
  (∀ n, is_Some (collections s' !! n) ↔ is_Some (collections s !! n)) ∧
  (∀ n, sublist (Milvus.rows_of s' n) (Milvus.rows_of s n)) ∧
  next_pk s' = next_pk s.

(** [s'] has unique primary keys if [s] had. *)
Definition keeps_wf (s s' : Store) : Prop := store_wf s → store_wf s'.

(** [s'] is [s] outside the collection [name]. *)
Definition same_elsewhere (name : string) (s s' : Store) : Prop :=
  ∀ n, n ≠ name → collections s' !! n = collections s !! n.

(** The manager is set on the collection [name]: the configuration names it
    and the [Collection] object held, if any, is on it. *)
Definition on_collection (name : string) (m : Manager) : Prop :=
  names_collection m name ∧ handle_on m name.

(** From a manager set on [name], running [m] leaves it set on [name] and
    writes to no other collection, whatever [m] returns or raises; what it
    returns satisfies [V]. *)
Definition confined (name : string) {A} (m : M A) (V : A → Prop) : Prop :=
  ∀ w, on_collection name (self w) →
    on_collection name (self (m w).2) ∧
    same_elsewhere name (db w) (db (m w).2) ∧
    ∀ a, (m w).1 = Ret a → V a.

(** The documents a collection holds, without their primary keys. *)
Definition documents_of (s : Store) (name : string) : list Document :=
  doc_of_entry <$> Milvus.rows_of s name.

(** *** The command line *)

(** The choices of [--operation]. *)
Definition operation_name (op : Operation) : string :=
  match op with
  | OpInsert => "insert"
  | OpUpdate => "update"
  | OpDelete => "delete"
  | OpQuery => "query"
  | OpDrop => "drop"
  | OpLoad => "load"
  end.

(** The option an operation cannot do without, and the value it was given. *)
Definition required_argument (args : Args) : option (string * option string) :=
  match arg_operation args with
  | OpInsert | OpUpdate | OpDelete | OpLoad =>
      Some ("--file-path", arg_file_path args)
  | OpQuery => Some ("--query", arg_query args)
  | OpDrop => None
  end.

(** The required option that is missing or empty, if any. *)
Definition missing_argument (args : Args) : option string :=
  match required_argument args with
  | Some (flag, value) => if not_given value then Some flag else None
  | None => None
  end.

(** The connection arguments read from a configuration dict. *)
Definition connection_of (host port : pyval) : ConnectionArgs :=
  mkConnectionArgs host (py_str port).

(** The world after [MilvusRAGManager(config_path)] read the dict [d] and
    connected. *)
Definition started (d : gmap string pyval) (host port : pyval) (w : World)
  : World :=
  mkWorld (configured d) (db w)
    (stdout w ++
       ["Connected to Milvus at " +:+ py_str host +:+ ":" +:+ py_str port;
        "Server version: " +:+ server_version])
    (trace w ++ [EConnect host port]).

(** The components of the manager can be built from the dict [d]: the
    embedding model it names loads, the model client is created, and the
    text splitter accepts the chunk size and overlap. *)
Definition components (d : gmap string pyval) : Prop :=
  HuggingFaceEmbeddings
    (default (PStr "all-mpnet-base-v2") (d !! "embedding_model")) = Ret tt ∧
  OpenAI = Ret tt ∧
  RecursiveCharacterTextSplitter
    (default (PInt 500) (d !! "chunk_size"))
    (default (PInt 20) (d !! "chunk_overlap")) = Ret tt.

(** A component cannot be built from the dict [d]: the first constructor
    that fails, in the order of [_setup_components], raises [e]. *)
Definition unbuilt (d : gmap string pyval) (e : exn) : Prop :=
  let model := default (PStr "all-mpnet-base-v2") (d !! "embedding_model") in
  let size := default (PInt 500) (d !! "chunk_size") in
  let overlap := default (PInt 20) (d !! "chunk_overlap") in
  HuggingFaceEmbeddings model = Raise e ∨
  (HuggingFaceEmbeddings model = Ret tt ∧ OpenAI = Raise e) ∨
  (HuggingFaceEmbeddings model = Ret tt ∧ OpenAI = Ret tt ∧
   RecursiveCharacterTextSplitter size overlap = Raise e).

(** The configuration file is usable: it holds the dict [d], from which the
    components can be built, with a host and a port at which the server
    answers; the collection name, when [d] gives a string, is one the
    server accepts. *)
Definition configuration (path : string) (d : gmap string pyval)
    (host port : pyval) : Prop :=
  (∃ text, read_text path = Some text ∧ json_loads text = inr (CDict d)) ∧
  d !! "docker_host" = Some host ∧
  d !! "docker_port" = Some port ∧
  components d ∧
  connect host port = Ret tt ∧
  ∀ name, d !! "collection_name" = Some (PStr name) → valid_name name = true.

(** The text splitter [__init__] builds from a configuration dict. *)
Definition splitter_of (d : gmap string pyval) : TextSplitter :=
  mkTextSplitter (default (PInt 500) (d !! "chunk_size"))
                 (default (PInt 20) (d !! "chunk_overlap")).

End Vocabulary.

(** * A reference installation *)

(** Concrete collaborators and states, on which the statements below are
    instantiated: a server on [localhost], the collection [docs], a
    three-page [a.pdf], a directory [papers] with one one-page file, a
    splitter that keeps pages whole, a store that ranks rows in insertion
    order and returns four hits when no [k] is passed (the default of
    langchain's [similarity_search]). *)

Module Example.

Definition page (path text : string) (n : Z) : Document :=
  mkDocument text path n 0.

Definition pages_of (path : string) : list Document :=
  [page path "one" 0; page path "two" 1; page path "three" 2].

Definition base_config : gmap string pyval :=
  <["docker_host" := PStr "localhost"]>
    (<["docker_port" := PInt 19530]> ∅).

Definition full_config : gmap string pyval :=
  <["collection_name" := PStr "docs"]> base_config.

Definition is_letter (c : ascii) : bool :=
  let n := nat_of_ascii c in
  ((65 <=? n) && (n <=? 90) || (97 <=? n) && (n <=? 122))%nat.

Definition is_digit (c : ascii) : bool :=
  let n := nat_of_ascii c in ((48 <=? n) && (n <=? 57))%nat.

Fixpoint all_chars (f : ascii -> bool) (s : string) : bool :=
  match s with
  | EmptyString => true
  | String c r => f c && all_chars f r
  end.

(** The reference server accepts as a collection name a letter or an
    underscore followed by letters, digits and underscores, 255 characters
    at most. *)
Definition accepted_name (s : string) : bool :=
  match s with
  | EmptyString => false
  | String c r =>
      (is_letter c || Ascii.eqb c "_") &&
      all_chars (fun x => is_letter x || is_digit x || Ascii.eqb x "_") r &&
      (String.length s <=? 255)%nat
  end.

(** [s] around the first occurrence of [sep]. *)
Fixpoint split_at (sep s : string) : option (string * string) :=
  match strip_prefix sep s with
  | Some rest => Some (EmptyString, rest)
  | None =>
      match s with
      | EmptyString => None
      | String c r =>
          option_map (fun ab => (String c (fst ab), snd ab)) (split_at sep r)
      end
  end.

(** Of the expressions the manager does not build from a plain path, the
    reference server reads [source == '<a>' || source != '<b>'] for plain
    [a] and [b]; nothing else it is asked to read parses, as [source ==
    'it's.pdf'], which ends its literal at the second quote. *)
Definition server_parse (expr : string) : option (Entry -> bool) :=
  match strip_prefix "source == '" expr with
  | Some rest =>
      match strip_last "'" rest with
      | Some body =>
          match split_at "' || source != '" body with
          | Some (a, b) =>
              if plainb a && plainb b then
                Some (fun e => String.eqb (e_source e) a
                               || negb (String.eqb (e_source e) b))
              else None
          | None => None
          end
      | None => None
      end
  | None => None
  end.

(** The reference text splitter refuses an overlap larger than the chunk
    size, and sizes that are not integers. *)
Definition splitter_accepts (chunk_size chunk_overlap : pyval)
  : outcome unit :=
  match chunk_size, chunk_overlap with
  | PInt size, PInt overlap =>
      if (size <? overlap)%Z then
        Raise (ValueError
                 ("Got a larger chunk overlap (" +:+ str_int overlap
                  +:+ ") than chunk size (" +:+ str_int size
                  +:+ "), should be smaller."))
      else Ret tt
  | _, _ => Raise (TypeError "chunk sizes must be integers")
  end.

(** The reference connection wants the port as an integer or a string. *)
Definition connects (host port : pyval) : outcome unit :=
  match port with
  | PInt _ | PStr _ => Ret tt
  | _ => Raise (MilvusException "Type of 'port' must be str or int")
  end.

Definition collaborators : Collaborators := {|
  isfile p := String.eqb p "a.pdf";
  isdir p := String.eqb p "papers";
  read_text p :=
    if String.eqb p "config.json" then Some "full"
    else if String.eqb p "bare.json" then Some "bare"
    else if String.eqb p "broken.json" then Some "{"
    else None;
  json_loads text :=
    if String.eqb text "full" then inr (CDict full_config)
    else if String.eqb text "bare" then inr (CDict base_config)
    else inl "Expecting property name";
  HuggingFaceEmbeddings _ := Ret tt;
  OpenAI := Ret tt;
  RecursiveCharacterTextSplitter := splitter_accepts;
  connect := connects;
  server_version := "v2.3.0";
  valid_name := accepted_name;
  parse_expr := server_parse;
  pdf_load p := Ret (pages_of p);
  pdf_dir_load p := Ret [page (p +:+ "/b.pdf") "b" 0];
  split_documents _ docs := docs;
  rank _ rows := rows;
  search_k _ := 4%nat;
  condense_question _ q := Ret q;
  generate_answer _ _ q := Ret ("answer to " +:+ q);
|}.

(** No manager yet, an empty database. *)
Definition blank : World :=
  mkWorld (mkManager (COther PNone) None false None None None)
    (mkStore ∅ 1) [] [].

Definition on_database (m : Manager) (s : Store) : World :=
  mkWorld m s [] [].

Definition connection : ConnectionArgs :=
  mkConnectionArgs (PStr "localhost") "19530".

Definition splitter : TextSplitter := mkTextSplitter (PInt 500) (PInt 20).

(** [docs] holds three rows of [a.pdf], two of [gone.pdf] (a file since
    removed from disk) and one of [other.pdf]. *)
Definition sample_rows : list Entry :=
  [mkEntry 1 "one" "a.pdf" 0 0; mkEntry 2 "old" "gone.pdf" 0 0;
   mkEntry 3 "two" "a.pdf" 1 0; mkEntry 4 "x" "other.pdf" 0 0;
   mkEntry 5 "older" "gone.pdf" 1 0; mkEntry 6 "three" "a.pdf" 2 0].

Definition indexed_store : Store := mkStore {["docs" := sample_rows]} 7.

Definition indexed : World :=
  on_database (configured full_config) indexed_store.

Definition unindexed : World :=
  on_database (configured full_config) (mkStore ∅ 1).

(** A configuration that spells the file type in upper case. *)
Definition upper_config : gmap string pyval :=
  <["file_type" := PStr "PDF"]> full_config.

Definition upper : World :=
  on_database (configured upper_config) (mkStore ∅ 1).

(** A collection of twelve rows. *)
Definition crowded : World :=
  on_database (configured full_config)
    (mkStore
       {["docs" := Milvus.entries_from 1 (replicate 12 (page "big.pdf" "text" 0))]}
       13).

(** Statistics that count the rows of the collection, and plain renderings
    of what [main] prints. *)
Definition reporting : Reporting := {|
  collection_stats s name :=
    Ret (mkStats (Z.of_nat (length (Milvus.rows_of s name))));
  str_docs docs := "[" +:+ String.concat ", " (page_content <$> docs) +:+ "]";
  str_milvus msg := "<MilvusException: " +:+ msg +:+ ">";
|}.

(** A manager built from [bare.json], which gives no collection name. *)
Definition unnamed : World :=
  on_database (configured base_config) (mkStore ∅ 1).

(** A configuration whose collection name the server does not accept. *)
Definition hyphen_config : gmap string pyval :=
  <["collection_name" := PStr "my-docs"]> base_config.

Definition hyphenated : World :=
  on_database (configured hyphen_config) (mkStore ∅ 1).



(** A configuration whose file type is not a string. *)
Definition numbered_config : gmap string pyval :=
  <["file_type" := PInt 1]> full_config.

Definition numbered : World :=
  on_database (configured numbered_config) indexed_store.

(** The database of [indexed], before any manager is built. *)
Definition installed : World :=
  mkWorld (mkManager (COther PNone) None false None None None)
    indexed_store [] [].

(** Command lines on [config.json]. *)
Definition command (op : Operation) (file_path query : option string) : Args :=
  mkArgs "config.json" op file_path query false.

(** [docs] without the rows of [a.pdf]. *)
Definition archived_rows : list Entry :=
  [mkEntry 2 "old" "gone.pdf" 0 0; mkEntry 4 "x" "other.pdf" 0 0;
   mkEntry 5 "older" "gone.pdf" 1 0].

Definition archived : World :=
  on_database (configured full_config) (mkStore {["docs" := archived_rows]} 7).

(** Two collections: [docs] and [notes]. *)
Definition shared : World :=
  on_database (configured full_config)
    (mkStore (<["notes" := [mkEntry 7 "memo" "memo.pdf" 0 0]]>
                {["docs" := sample_rows]}) 8).

End Example.

(** * Properties *)

Section Properties.

Context `{C : Collaborators}.

(** ** Strings *)

Lemma strip_prefix_app p s : strip_prefix p (p +:+ s) = Some s.
Proof.
  induction p as [|a p IH]; simpl; [done|].
  by rewrite Ascii.eqb_refl.
Qed.

Lemma strip_last_app c s : strip_last c (s +:+ String c EmptyString) = Some s.
Proof.
  induction s as [|a s IH]; simpl.
  - by rewrite Ascii.eqb_refl.
  - rewrite IH. simpl. by destruct s.
Qed.

Lemma int_of_str_int z : int_of_str (str_int z) = Some z.
Proof.
  unfold int_of_str, str_int.
  rewrite NilZero.isi.
  - simpl. by rewrite DecimalZ.of_to.
  - destruct z as [|p|p]; simpl; try discriminate.
    intros [= H]. by apply (DecimalPos.Unsigned.to_uint_nonnil p).
  - destruct z as [|p|p]; simpl; try discriminate.
    intros [= H]. by apply (DecimalPos.Unsigned.to_uint_nonnil p).
Qed.

(** ** Running the monad *)

Lemma bind_ret {A B} (m : M A) (k : A → M B) w a w' :
  m w = (Ret a, w') → (m ≫= k) w = k a w'.
Proof. intros H. unfold mbind, M_bind, bind. by rewrite H. Qed.

Lemma bind_raise {A B} (m : M A) (k : A → M B) w e w' :
  m w = (Raise e, w') → (m ≫= k) w = (Raise e, w').
Proof. intros H. unfold mbind, M_bind, bind. by rewrite H. Qed.

Lemma config_getitem_run w d key v :
  config (self w) = CDict d → d !! key = Some v →
  config_getitem key w = (Ret v, w).
Proof.
  intros Hc Hk. unfold config_getitem, get_self, mbind, M_bind, bind.
  by rewrite Hc, Hk.
Qed.

Lemma config_getitem_missing w d key :
  config (self w) = CDict d → d !! key = None →
  config_getitem key w = (Raise (KeyError key), w).
Proof.
  intros Hc Hk. unfold config_getitem, get_self, mbind, M_bind, bind.
  by rewrite Hc, Hk.
Qed.

Lemma config_get_run w d key dflt :
  config (self w) = CDict d →
  config_get key dflt w = (Ret (default dflt (d !! key)), w).
Proof.
  intros Hc. unfold config_get, get_self, mbind, M_bind, bind.
  rewrite Hc. by destruct (d !! key).
Qed.

Lemma config_getitem_collection_name w name :
  collection_name_of (self w) = Some name →
  config_getitem "collection_name" w = (Ret (PStr name), w).
Proof.
  unfold collection_name_of.
  destruct (config (self w)) as [d|v] eqn:Hc; [|done].
  destruct (d !! "collection_name") as [[| | |s|]|] eqn:Hk; try done.
  destruct (valid_name s); [|done].
  intros [= ->]. by eapply config_getitem_run.
Qed.

Lemma collection_name_valid m name :
  collection_name_of m = Some name → valid_name name = true.
Proof.
  unfold collection_name_of.
  destruct (config m) as [d|v]; [|done].
  destruct (d !! "collection_name") as [[| | |s|]|]; try done.
  destruct (valid_name s) eqn:Hv; [|done]. by intros [= <-].
Qed.

Lemma collection_name_names m name :
  collection_name_of m = Some name → names_collection m name.
Proof.
  unfold collection_name_of, names_collection.
  destruct (config m) as [d|v]; [|done].
  destruct (d !! "collection_name") as [[| | |s|]|] eqn:Hk; try done.
  destruct (valid_name s); [|done]. intros [= <-]. by exists d.
Qed.

Lemma check_name_run name w :
  valid_name name = true → Milvus.check_name (PStr name) w = (Ret name, w).
Proof. intros Hv. unfold Milvus.check_name. by rewrite Hv. Qed.

Lemma get_connection_args_run w ca :
  connection_args_of (self w) = Some ca →
  _get_connection_args w = (Ret ca, w).
Proof.
  unfold connection_args_of, _get_connection_args.
  destruct (config (self w)) as [d|v] eqn:Hc; [|done].
  destruct (d !! "docker_host") as [host|] eqn:Hh; [|done].
  destruct (d !! "docker_port") as [port|] eqn:Hp; [|done].
  intros [= <-].
  rewrite (bind_ret _ _ _ _ _ (config_getitem_run _ _ _ _ Hc Hh)).
  by rewrite (bind_ret _ _ _ _ _ (config_getitem_run _ _ _ _ Hc Hp)).
Qed.

(** Unfolds the monad's operations in the goal. *)
Ltac run :=
  unfold mbind, M_bind, bind, mret, M_ret, ret, raise, lift, get_self, put_self,
    get_db, put_db, print, emit; simpl.

(** ** Dropping the collection *)

Lemma drop_collection_run w name :
  collection_name_of (self w) = Some name →
  _drop_collection w = (Ret tt, after_drop name w).
Proof.
  intros Hn. unfold _drop_collection, after_drop.
  rewrite (bind_ret _ _ _ _ _ (config_getitem_collection_name _ _ Hn)).
  unfold Milvus.has_collection, Milvus.drop_collection, Milvus.check_name.
  rewrite (collection_name_valid _ _ Hn).
  run. destruct (collections (db w) !! name) as [rows|] eqn:Hl; simpl.
  - unfold dropped. by rewrite <- app_assoc.
  - done.
Qed.

Lemma after_drop_absent name w :
  collections (db (after_drop name w)) !! name = None.
Proof.
  unfold after_drop.
  destruct (collections (db w) !! name) eqn:Hl; simpl; [|done].
  apply lookup_delete_eq.
Qed.

Lemma after_drop_name name w :
  collection_name_of (self (after_drop name w)) = collection_name_of (self w).
Proof. unfold after_drop. by destruct (collections (db w) !! name). Qed.

(** C3, as the code has it.  With a collection name configured that the
    server accepts, [_drop_collection] returns without an exception from
    every state, and so does a second call right after it; the second call changes neither the database nor the manager
    and prints that the collection does not exist.  On a database without
    the collection the call changes nothing and prints that message; on a
    database with it the collection is removed and the manager's
    [collection] and [vector_db] are set to [None]. *)
Theorem drop_collection_idempotent w name :
  collection_name_of (self w) = Some name →
  ∃ w1 w2,
    _drop_collection w = (Ret tt, w1) ∧
    _drop_collection w1 = (Ret tt, w2) ∧
    db w2 = db w1 ∧ self w2 = self w1 ∧
    stdout w2 = stdout w1 ++ ["Collection '" +:+ name +:+ "' does not exist"] ∧
    (collections (db w) !! name = None →
       db w1 = db w ∧ self w1 = self w ∧
       stdout w1 = stdout w ++ ["Collection '" +:+ name +:+ "' does not exist"]) ∧
    (is_Some (collections (db w) !! name) →
       collections (db w1) = delete name (collections (db w)) ∧
       collection (self w1) = None ∧ vector_db (self w1) = None).
Proof.
  intros Hn. exists (after_drop name w), (not_dropped name (after_drop name w)).
  split; [by apply drop_collection_run|].
  split.
  { rewrite (drop_collection_run _ name) by by rewrite after_drop_name.
    unfold after_drop at 1. by rewrite after_drop_absent. }
  do 3 (split; [done|]).
  split.
  - unfold after_drop. by intros ->.
  - unfold after_drop. intros [rows Hr]. by rewrite Hr.
Qed.

(** ** Loading and inserting documents *)

Lemma count_source_app fp (l1 l2 : list Entry) :
  count_source fp (l1 ++ l2) = (count_source fp l1 + count_source fp l2)%nat.
Proof. unfold count_source. by rewrite List.filter_app, length_app. Qed.

Lemma count_source_entries_from fp k docs :
  count_source fp (Milvus.entries_from k docs) =
  length (List.filter (fun d => String.eqb (doc_source d) fp) docs).
Proof.
  revert k. induction docs as [|d docs IH]; intros k; [done|].
  unfold count_source in *. simpl.
  destruct (String.eqb (doc_source d) fp); simpl; by rewrite IH.
Qed.


Lemma rows_of_insert_batch name docs s :
  Milvus.rows_of (Milvus.insert_batch name docs s) name =
  Milvus.rows_of s name ++ Milvus.entries_from (next_pk s) docs.
Proof.
  destruct docs as [|d docs]; simpl.
  - by rewrite app_nil_r.
  - unfold Milvus.rows_of at 1. simpl. by rewrite lookup_insert_eq.
Qed.

Lemma load_documents_run w ts fp raw :
  file_type_of (self w) = Some "pdf" →
  text_splitter (self w) = Some ts →
  loaded fp = Some raw →
  _load_documents fp w =
    (Ret (split_documents ts raw),
     mkWorld (self w) (db w) (stdout w)
       (trace w ++ [load_event fp; ESplit (length raw)])).
Proof.
  unfold file_type_of, loaded, load_event, _load_documents.
  destruct (config (self w)) as [d|v] eqn:Hc; [|done].
  intros Hft Hts Hl.
  rewrite (bind_ret _ _ _ _ _ (config_get_run _ _ _ _ Hc)).
  destruct (default (PStr "pdf") (d !! "file_type")) as [| | |s|]; try done.
  injection Hft as Hft. unfold str_lower. run. rewrite Hft. simpl.
  destruct (isfile fp).
  - destruct (pdf_load fp) as [ds|e]; [|done]. injection Hl as ->.
    unfold split. run. rewrite Hts. simpl. by rewrite <- app_assoc.
  - destruct (isdir fp); [|done].
    destruct (pdf_dir_load fp) as [ds|e]; [|done]. injection Hl as ->.
    unfold split. run. rewrite Hts. simpl. by rewrite <- app_assoc.
Qed.

Lemma insert_documents_run w name ca ts fp raw :
  Ready (self w) name ca ts →
  file_type_of (self w) = Some "pdf" →
  loaded fp = Some raw →
  insert_documents fp w = (Ret tt, inserted name ca ts fp raw w).
Proof.
  intros (Hn & Hca & Hts & He) Hft Hl. unfold insert_documents.
  erewrite bind_ret by (unfold print; reflexivity).
  erewrite bind_ret by (by apply load_documents_run).
  erewrite bind_ret by (unfold get_self; reflexivity).
  erewrite bind_ret by (by apply get_connection_args_run).
  erewrite bind_ret by (by apply config_getitem_collection_name).
  unfold Milvus.from_documents, Milvus.check_name, inserted, store_object.
  rewrite (collection_name_valid _ _ Hn).
  run. destruct (embeddings (self w)); [|done]. simpl.
  by rewrite <- !app_assoc.
Qed.

(** ** Looking rows up by source and deleting them by primary key *)

Lemma eval_expr_source fp :
  plain fp →
  Milvus.eval_expr (source_expr fp) =
    Some (fun e => String.eqb (e_source e) fp).
Proof.
  intros Hp. unfold Milvus.eval_expr, source_expr.
  rewrite strip_prefix_app, strip_last_app. by rewrite Hp.
Qed.

Lemma eval_expr_pk k :
  Milvus.eval_expr (pk_expr k) = Some (fun e => Z.eqb (pk e) k).
Proof.
  unfold Milvus.eval_expr, pk_expr.
  change (strip_prefix "source == '" ("pk in [" +:+ str_int k +:+ "]"))
    with (@None string).
  rewrite strip_prefix_app, strip_last_app, int_of_str_int. done.
Qed.

Lemma filter_filter_entries (f g : Entry → bool) rows :
  List.filter f (List.filter g rows) = List.filter (fun e => g e && f e) rows.
Proof.
  induction rows as [|e rows IH]; [done|]. simpl.
  destruct (g e); simpl; [destruct (f e)|]; by rewrite IH.
Qed.

Lemma without_pks_filter pks rows :
  without_pks pks rows =
  List.filter (fun e => negb (existsb (Z.eqb (pk e)) pks)) rows.
Proof.
  revert rows. induction pks as [|k pks IH]; intros rows; simpl.
  - induction rows as [|e rows IHr]; [done|]. simpl. by rewrite <- IHr.
  - unfold without_pks in *. simpl. rewrite IH, filter_filter_entries.
    apply List.filter_ext. intros e. by rewrite negb_orb.
Qed.

Lemma hit_pk_listed fp rows e :
  e ∈ rows → e_source e = fp →
  existsb (Z.eqb (pk e)) (pk <$> hits fp rows) = true.
Proof.
  intros He Hs. apply existsb_exists. exists (pk e).
  split; [|apply Z.eqb_refl].
  apply list_elem_of_In, list_elem_of_fmap. exists e. split; [done|].
  apply list_elem_of_In, filter_In. split; [by apply list_elem_of_In|].
  by apply String.eqb_eq.
Qed.

Lemma NoDup_fmap_inj_on {A B} (f : A → B) (l : list A) x y :
  NoDup (f <$> l) → x ∈ l → y ∈ l → f x = f y → x = y.
Proof.
  induction l as [|a l IH]; simpl; [by intros _ ?%elem_of_nil|].
  rewrite NoDup_cons, !elem_of_cons. intros [Hna Hnd] [->|Hx] [->|Hy] Hf.
  - done.
  - exfalso. apply Hna. rewrite Hf. apply list_elem_of_fmap. eauto.
  - exfalso. apply Hna. rewrite <- Hf. apply list_elem_of_fmap. eauto.
  - by apply IH.
Qed.

(** Deleting the hits by primary key leaves no row of the source. *)
Lemma count_source_without_hits fp rows :
  count_source fp (without_pks (pk <$> hits fp rows) rows) = 0%nat.
Proof.
  rewrite without_pks_filter. unfold count_source.
  rewrite filter_filter_entries.
  rewrite (List.filter_ext_in _ (fun _ => false)); [by induction rows|].
  intros e He. destruct (String.eqb (e_source e) fp) eqn:Hs.
  - apply String.eqb_eq in Hs.
    rewrite (hit_pk_listed fp rows e); [done| by apply list_elem_of_In | done].
  - by rewrite andb_false_r.
Qed.

(** With unique primary keys, deleting the hits by primary key removes them
    and nothing else. *)
Lemma without_hits_unique fp rows :
  NoDup (pk <$> rows) →
  without_pks (pk <$> hits fp rows) rows =
  List.filter (fun e => negb (String.eqb (e_source e) fp)) rows.
Proof.
  intros Hnd. rewrite without_pks_filter.
  apply List.filter_ext_in. intros e He. f_equal.
  destruct (String.eqb (e_source e) fp) eqn:Hs.
  - apply String.eqb_eq in Hs. apply hit_pk_listed; [by apply list_elem_of_In|done].
  - apply not_true_is_false. intros Hex.
    apply existsb_exists in Hex as (k & Hk & Hek).
    apply Z.eqb_eq in Hek. subst k.
    apply list_elem_of_In, list_elem_of_fmap in Hk as (e' & Hpk & He').
    apply list_elem_of_In, filter_In in He' as (He' & Hs').
    assert (e = e') as ->.
    { apply list_elem_of_In in He, He'.
      by apply (NoDup_fmap_inj_on pk rows). }
    congruence.
Qed.

Lemma ensure_collection_run w name rows :
  collection_name_of (self w) = Some name →
  handle_on (self w) name →
  collections (db w) !! name = Some rows →
  ensure_collection w = (Ret (mkCollectionHandle name), acquired name w).
Proof.
  intros Hn Hh Hrows. unfold ensure_collection, acquired, acquire_events.
  run. destruct (collection (self w)) as [c|] eqn:Hc.
  - specialize (Hh c Hc). destruct c as [n]. simpl in Hh. subst n.
    rewrite app_nil_r. destruct w as [[] ? ? ?]. simpl in *. by subst.
  - rewrite (config_getitem_collection_name _ _ Hn).
    unfold Milvus.Collection, Milvus.check_name.
    rewrite (collection_name_valid _ _ Hn). run. by rewrite Hrows.
Qed.

Lemma query_source_run c w rows fp :
  collections (db w) !! ch_name c = Some rows →
  plain fp →
  Milvus.query c (source_expr fp) w =
    (Ret (row_of_entry <$> hits fp rows),
     mkWorld (self w) (db w) (stdout w)
       (trace w ++ [EQuery (ch_name c) (source_expr fp)])).
Proof.
  intros Hrows Hp. unfold Milvus.query. run.
  by rewrite Hrows, (eval_expr_source _ Hp).
Qed.

Lemma delete_one_run c doc w rows :
  collections (db w) !! ch_name c = Some rows →
  delete_one c doc w =
    (Ret tt,
     mkWorld (self w)
       (mkStore (<[ch_name c :=
                     List.filter (fun e => negb (Z.eqb (pk e) (row_pk doc))) rows]>
                   (collections (db w)))
                (next_pk (db w)))
       (stdout w ++ ["Deleted document with pk: " +:+ str_int (row_pk doc)])
       (trace w ++ [EDelete (ch_name c) (pk_expr (row_pk doc))])).
Proof.
  intros Hrows. unfold delete_one, Milvus.delete. run.
  by rewrite Hrows, eval_expr_pk.
Qed.

Lemma delete_loop_run c res : ∀ w rows,
  collections (db w) !! ch_name c = Some rows →
  for_each res (delete_one c) w =
    (Ret tt,
     mkWorld (self w)
       (mkStore (<[ch_name c := without_pks (row_pk <$> res) rows]>
                   (collections (db w)))
                (next_pk (db w)))
       (stdout w ++
          ((fun doc => "Deleted document with pk: " +:+ str_int (row_pk doc))
             <$> res))
       (trace w ++
          ((fun doc => EDelete (ch_name c) (pk_expr (row_pk doc))) <$> res))).
Proof.
  induction res as [|doc res IH]; intros w rows Hrows.
  - simpl. rewrite !app_nil_r, insert_id by done.
    destruct w as [? [] ? ?]. done.
  - cbn [for_each].
    erewrite bind_ret by (by apply delete_one_run).
    erewrite IH by (simpl; apply lookup_insert_eq).
    simpl. rewrite insert_insert_eq, <- !app_assoc. done.
Qed.

Lemma delete_documents_run w name rows fp :
  collection_name_of (self w) = Some name →
  handle_on (self w) name →
  collections (db w) !! name = Some rows →
  plain fp →
  delete_documents fp w = (Ret tt, deleted name fp rows w).
Proof.
  intros Hn Hh Hrows Hp. unfold delete_documents.
  erewrite bind_ret by (by eapply ensure_collection_run).
  erewrite bind_ret by (by apply (query_source_run _ _ rows)).
  unfold deleted.
  destruct (row_of_entry <$> hits fp rows) as [|doc res] eqn:Hres.
  - done.
  - fold (delete_one (mkCollectionHandle name)).
    erewrite bind_ret by (by apply (delete_loop_run _ _ _ rows)).
    unfold print. simpl. by rewrite <- !app_assoc.
Qed.


Lemma deleted_rows name fp rows w :
  collections (db w) !! name = Some rows →
  Milvus.rows_of (db (deleted name fp rows w)) name =
  without_pks (pk <$> hits fp rows) rows.
Proof.
  intros Hrows. unfold deleted, Milvus.rows_of.
  destruct (hits fp rows) as [|e es]; simpl.
  - by rewrite Hrows.
  - rewrite lookup_insert_eq. simpl. by rewrite <- list_fmap_compose.
Qed.


(** ** Primary keys stay unique *)

Lemma entries_from_bounds k docs :
  Forall (fun e => k ≤ pk e < k + Z.of_nat (length docs))
    (Milvus.entries_from k docs).
Proof.
  revert k. induction docs as [|d docs IH]; intros k; simpl; [constructor|].
  constructor; [simpl; lia|].
  eapply Forall_impl; [apply IH|]. intros e He. simpl in He. lia.
Qed.

Lemma entries_from_NoDup k docs : NoDup (pk <$> Milvus.entries_from k docs).
Proof.
  revert k. induction docs as [|d docs IH]; intros k; simpl; [constructor|].
  apply NoDup_cons. split; [|apply IH].
  intros Hin. apply list_elem_of_fmap in Hin as (e & Hk & He).
  pose proof (entries_from_bounds (k + 1) docs) as Hb.
  rewrite Forall_forall in Hb. specialize (Hb e He). lia.
Qed.

Lemma store_wf_add_documents name docs s :
  store_wf s → store_wf (Milvus.add_documents name docs s).
Proof.
  intros Hwf n rows.
  unfold Milvus.add_documents, Milvus.rows_of. cbn [collections next_pk].
  assert (0 ≤ Z.of_nat (length docs)) as Hlen by lia.
  pose proof (entries_from_bounds (next_pk s) docs) as Hb.
  destruct (decide (name = n)) as [->|Hne].
  - rewrite lookup_insert_eq. intros [= <-].
    destruct (collections s !! n) as [old|] eqn:Hold; cbn [default from_option id].
    + destruct (Hwf n old Hold) as [Hnd Hlt]. split.
      * rewrite fmap_app. apply NoDup_app. split; [done|].
        split; [|apply entries_from_NoDup].
        intros k Hk1 Hk2.
        apply list_elem_of_fmap in Hk1 as (e1 & -> & He1).
        apply list_elem_of_fmap in Hk2 as (e2 & Hpk & He2).
        rewrite Forall_forall in Hlt, Hb.
        specialize (Hlt e1 He1). specialize (Hb e2 He2). simpl in *. lia.
      * apply Forall_app. split.
        -- eapply Forall_impl; [exact Hlt|]. intros e He. simpl in *. lia.
        -- eapply Forall_impl; [exact Hb|]. intros e He. simpl in *. lia.
    + split; [apply entries_from_NoDup|].
      eapply Forall_impl; [exact Hb|]. intros e He. simpl in *. lia.
  - rewrite lookup_insert_ne by done. intros Hrows.
    destruct (Hwf n rows Hrows) as [Hnd Hlt]. split; [done|].
    eapply Forall_impl; [exact Hlt|]. intros e He. simpl in *. lia.
Qed.

Lemma store_wf_insert_batch name docs s :
  store_wf s → store_wf (Milvus.insert_batch name docs s).
Proof.
  intros Hwf. destruct docs as [|d docs]; [done|].
  by apply store_wf_add_documents.
Qed.

Lemma NoDup_fmap_filter (f : Entry → bool) rows :
  NoDup (pk <$> rows) → NoDup (pk <$> List.filter f rows).
Proof.
  induction rows as [|e rows IH]; simpl; [done|].
  rewrite NoDup_cons. intros [Hnin Hnd].
  destruct (f e); simpl; [|by apply IH].
  apply NoDup_cons. split; [|by apply IH].
  intros Hin. apply Hnin.
  apply list_elem_of_fmap in Hin as (e' & -> & He').
  apply list_elem_of_fmap. exists e'. split; [done|].
  apply list_elem_of_In, filter_In in He' as [He' _].
  by apply list_elem_of_In.
Qed.

Lemma store_wf_filter name f rows s :
  store_wf s → collections s !! name = Some rows →
  store_wf (mkStore (<[name := List.filter f rows]> (collections s)) (next_pk s)).
Proof.
  intros Hwf Hrows n rs. simpl.
  destruct (decide (name = n)) as [->|Hne].
  - rewrite lookup_insert_eq. intros [= <-].
    destruct (Hwf n rows Hrows) as [Hnd Hlt]. split.
    + by apply NoDup_fmap_filter.
    + apply Forall_forall. intros e He.
      apply list_elem_of_In, filter_In in He as [He _].
      rewrite Forall_forall in Hlt. by apply Hlt, list_elem_of_In.
  - rewrite lookup_insert_ne by done. apply (Hwf n rs).
Qed.

Lemma store_wf_drop name s :
  store_wf s → store_wf (mkStore (delete name (collections s)) (next_pk s)).
Proof.
  intros Hwf n rows. simpl. intros Hl.
  apply lookup_delete_Some in Hl as [_ Hl]. by apply (Hwf n rows).
Qed.

Lemma store_wf_rows_of s name :
  store_wf s → NoDup (pk <$> Milvus.rows_of s name).
Proof.
  intros Hwf. unfold Milvus.rows_of.
  destruct (collections s !! name) as [rows|] eqn:Hrows; simpl.
  - by destruct (Hwf name rows Hrows).
  - constructor.
Qed.

Lemma doc_of_entries_from k docs :
  doc_of_entry <$> Milvus.entries_from k docs = docs.
Proof.
  revert k. induction docs as [|d docs IH]; intros k; [done|].
  simpl. rewrite IH. by destruct d.
Qed.

Lemma documents_of_insert_batch name docs s :
  documents_of (Milvus.insert_batch name docs s) name =
  documents_of s name ++ docs.
Proof.
  unfold documents_of.
  by rewrite rows_of_insert_batch, fmap_app, doc_of_entries_from.
Qed.

Lemma count_tagged fp docs :
  Forall (fun d => doc_source d = fp) docs →
  length (List.filter (fun d => String.eqb (doc_source d) fp) docs) =
  length docs.
Proof.
  induction 1 as [|d docs Hd _ IH]; [done|].
  simpl. rewrite Hd, String.eqb_refl. simpl. by rewrite IH.
Qed.

(** C2.  On a manager configured for PDF, for a path whose loader
    succeeds: two calls of [insert_documents] in a row both return, and
    each appends the chunks of the path to the collection, as rows that
    carry the text, source, page and start index of the chunks, in their
    order.  Each call adds as many rows whose source is the path as there
    are chunks with that source, so with no such row before the first call
    the number after the second is twice the number after the first; when
    the loader tags every chunk with the path these numbers are the chunk
    count and its double.  Nothing is deduplicated: the rows of the second
    batch have primary keys of their own (on a database whose primary keys
    were unique they still are). *)
Theorem insert_twice_doubles w name ca ts fp raw :
  Ready (self w) name ca ts →
  file_type_of (self w) = Some "pdf" →
  loaded fp = Some raw →
  let docs := split_documents ts raw in
  let added :=
    length (List.filter (fun d => String.eqb (doc_source d) fp) docs) in
  let count s := count_source fp (Milvus.rows_of s name) in
  ∃ w1 w2,
    insert_documents fp w = (Ret tt, w1) ∧
    insert_documents fp w1 = (Ret tt, w2) ∧
    documents_of (db w1) name = documents_of (db w) name ++ docs ∧
    documents_of (db w2) name = documents_of (db w1) name ++ docs ∧
    Milvus.rows_of (db w2) name =
      Milvus.rows_of (db w1) name ++
      Milvus.entries_from (next_pk (db w1)) docs ∧
    count (db w1) = (count (db w) + added)%nat ∧
    count (db w2) = (count (db w1) + added)%nat ∧
    (count (db w) = 0%nat → count (db w2) = (2 * count (db w1))%nat) ∧
    (Forall (fun d => doc_source d = fp) docs → count (db w) = 0%nat →
       count (db w1) = length docs ∧
       count (db w2) = (2 * length docs)%nat) ∧
    (store_wf (db w) → NoDup (pk <$> Milvus.rows_of (db w2) name)).
Proof.
  intros Hr Hft Hl docs added count.
  set (w1 := inserted name ca ts fp raw w).
  set (w2 := inserted name ca ts fp raw w1).
  assert (count (db w1) = (count (db w) + added)%nat) as H1.
  { unfold count, w1. simpl.
    by rewrite rows_of_insert_batch, count_source_app,
      count_source_entries_from. }
  assert (count (db w2) = (count (db w1) + added)%nat) as H2.
  { unfold count, w2. simpl.
    by rewrite rows_of_insert_batch, count_source_app,
      count_source_entries_from. }
  exists w1, w2.
  split; [by apply insert_documents_run|].
  split; [by apply insert_documents_run|].
  split; [apply documents_of_insert_batch|].
  split; [apply documents_of_insert_batch|].
  split; [apply rows_of_insert_batch|].
  split; [done|]. split; [done|].
  split; [intros H0; lia|].
  split.
  - intros Hall H0. unfold added in *.
    rewrite (count_tagged fp docs Hall) in *. lia.
  - intros Hwf. apply store_wf_rows_of. simpl.
    by do 2 apply store_wf_insert_batch.
Qed.

(** ** Updating: check, delete, insert *)

Lemma check_file_exists_run w name rows fp :
  collection_name_of (self w) = Some name →
  handle_on (self w) name →
  collections (db w) !! name = Some rows →
  plain fp →
  _check_file_exists fp w =
    (Ret (bool_decide (hits fp rows ≠ [])), checked name fp w).
Proof.
  intros Hn Hh Hrows Hp. unfold _check_file_exists.
  erewrite bind_ret by (by eapply ensure_collection_run).
  erewrite bind_ret by (by apply (query_source_run _ _ rows)).
  unfold checked. run. do 2 f_equal.
  by destruct (hits fp rows).
Qed.

Lemma handle_on_acquired name w : handle_on (self (acquired name w)) name.
Proof. intros c. simpl. by intros [= <-]. Qed.


Lemma cleared_rows name fp rows w :
  collections (db w) !! name = Some rows →
  Milvus.rows_of (db (cleared name fp rows w)) name =
  without_pks (pk <$> hits fp rows) rows.
Proof.
  intros Hrows. unfold cleared.
  destruct (hits fp rows) as [|e es] eqn:Hh.
  - unfold Milvus.rows_of. simpl. by rewrite Hrows.
  - rewrite deleted_rows by done. by rewrite Hh.
Qed.

Lemma cleared_next_pk name fp rows w :
  next_pk (db (cleared name fp rows w)) = next_pk (db w).
Proof.
  unfold cleared. destruct (hits fp rows) as [|e es] eqn:Hh; [done|].
  unfold deleted. simpl. by rewrite Hh.
Qed.

Lemma cleared_self name fp rows w :
  self (cleared name fp rows w) = self (acquired name w).
Proof.
  unfold cleared. destruct (hits fp rows) as [|e es] eqn:Hh; [done|].
  unfold deleted. simpl. by rewrite Hh.
Qed.

(** The first two steps of [update_documents]: the check, then the
    deletions when the check found rows. *)
Lemma update_clears w name rows fp :
  collection_name_of (self w) = Some name →
  handle_on (self w) name →
  collections (db w) !! name = Some rows →
  plain fp →
  update_documents fp w =
    insert_documents fp (cleared name fp rows w).
Proof.
  intros Hn Hh Hrows Hp. unfold update_documents.
  erewrite bind_ret by (unfold print; reflexivity).
  erewrite bind_ret by (by apply (check_file_exists_run _ name rows)).
  unfold cleared. destruct (hits fp rows) as [|e es] eqn:Hhits.
  - rewrite bool_decide_eq_false_2 by (by intros []).
    by erewrite bind_ret by reflexivity.
  - rewrite bool_decide_eq_true_2 by done.
    erewrite bind_ret; [reflexivity|].
    rewrite (delete_documents_run _ name rows); try done.
    apply handle_on_acquired.
Qed.


(** ** Paths that cannot be loaded *)

Lemma file_type_of_run w ft :
  file_type_of (self w) = Some ft →
  (ft' ← config_get "file_type" (PStr "pdf"); str_lower ft') w = (Ret ft, w).
Proof.
  unfold file_type_of.
  destruct (config (self w)) as [d|v] eqn:Hc; [|done].
  intros Hft. erewrite bind_ret by (by apply config_get_run).
  destruct (default (PStr "pdf") (d !! "file_type")); try done.
  by injection Hft as <-.
Qed.

Lemma load_documents_not_found w ft fp :
  file_type_of (self w) = Some ft →
  isfile fp = false → isdir fp = false →
  _load_documents fp w =
    (Raise (FileNotFoundError ("File or directory not found: " +:+ fp)), w).
Proof.
  intros Hft Hf Hd. unfold _load_documents.
  pose proof (file_type_of_run w ft Hft) as Hrun.
  unfold mbind, M_bind, bind in *.
  destruct (config_get "file_type" (PStr "pdf") w) as [[v|e] w1]; [|done].
  rewrite Hrun, Hf, Hd. done.
Qed.

Lemma load_documents_unsupported w ft fp :
  file_type_of (self w) = Some ft →
  ft ≠ "pdf" →
  isfile fp || isdir fp = true →
  _load_documents fp w =
    (Raise (ValueError
              ((if isfile fp then "Unsupported file type: "
                else "Unsupported file type for directory: ") +:+ ft)), w).
Proof.
  intros Hft Hne Hex. unfold _load_documents.
  pose proof (file_type_of_run w ft Hft) as Hrun.
  unfold mbind, M_bind, bind in *.
  destruct (config_get "file_type" (PStr "pdf") w) as [[v|e] w1]; [|done].
  rewrite Hrun. apply String.eqb_neq in Hne. rewrite Hne.
  destruct (isfile fp); [done|]. simpl in Hex. by rewrite Hex.
Qed.


(** C7, as the code has it.  With a collection name, connection arguments
    and a text splitter in place and a configured file type that is a
    string (['pdf'] when absent), compared after lower-casing:
    a path that is neither a file nor a directory raises
    [FileNotFoundError], whatever the file type; a path that exists with a
    file type other than ['pdf'] raises [ValueError] before any loader or
    database call; a path that exists with file type ['pdf'] and a loader
    that succeeds gets its chunks appended to the collection, and the last
    line printed reports their number. *)
Theorem insert_documents_outcomes w name ca ts ft fp :
  Ready (self w) name ca ts →
  file_type_of (self w) = Some ft →
  (isfile fp = false → isdir fp = false →
     ∃ w', insert_documents fp w =
             (Raise (FileNotFoundError
                       ("File or directory not found: " +:+ fp)), w') ∧
           db w' = db w ∧ trace w' = trace w) ∧
  (isfile fp || isdir fp = true → ft ≠ "pdf" →
     ∃ msg w', insert_documents fp w = (Raise (ValueError msg), w') ∧
               db w' = db w ∧ trace w' = trace w) ∧
  (∀ raw, ft = "pdf" → loaded fp = Some raw →
     ∃ w', insert_documents fp w = (Ret tt, w') ∧
           Milvus.rows_of (db w') name =
             Milvus.rows_of (db w) name ++
             Milvus.entries_from (next_pk (db w)) (split_documents ts raw) ∧
           last (stdout w') =
             Some ("Successfully inserted "
                   +:+ str_int (Z.of_nat (length (split_documents ts raw)))
                   +:+ " document chunks")).
Proof.
  intros Hr Hft. split; [|split].
  - intros Hf Hd.
    exists (mkWorld (self w) (db w)
              (stdout w ++ ["Inserting documents from: " +:+ fp]) (trace w)).
    split; [|done].
    unfold insert_documents.
    erewrite bind_ret by (unfold print; reflexivity).
    erewrite bind_raise; [reflexivity|].
    by apply (load_documents_not_found _ ft).
  - intros Hex Hne. eexists.
    exists (mkWorld (self w) (db w)
              (stdout w ++ ["Inserting documents from: " +:+ fp]) (trace w)).
    split; [|done].
    unfold insert_documents.
    erewrite bind_ret by (unfold print; reflexivity).
    erewrite bind_raise; [reflexivity|].
    by apply (load_documents_unsupported _ ft).
  - intros raw -> Hl. exists (inserted name ca ts fp raw w).
    split; [by apply insert_documents_run|].
    split; [apply rows_of_insert_batch|].
    simpl. by rewrite last_app.
Qed.

(** ** Loading into a fresh collection *)

Lemma after_drop_self_config name w :
  config (self (after_drop name w)) = config (self w) ∧
  text_splitter (self (after_drop name w)) = text_splitter (self w) ∧
  embeddings (self (after_drop name w)) = embeddings (self w).
Proof. unfold after_drop. by destruct (collections (db w) !! name). Qed.

Lemma Ready_after_drop name w name' ca ts :
  Ready (self w) name' ca ts → Ready (self (after_drop name w)) name' ca ts.
Proof.
  destruct (after_drop_self_config name w) as (Hc & Ht & He).
  unfold Ready, collection_name_of, connection_args_of.
  by rewrite Hc, Ht, He.
Qed.

Lemma file_type_after_drop name w :
  file_type_of (self (after_drop name w)) = file_type_of (self w).
Proof.
  destruct (after_drop_self_config name w) as (Hc & _).
  unfold file_type_of. by rewrite Hc.
Qed.

Lemma after_drop_next_pk name w :
  next_pk (db (after_drop name w)) = next_pk (db w).
Proof. unfold after_drop. by destruct (collections (db w) !! name). Qed.

Lemma after_drop_trace name w :
  trace (after_drop name w) = trace w ++ drop_events (db w) name.
Proof.
  unfold after_drop, drop_events. by destruct (collections (db w) !! name).
Qed.

Lemma load_collection_run w name ca ts fp raw :
  Ready (self w) name ca ts →
  file_type_of (self w) = Some "pdf" →
  loaded fp = Some raw →
  load_collection fp w =
    (load_result name (split_documents ts raw), reloaded name ca ts fp raw w).
Proof.
  intros Hr Hft Hl. unfold load_collection.
  pose proof (Ready_after_drop name w _ _ _ Hr) as (Hn1 & Hca1 & Hts1 & He1).
  pose proof (after_drop_absent name w) as Habs.
  pose proof (after_drop_self_config name w) as (_ & _ & He).
  erewrite bind_ret by (apply drop_collection_run, Hr).
  erewrite bind_ret by (unfold print; reflexivity).
  erewrite bind_ret
    by (apply load_documents_run; simpl;
        [by rewrite file_type_after_drop|done..]).
  erewrite bind_ret by (unfold get_self; reflexivity).
  erewrite bind_ret by (by apply get_connection_args_run).
  erewrite bind_ret by (by apply config_getitem_collection_name).
  unfold Milvus.from_documents, Milvus.Collection, Milvus.check_name,
    reloaded, load_result, store_object.
  rewrite (collection_name_valid _ _ Hn1).
  run. rewrite <- He.
  destruct (embeddings (self (after_drop name w))); [|done]. simpl.
  destruct (split_documents ts raw) as [|d ds]; simpl.
  - rewrite Habs. simpl. by rewrite <- !app_assoc.
  - rewrite lookup_insert_eq. simpl. by rewrite <- !app_assoc.
Qed.

(** ** The trace only grows *)

Lemma extends_refl w : extends w w.
Proof. exists []. by rewrite app_nil_r. Qed.

Lemma extends_trans w1 w2 w3 : extends w1 w2 → extends w2 w3 → extends w1 w3.
Proof.
  intros [t1 H1] [t2 H2]. exists (t1 ++ t2). by rewrite H2, H1, app_assoc.
Qed.

Lemma extends_same_trace w w' : trace w' = trace w → extends w w'.
Proof. intros H. exists []. by rewrite app_nil_r. Qed.

Lemma grows_ret {A} (a : A) : grows (mret a).
Proof. intros w. apply extends_refl. Qed.

Lemma grows_raise {A} e : grows (@raise A e).
Proof. intros w. apply extends_refl. Qed.

Lemma grows_lift {A} (o : outcome A) : grows (lift o).
Proof. intros w. destruct o; apply extends_refl. Qed.

Lemma grows_bind {A B} (m : M A) (k : A → M B) :
  grows m → (∀ a, grows (k a)) → grows (m ≫= k).
Proof.
  intros Hm Hk w. unfold mbind, M_bind, bind.
  specialize (Hm w). destruct (m w) as [[a|e] w1]; simpl in *; [|done].
  eapply extends_trans; [done|apply Hk].
Qed.

Lemma grows_get_self : grows get_self.
Proof. intros w. apply extends_refl. Qed.

Lemma grows_put_self m : grows (put_self m).
Proof. intros w. by apply extends_same_trace. Qed.

Lemma grows_get_db : grows get_db.
Proof. intros w. apply extends_refl. Qed.

Lemma grows_put_db s : grows (put_db s).
Proof. intros w. by apply extends_same_trace. Qed.

Lemma grows_print line : grows (print line).
Proof. intros w. by apply extends_same_trace. Qed.

Lemma grows_emit e : grows (emit e).
Proof. intros w. by exists [e]. Qed.

Lemma grows_for_each {A} (xs : list A) (body : A → M unit) :
  (∀ x, grows (body x)) → grows (for_each xs body).
Proof.
  intros Hbody. induction xs as [|x xs IH]; simpl.
  - apply grows_ret.
  - apply grows_bind; [apply Hbody|by intros _].
Qed.

(** Proves [grows m] for a program built from the operations above. *)
Ltac grows :=
  repeat first
    [ apply grows_for_each; intros ?
    | apply grows_bind; [|intros ?]
    | apply grows_ret | apply grows_raise | apply grows_lift
    | apply grows_get_self | apply grows_put_self
    | apply grows_get_db | apply grows_put_db
    | apply grows_print | apply grows_emit
    | match goal with
      | |- grows (match ?x with _ => _ end) => destruct x
      end
    | progress unfold str_lower, chain_from_llm, Milvus.check_name ].

(** The trace is append-only: no operation removes or reorders the calls
    made before it, whatever it returns or raises. *)
Theorem operations_only_add_calls fp q use_rag :
  grows (insert_documents fp) ∧
  grows (delete_documents fp) ∧
  grows (update_documents fp) ∧
  grows (load_collection fp) ∧
  grows _drop_collection ∧
  grows (query_documents q use_rag).
Proof. do 5 (split; [grows|]). grows. Qed.

(** [load_collection] starts with the drop, for every path and whatever
    comes of the load. *)
Lemma load_collection_drops_first w name fp :
  collection_name_of (self w) = Some name →
  ∃ tl, trace (load_collection fp w).2 =
          trace w ++ drop_events (db w) name ++ tl.
Proof.
  intros Hn. unfold load_collection.
  erewrite bind_ret by (by apply drop_collection_run).
  match goal with
  | |- context [(?m (after_drop name w)).2] => assert (grows m) as Hg
  end.
  { grows. }
  destruct (Hg (after_drop name w)) as [tl Htl]. exists tl.
  by rewrite Htl, after_drop_trace, <- app_assoc.
Qed.

(** C4.  For every path, [load_collection] starts with the drop (it asks
    whether the collection exists and drops it when it does), whatever the
    state and whatever comes of the load.  On a manager configured for PDF
    and a path whose loader succeeds, the load and the batch insert of the
    chunks come only after the drop, and last the [Collection(name)] that
    fetches the handle.  The collection then holds exactly the chunks of
    the path: one row per chunk, in their order, each with the text, source,
    page and start index of its chunk and a primary key of its own, none of
    them handed out before.  With at least one chunk the call returns and
    the manager holds the handle and the vector store object, with none the
    last step raises because nothing was created. *)
Theorem load_collection_drops_then_inserts w name ca ts fp :
  Ready (self w) name ca ts →
  (∃ tl, trace (load_collection fp w).2 =
           trace w ++ drop_events (db w) name ++ tl) ∧
  (∀ raw,
     file_type_of (self w) = Some "pdf" →
     loaded fp = Some raw →
     ∃ r w',
       load_collection fp w = (r, w') ∧
       trace w' =
         trace w ++ drop_events (db w) name ++
           [load_event fp; ESplit (length raw);
            EFromDocuments name (split_documents ts raw)
              _get_search_params _get_index_params;
            ECollection name] ∧
       Milvus.rows_of (db w') name =
         Milvus.entries_from (next_pk (db w)) (split_documents ts raw) ∧
       documents_of (db w') name = split_documents ts raw ∧
       NoDup (pk <$> Milvus.rows_of (db w') name) ∧
       Forall (fun e => next_pk (db w) ≤ pk e) (Milvus.rows_of (db w') name) ∧
       (split_documents ts raw ≠ [] →
          r = Ret tt ∧
          collection (self w') = Some (mkCollectionHandle name) ∧
          vector_db (self w') = Some (store_object (self w) name ca)) ∧
       (split_documents ts raw = [] →
          r = Raise (MilvusException
                       ("Collection '" +:+ name +:+ "' not exist")) ∧
          collections (db w') !! name = None)).
Proof.
  intros Hr. split; [apply load_collection_drops_first, Hr|].
  intros raw Hft Hl.
  exists (load_result name (split_documents ts raw)), (reloaded name ca ts fp raw w).
  split; [by apply load_collection_run|].
  assert (Milvus.rows_of (db (reloaded name ca ts fp raw w)) name =
          Milvus.entries_from (next_pk (db w)) (split_documents ts raw))
    as Hrows.
  { simpl. rewrite rows_of_insert_batch, after_drop_next_pk.
    unfold Milvus.rows_of. by rewrite after_drop_absent. }
  split; [|split; [done|split; [|split; [|split; [|split]]]]].
  - simpl. rewrite after_drop_trace, <- !app_assoc. done.
  - unfold documents_of. rewrite Hrows. apply doc_of_entries_from.
  - rewrite Hrows. apply entries_from_NoDup.
  - rewrite Hrows. eapply Forall_impl; [apply entries_from_bounds|].
    intros e He. simpl in He. lia.
  - unfold load_result, reloaded.
    by destruct (split_documents ts raw).
  - intros Hnil. unfold load_result, reloaded. rewrite Hnil. simpl.
    split; [done|apply after_drop_absent].
Qed.

(** ** Querying *)

Lemma ensure_vector_db_run w name ca :
  collection_name_of (self w) = Some name →
  connection_args_of (self w) = Some ca →
  ensure_vector_db w = (Ret (query_object (self w) name ca), bound name ca w).
Proof.
  intros Hn Hca.
  unfold ensure_vector_db, bound, query_object, vector_db_events.
  run. destruct (vector_db (self w)) as [vs|] eqn:Hv.
  - rewrite app_nil_r. destruct w as [[] ? ? ?]. simpl in *. by subst.
  - rewrite (get_connection_args_run _ _ Hca).
    rewrite (config_getitem_collection_name _ _ Hn).
    unfold Milvus.Milvus, Milvus.check_name.
    rewrite (collection_name_valid _ _ Hn). by run.
Qed.

Lemma similarity_search_run vs q w :
  similarity_search vs q w =
    (search_result vs q (db w),
     mkWorld (self w) (db w) (stdout w)
       (trace w ++
          [ESimilaritySearch (vs_collection_name vs) q (vs_search_params vs)])).
Proof.
  unfold similarity_search. run. by destruct (search_result vs q (db w)).
Qed.

(** A similarity search returns what the store answers through the object the
    manager holds.  An object created by the query itself carries no search
    parameters, so the limit of [_get_search_params] is not in play: the
    number of hits is the store's own for such an object. *)
Lemma query_documents_search w name ca q :
  collection_name_of (self w) = Some name →
  connection_args_of (self w) = Some ca →
  ∃ w',
    query_documents q false w =
      (match search_result (query_object (self w) name ca) q (db w) with
       | Ret docs => Ret (Docs docs)
       | Raise e => Raise e
       end, w') ∧
    (vector_db (self w) = None →
       vs_search_params (query_object (self w) name ca) = None ∧
       trace w' = trace w ++ [EMilvus name; ESimilaritySearch name q None]).
Proof.
  intros Hn Hca. set (vs := query_object (self w) name ca).
  exists (mkWorld (self (bound name ca w)) (db w) (stdout w)
            (trace (bound name ca w) ++
               [ESimilaritySearch (vs_collection_name vs) q
                  (vs_search_params vs)])).
  split.
  - unfold query_documents.
    erewrite bind_ret by (by apply ensure_vector_db_run).
    fold vs. unfold mbind, M_bind, bind. rewrite similarity_search_run. simpl.
    by destruct (search_result vs q (db w)).
  - intros Hnone. unfold vs, query_object. simpl.
    unfold vector_db_events. rewrite Hnone. simpl.
    by rewrite <- app_assoc.
Qed.

(** X26.  A similarity search on a database without the collection
    returns no document and does not raise. *)
Lemma query_documents_no_collection w name ca q :
  collection_name_of (self w) = Some name →
  connection_args_of (self w) = Some ca →
  collections (db w) !! vs_collection_name (query_object (self w) name ca) = None →
  ∃ w', query_documents q false w = (Ret (Docs []), w').
Proof.
  intros Hn Hca Habs.
  destruct (query_documents_search w name ca q Hn Hca) as (w' & Hrun & _).
  exists w'. rewrite Hrun. unfold search_result. by rewrite Habs.
Qed.

Lemma lift_ret {A} (o : outcome A) a w : o = Ret a → lift o w = (Ret a, w).
Proof. by intros ->. Qed.

Lemma lift_raise {A} (o : outcome A) e w :
  o = Raise e → lift o w = (Raise e, w).
Proof. by intros ->. Qed.

(** The chain saves the turn to the memory it was given. *)
Lemma run_chain_appends vs memory q w a memory' w' :
  run_chain vs memory q w = (Ret (a, memory'), w') →
  memory' = memory ++ [(q, a)].
Proof.
  unfold run_chain.
  destruct memory as [|t memory].
  - erewrite bind_ret by reflexivity.
    unfold mbind, M_bind, bind. rewrite similarity_search_run.
    destruct (search_result vs q (db w)) as [docs|e]; [|done].
    unfold emit, lift. simpl.
    destruct (generate_answer [] docs q); simpl; [|done].
    by intros [= <- <- _].
  - unfold mbind, M_bind, bind, lift at 1.
    destruct (condense_question (t :: memory) q) as [q'|e]; simpl; [|done].
    rewrite similarity_search_run.
    destruct (search_result vs q' (db w)) as [docs|e]; [|done].
    unfold emit, lift. simpl.
    destruct (generate_answer (t :: memory) docs q'); simpl; [|done].
    by intros [= <- <- _].
Qed.

Lemma run_chain_empty vs q w docs :
  search_result vs q (db w) = Ret docs →
  run_chain vs [] q w =
    (match generate_answer [] docs q with
     | Ret a => Ret (a, [(q, a)])
     | Raise e => Raise e
     end, chained vs q w).
Proof.
  intros Hs. unfold run_chain, chained.
  erewrite bind_ret by reflexivity.
  erewrite bind_ret by (rewrite similarity_search_run, Hs; reflexivity).
  erewrite bind_ret by (unfold emit; reflexivity).
  unfold mbind, M_bind, bind, lift. simpl.
  destruct (generate_answer [] docs q); simpl; by rewrite <- app_assoc.
Qed.

(** One call of the chain on a history, when retrieval and the model
    succeed. *)
Lemma run_chain_run vs memory question question' docs a w :
  standalone memory question = Ret question' →
  search_result vs question' (db w) = Ret docs →
  generate_answer memory docs question' = Ret a →
  run_chain vs memory question w =
    (Ret (a, memory ++ [(question, a)]),
     mkWorld (self w) (db w) (stdout w)
       (trace w ++
          [ESimilaritySearch (vs_collection_name vs) question'
             (vs_search_params vs);
           EGenerate memory question'])).
Proof.
  intros Hq Hs Ha. unfold run_chain.
  erewrite bind_ret.
  2:{ destruct memory as [|t memory]; simpl in Hq.
      - injection Hq as <-. reflexivity.
      - apply lift_ret, Hq. }
  erewrite bind_ret by (rewrite similarity_search_run, Hs; reflexivity).
  erewrite bind_ret by (unfold emit; reflexivity).
  erewrite bind_ret by (apply lift_ret, Ha).
  simpl. by rewrite <- app_assoc.
Qed.

(** C8.  A query session is one call of [query_documents] in RAG mode.  The
    call creates the conversation memory, empty, and runs the chain on it
    once: when the manager has its model and the retrieval returns, the
    generative model is asked once, with the empty history and the query as
    it was given, and the answer returned is the model's; the chain leaves
    the history of the session with that one turn.  The history the chain
    keeps is append-only and is what the model is given: a call of the
    chain on a history hands the model that history, every earlier turn in
    its order, and leaves the history with the (question, answer) pair of
    the call added at its end. *)
Theorem conversational_history_appends w name ca q docs :
  collection_name_of (self w) = Some name →
  connection_args_of (self w) = Some ca →
  llm (self w) = true →
  let vs := query_object (self w) name ca in
  search_result vs q (db w) = Ret docs →
  (∃ r w',
     query_documents q true w = (r, w') ∧
     trace w' =
       trace w ++ vector_db_events (self w) name ++
         [ESimilaritySearch (vs_collection_name vs) q (vs_search_params vs);
          EGenerate [] q] ∧
     r = match generate_answer [] docs q with
         | Ret a => Ret (Answer a)
         | Raise e => Raise e
         end ∧
     run_chain vs [] q (bound name ca w) =
       (match generate_answer [] docs q with
        | Ret a => Ret (a, [(q, a)])
        | Raise e => Raise e
        end, w') ∧
     self w' = set_vector_db (Some vs) (self w)) ∧
  (∀ memory question question' docs' a u,
     standalone memory question = Ret question' →
     search_result vs question' (db u) = Ret docs' →
     generate_answer memory docs' question' = Ret a →
     ∃ u',
       run_chain vs memory question u =
         (Ret (a, memory ++ [(question, a)]), u') ∧
       trace u' =
         trace u ++
           [ESimilaritySearch (vs_collection_name vs) question'
              (vs_search_params vs);
            EGenerate memory question'] ∧
       db u' = db u ∧ self u' = self u).
Proof.
  intros Hn Hca Hllm vs Hs. split.
  - exists (match generate_answer [] docs q with
            | Ret a => Ret (Answer a)
            | Raise e => Raise e
            end),
           (chained vs q (bound name ca w)).
    split; [|split; [|split; [done|split; [|done]]]].
    + unfold query_documents.
      erewrite bind_ret by (by apply ensure_vector_db_run).
      fold vs.
      erewrite bind_ret by (unfold get_self; reflexivity).
      erewrite bind_ret by (simpl; rewrite Hllm; reflexivity).
      unfold mbind, M_bind, bind.
      rewrite (run_chain_empty _ _ _ docs) by done. simpl.
      by destruct (generate_answer [] docs q).
    + simpl. by rewrite <- !app_assoc.
    + by apply run_chain_empty.
  - intros memory question question' docs' a u Hq Hs' Ha.
    eexists. split; [by apply (run_chain_run _ _ _ question' docs')|done].
Qed.

(** ** Building the manager from the configuration file *)

Lemma load_config_run path text cfg w :
  read_text path = Some text → json_loads text = inr cfg →
  _load_config path w = (Ret cfg, w).
Proof. intros Hr Hj. unfold _load_config. by rewrite Hr, Hj. Qed.

Lemma setup_components_run d w :
  config (self w) = CDict d →
  components d →
  _setup_components w =
    _connect_milvus
      (mkWorld
         (mkManager (CDict d)
            (Some (default (PStr "all-mpnet-base-v2") (d !! "embedding_model")))
            true (vector_db (self w)) (collection (self w))
            (Some (mkTextSplitter (default (PInt 500) (d !! "chunk_size"))
                                  (default (PInt 20) (d !! "chunk_overlap")))))
         (db w) (stdout w) (trace w)).
Proof.
  intros Hc (He & Hl & Hs). unfold _setup_components.
  erewrite bind_ret by (by apply config_get_run).
  do 2 (erewrite bind_ret by (by apply lift_ret);
        erewrite bind_ret by (unfold get_self; reflexivity);
        erewrite bind_ret by (unfold put_self; reflexivity)).
  erewrite bind_ret by (by apply (config_get_run _ d)).
  erewrite bind_ret by (by apply (config_get_run _ d)).
  erewrite bind_ret by (by apply lift_ret).
  erewrite bind_ret by (unfold get_self; reflexivity).
  erewrite bind_ret by (unfold put_self; reflexivity).
  simpl. by rewrite Hc.
Qed.

Lemma components_or_unbuilt d : components d ∨ ∃ e, unbuilt d e.
Proof.
  unfold components, unbuilt. cbv zeta.
  destruct (HuggingFaceEmbeddings _) as [[]|e]; [|right; exists e; by left].
  destruct OpenAI as [[]|e]; [|right; exists e; right; by left].
  destruct (RecursiveCharacterTextSplitter _ _) as [[]|e];
    [by left|right; exists e; right; by right].
Qed.

Lemma unbuilt_not_components d e : unbuilt d e → components d → False.
Proof.
  intros Hun (He & Hl & Hs).
  destruct Hun as [H|[(_ & H)|(_ & _ & H)]]; congruence.
Qed.

(** A constructor that raises stops [_setup_components] before the
    connection. *)
Lemma setup_components_unbuilt d w e :
  config (self w) = CDict d →
  unbuilt d e →
  ∃ w', _setup_components w = (Raise e, w') ∧
        db w' = db w ∧ stdout w' = stdout w ∧ trace w' = trace w.
Proof.
  intros Hc Hun. unfold _setup_components.
  erewrite bind_ret by (by apply config_get_run).
  destruct Hun as [He|[(He & Hl)|(He & Hl & Hs)]].
  - erewrite bind_raise by (by apply lift_raise). by eexists.
  - erewrite bind_ret by (by apply lift_ret).
    erewrite bind_ret by (unfold get_self; reflexivity).
    erewrite bind_ret by (unfold put_self; reflexivity).
    erewrite bind_raise by (by apply lift_raise). by eexists.
  - do 2 (erewrite bind_ret by (by apply lift_ret);
          erewrite bind_ret by (unfold get_self; reflexivity);
          erewrite bind_ret by (unfold put_self; reflexivity)).
    erewrite bind_ret by (by apply (config_get_run _ d)).
    erewrite bind_ret by (by apply (config_get_run _ d)).
    erewrite bind_raise by (by apply lift_raise). by eexists.
Qed.

Lemma init_sets_up path text d w :
  read_text path = Some text → json_loads text = inr (CDict d) →
  __init__ path w =
    _setup_components
      (mkWorld (mkManager (CDict d) None false None None None)
         (db w) (stdout w) (trace w)).
Proof.
  intros Hr Hj. unfold __init__.
  erewrite bind_ret by (by eapply load_config_run).
  by erewrite bind_ret by (unfold put_self; reflexivity).
Qed.

(** With the components built, [__init__] is the connection made from the
    manager that holds them. *)
Lemma init_connects path text d w :
  read_text path = Some text → json_loads text = inr (CDict d) →
  components d →
  __init__ path w =
    _connect_milvus (mkWorld (configured d) (db w) (stdout w) (trace w)).
Proof.
  intros Hr Hj Hcomp. rewrite (init_sets_up _ text d) by done.
  by rewrite (setup_components_run d).
Qed.

Lemma connect_milvus_run d host port w :
  config (self w) = CDict d →
  d !! "docker_host" = Some host → d !! "docker_port" = Some port →
  _connect_milvus w =
    match connect host port with
    | Ret _ =>
        (Ret tt,
         mkWorld (self w) (db w)
           (stdout w ++
              ["Connected to Milvus at " +:+ py_str host +:+ ":"
               +:+ py_str port;
               "Server version: " +:+ server_version])
           (trace w ++ [EConnect host port]))
    | Raise e =>
        (Raise e,
         mkWorld (self w) (db w) (stdout w) (trace w ++ [EConnect host port]))
    end.
Proof.
  intros Hc Hh Hp. unfold _connect_milvus.
  erewrite bind_ret by (by eapply config_getitem_run).
  erewrite bind_ret by (by eapply config_getitem_run).
  erewrite bind_ret by (unfold emit; reflexivity).
  destruct (connect host port) as [[]|e].
  - erewrite bind_ret by reflexivity. run. by rewrite <- app_assoc.
  - by erewrite bind_raise by reflexivity.
Qed.

(** The file type is read where documents are loaded, with ['pdf'] for a
    configuration that gives none: a file is then handed to the PDF
    loader. *)
Lemma load_documents_default_type d w ts fp raw :
  config (self w) = CDict d →
  d !! "file_type" = None →
  text_splitter (self w) = Some ts →
  isfile fp = true → pdf_load fp = Ret raw →
  _load_documents fp w =
    (Ret (split_documents ts raw),
     mkWorld (self w) (db w) (stdout w)
       (trace w ++ [EPdfLoad fp; ESplit (length raw)])).
Proof.
  intros Hc Hft Hts Hf Hl. unfold _load_documents.
  erewrite bind_ret by (by apply config_get_run).
  rewrite Hft. simpl. erewrite bind_ret by reflexivity.
  rewrite Hf. simpl.
  erewrite bind_ret by (unfold emit; reflexivity).
  erewrite bind_ret by (by apply lift_ret).
  unfold split. run. rewrite Hts. simpl. by rewrite <- app_assoc.
Qed.

(** C9, as the code has it.  [MilvusRAGManager(path)] raises
    [FileNotFoundError] when the file is missing and [ValueError] when it
    is not JSON.  For a configuration that is a dict it builds the
    embedding model, the model client and the text splitter, in this order,
    and the first of them that raises ends it, before any connection.  With
    the components built it reads the host and the port and raises
    [KeyError], still before connecting, when one is missing; with both
    present it connects, raises what the connection raises, and returns
    when the connection is made.  The manager then holds the embedding
    model name (['all-mpnet-base-v2'] when absent) and a splitter with the
    chunk size (500 when absent) and the overlap (20 when absent).  The
    file type is not read here but by [_load_documents], where an absent
    one reads as ['pdf']: a file is handed to the PDF loader.  The
    collection name is not read here either: a configuration without it is
    accepted, and the [KeyError] comes from the operation that first reads
    it. *)
Theorem init_outcomes w path :
  (read_text path = None →
     __init__ path w =
       (Raise (FileNotFoundError ("Config file not found: " +:+ path)), w)) ∧
  (∀ text e, read_text path = Some text → json_loads text = inl e →
     __init__ path w =
       (Raise (ValueError ("Invalid JSON in config file: " +:+ e)), w)) ∧
  (∀ text d, read_text path = Some text → json_loads text = inr (CDict d) →
     (∀ e, unbuilt d e →
        ∃ w', __init__ path w = (Raise e, w') ∧ trace w' = trace w) ∧
     (components d →
        (d !! "docker_host" = None ∨ d !! "docker_port" = None →
           ∃ key w', __init__ path w = (Raise (KeyError key), w') ∧
                     trace w' = trace w) ∧
        (∀ host port,
           d !! "docker_host" = Some host → d !! "docker_port" = Some port →
           (∀ e, connect host port = Raise e →
              ∃ w', __init__ path w = (Raise e, w') ∧ db w' = db w) ∧
           (connect host port = Ret tt →
              ∃ w', __init__ path w = (Ret tt, w') ∧
                    self w' = configured d ∧
                    db w' = db w ∧
                    trace w' = trace w ++ [EConnect host port] ∧
                    (d !! "embedding_model" = None →
                       embeddings (self w') = Some (PStr "all-mpnet-base-v2")) ∧
                    (d !! "chunk_size" = None → d !! "chunk_overlap" = None →
                       text_splitter (self w') =
                         Some (mkTextSplitter (PInt 500) (PInt 20))) ∧
                    (d !! "file_type" = None →
                       ∀ ts fp raw,
                         text_splitter (self w') = Some ts →
                         isfile fp = true → pdf_load fp = Ret raw →
                         _load_documents fp w' =
                           (Ret (split_documents ts raw),
                            mkWorld (self w') (db w') (stdout w')
                              (trace w' ++ [EPdfLoad fp; ESplit (length raw)]))) ∧
                    (d !! "collection_name" = None →
                       ∃ w'', _drop_collection w' =
                                (Raise (KeyError "collection_name"), w'')))))).
Proof.
  split; [|split].
  - intros Hr. unfold __init__, _load_config. run. by rewrite Hr.
  - intros text e Hr Hj. unfold __init__, _load_config. run. by rewrite Hr, Hj.
  - intros text d Hr Hj. split.
    { intros e Hun. rewrite (init_sets_up _ text d) by done.
      destruct (setup_components_unbuilt d
                  (mkWorld (mkManager (CDict d) None false None None None)
                     (db w) (stdout w) (trace w)) e eq_refl Hun)
        as (w' & Hrun & _ & _ & Htrace).
      by exists w'. }
    intros Hcomp. rewrite (init_connects _ text d) by done.
    set (w0 := mkWorld (configured d) (db w) (stdout w) (trace w)).
    split.
    + intros Hmiss. unfold _connect_milvus.
      destruct (d !! "docker_host") as [host|] eqn:Hh.
      * destruct Hmiss as [|Hp]; [done|].
        erewrite bind_ret by (by eapply config_getitem_run).
        erewrite bind_raise by (by eapply config_getitem_missing).
        by eexists _, _.
      * erewrite bind_raise by (by eapply config_getitem_missing).
        by eexists _, _.
    + intros host port Hh Hp.
      rewrite (connect_milvus_run d host port w0) by done.
      split.
      * intros e ->. by eexists.
      * intros ->. eexists. split; [reflexivity|]. simpl.
        do 3 (split; [done|]).
        split; [by intros ->|].
        split; [by intros -> ->|].
        split.
        -- intros Hft ts fp raw Hts Hf Hl.
           by apply (load_documents_default_type d).
        -- intros Hcn. eexists. unfold _drop_collection.
           erewrite bind_raise by (by eapply config_getitem_missing).
           reflexivity.
Qed.

(** ** Every operation keeps the primary keys unique *)

Lemma keeps_same_db {A} (m : M A) :
  (∀ w, db (m w).2 = db w) → keeps m.
Proof. intros H w Hwf. by rewrite H. Qed.

Lemma keeps_ret {A} (a : A) : keeps (mret a).
Proof. by apply keeps_same_db. Qed.

Lemma keeps_raise {A} e : keeps (@raise A e).
Proof. by apply keeps_same_db. Qed.

Lemma keeps_lift {A} (o : outcome A) : keeps (lift o).
Proof. apply keeps_same_db. intros w. by destruct o. Qed.

Lemma keeps_get_self : keeps get_self.
Proof. by apply keeps_same_db. Qed.

Lemma keeps_put_self m : keeps (put_self m).
Proof. by apply keeps_same_db. Qed.

Lemma keeps_print line : keeps (print line).
Proof. by apply keeps_same_db. Qed.

Lemma keeps_emit e : keeps (emit e).
Proof. by apply keeps_same_db. Qed.

Lemma keeps_bind {A B} (m : M A) (k : A → M B) :
  keeps m → (∀ a, keeps (k a)) → keeps (m ≫= k).
Proof.
  intros Hm Hk w Hwf. unfold mbind, M_bind, bind.
  specialize (Hm w Hwf). destruct (m w) as [[a|e] w1]; simpl in *; [|done].
  by apply Hk.
Qed.

Lemma keeps_drop_collection name : keeps (Milvus.drop_collection name).
Proof.
  intros w Hwf. unfold Milvus.drop_collection, Milvus.check_name.
  destruct name as [| | |s|]; try done.
  destruct (valid_name s); [|done]. run. by apply store_wf_drop.
Qed.

Lemma keeps_delete c expr : keeps (Milvus.delete c expr).
Proof.
  intros w Hwf. unfold Milvus.delete. run.
  destruct (collections (db w) !! ch_name c) as [rows|] eqn:Hrows; [|done].
  destruct (Milvus.eval_expr expr) as [p|]; [|done].
  simpl. by apply store_wf_filter.
Qed.

Lemma keeps_from_documents docs emb ca name sp ip :
  keeps (Milvus.from_documents docs emb ca name sp ip).
Proof.
  intros w Hwf. unfold Milvus.from_documents, Milvus.check_name.
  destruct name as [| | |s|]; try done.
  destruct (valid_name s); [|done]. run. destruct emb; [|done].
  simpl. by apply store_wf_insert_batch.
Qed.

Lemma keeps_for_each {A} (xs : list A) (body : A → M unit) :
  (∀ x, keeps (body x)) → keeps (for_each xs body).
Proof.
  intros Hbody. induction xs as [|x xs IH]; simpl.
  - apply keeps_ret.
  - apply keeps_bind; [apply Hbody|by intros _].
Qed.

(** Proves [keeps m] for a program built from the operations above. *)
Ltac keeps :=
  repeat first
    [ apply keeps_drop_collection | apply keeps_delete
    | apply keeps_from_documents
    | apply keeps_for_each; intros ?
    | apply keeps_bind; [|intros ?]
    | apply keeps_ret | apply keeps_raise | apply keeps_lift
    | apply keeps_get_self | apply keeps_put_self
    | apply keeps_print | apply keeps_emit
    | by apply keeps_same_db
    | match goal with
      | |- keeps (match ?x with _ => _ end) => destruct x
      end
    | progress unfold str_lower, chain_from_llm, Milvus.check_name ].

(** X25.  Unique primary keys are an invariant of the manager: run on a
    database where, within every collection, the primary keys are unique
    and below the next one the store hands out, no operation breaks that,
    whatever it returns or raises. *)
Theorem operations_keep_primary_keys_unique fp q use_rag :
  keeps (insert_documents fp) ∧
  keeps (delete_documents fp) ∧
  keeps (update_documents fp) ∧
  keeps (load_collection fp) ∧
  keeps _drop_collection ∧
  keeps (query_documents q use_rag).
Proof. do 5 (split; [keeps|]). keeps. Qed.

(** ** What an operation may do to the database *)

Section Steps.

Context (rel : relation Store) `{!PreOrder rel}.

Lemma steps_same_db {A} (m : M A) :
  (∀ w, db (m w).2 = db w) → steps rel m.
Proof. intros H w. by rewrite H. Qed.

Lemma steps_ret {A} (a : A) : steps rel (mret a).
Proof. by apply steps_same_db. Qed.

Lemma steps_raise {A} e : steps rel (@raise A e).
Proof. by apply steps_same_db. Qed.

Lemma steps_lift {A} (o : outcome A) : steps rel (lift o).
Proof. apply steps_same_db. intros w. by destruct o. Qed.

Lemma steps_get_self : steps rel get_self.
Proof. by apply steps_same_db. Qed.

Lemma steps_put_self m : steps rel (put_self m).
Proof. by apply steps_same_db. Qed.

Lemma steps_get_db : steps rel get_db.
Proof. by apply steps_same_db. Qed.

Lemma steps_print line : steps rel (print line).
Proof. by apply steps_same_db. Qed.

Lemma steps_emit e : steps rel (emit e).
Proof. by apply steps_same_db. Qed.

Lemma steps_bind {A B} (m : M A) (k : A → M B) :
  steps rel m → (∀ a, steps rel (k a)) → steps rel (m ≫= k).
Proof.
  intros Hm Hk w. unfold mbind, M_bind, bind.
  specialize (Hm w). destruct (m w) as [[a|e] w1]; simpl in *; [|done].
  etrans; [done|apply Hk].
Qed.

Lemma steps_for_each {A} (xs : list A) (body : A → M unit) :
  (∀ x, steps rel (body x)) → steps rel (for_each xs body).
Proof.
  intros Hbody. induction xs as [|x xs IH]; simpl.
  - apply steps_ret.
  - apply steps_bind; [apply Hbody|by intros _].
Qed.

End Steps.

(** Proves [steps rel m] for a program built from the operations above and
    those [tac] knows. *)
Ltac steps_with tac :=
  first
    [ tac
    | lazymatch goal with
      | |- steps _ (_ ≫= _) =>
          apply steps_bind; [apply _|steps_with tac|intros ?; steps_with tac]
      | |- steps _ (for_each _ _) =>
          apply steps_for_each; [apply _|intros ?; steps_with tac]
      | |- steps _ (mret _) => apply steps_ret; apply _
      | |- steps _ (ret _) => apply steps_ret; apply _
      | |- steps _ (raise _) => apply steps_raise; apply _
      | |- steps _ (lift _) => apply steps_lift; apply _
      | |- steps _ get_self => apply steps_get_self; apply _
      | |- steps _ (put_self _) => apply steps_put_self; apply _
      | |- steps _ get_db => apply steps_get_db; apply _
      | |- steps _ (print _) => apply steps_print; apply _
      | |- steps _ (emit _) => apply steps_emit; apply _
      | |- steps _ (let _ := _ in _) => cbv zeta; steps_with tac
      | |- steps _ (match ?x with _ => _ end) => destruct x; steps_with tac
      | |- _ =>
          progress unfold str_lower, chain_from_llm, Milvus.check_name,
            Milvus.has_collection, Milvus.Collection, Milvus.query,
            Milvus.Milvus, config_getitem, config_get, _load_config,
            _connect_milvus, _setup_components, __init__,
            _create_collection_if_not_exists, _get_connection_args, split,
            _load_documents, insert_documents, ensure_collection,
            delete_documents, _check_file_exists, update_documents,
            ensure_vector_db, similarity_search, run_chain, query_documents,
            _drop_collection, load_collection, list_collections, get_stats,
            get_collection_stats, sys_exit, main_body;
          steps_with tac
      end ].

Ltac steps := steps_with fail.

Lemma reads_query_documents q use_rag : steps eq (query_documents q use_rag).
Proof. steps. Qed.

Lemma reads_check_file_exists fp : steps eq (_check_file_exists fp).
Proof. steps. Qed.

Lemma reads_create_collection : steps eq _create_collection_if_not_exists.
Proof. steps. Qed.

Lemma reads_init path : steps eq (__init__ path).
Proof. steps. Qed.

Context `{R : Reporting}.

Lemma reads_list_collections : steps eq list_collections.
Proof. steps. Qed.

Lemma reads_get_collection_stats : steps eq get_collection_stats.
Proof. steps. Qed.

(** What the body of [main] does to the database, [main] does. *)
Lemma steps_main (rel : relation Store) args :
  steps rel (main_body args) → ∀ w, rel (db w) (db (main args w).2).
Proof.
  intros H w. specialize (H w). unfold main.
  by destruct (main_body args w) as [[[code|]|e] w'].
Qed.

(** X1.  Looking things up changes nothing in the database, whatever is
    returned or raised: a query in either mode, the check for rows of a
    source, the check for the collection, the listing, the statistics,
    building the manager, and the command line run with [--operation
    query]. *)
Theorem lookups_leave_database_unchanged w q use_rag fp path cfg file_path qa :
  db (query_documents q use_rag w).2 = db w ∧
  db (_check_file_exists fp w).2 = db w ∧
  db (_create_collection_if_not_exists w).2 = db w ∧
  db (list_collections w).2 = db w ∧
  db (get_collection_stats w).2 = db w ∧
  db (__init__ path w).2 = db w ∧
  db (main (mkArgs cfg OpQuery file_path qa use_rag) w).2 = db w.
Proof.
  split; [symmetry; apply reads_query_documents|].
  split; [symmetry; apply reads_check_file_exists|].
  split; [symmetry; apply reads_create_collection|].
  split; [symmetry; apply reads_list_collections|].
  split; [symmetry; apply reads_get_collection_stats|].
  split; [symmetry; apply reads_init|].
  symmetry. apply (steps_main eq). unfold main_body. cbn [arg_operation].
  steps.
Qed.

(** *** Inserting only appends *)

#[local] Instance appended_preorder : PreOrder appended.
Proof.
  split.
  - intros s. split; [|lia]. intros n rows Hn. exists []. by rewrite app_nil_r.
  - intros s1 s2 s3 [H12 Hk12] [H23 Hk23]. split; [|lia].
    intros n rows Hn. destruct (H12 n rows Hn) as [more Hm].
    destruct (H23 n _ Hm) as [more' Hm']. exists (more ++ more').
    by rewrite app_assoc.
Qed.

Lemma appended_insert_batch name docs s :
  appended s (Milvus.insert_batch name docs s).
Proof.
  destruct docs as [|d docs]; [reflexivity|].
  unfold Milvus.insert_batch, Milvus.add_documents, Milvus.rows_of.
  split; cbn [collections next_pk]; [|lia].
  intros n rows Hn. destruct (decide (name = n)) as [->|Hne].
  - rewrite lookup_insert_eq, Hn. eauto.
  - rewrite lookup_insert_ne by done. exists []. by rewrite app_nil_r.
Qed.

Lemma appends_from_documents docs emb ca name sp ip :
  steps appended (Milvus.from_documents docs emb ca name sp ip).
Proof.
  intros w. unfold Milvus.from_documents, Milvus.check_name.
  destruct name as [| | |s|]; try reflexivity.
  destruct (valid_name s); [|reflexivity].
  run. destruct emb; [|reflexivity].
  simpl. apply appended_insert_batch.
Qed.

Ltac appends_leaf :=
  idtac;
  lazymatch goal with
  | |- steps _ (Milvus.from_documents _ _ _ _ _ _) =>
      apply appends_from_documents
  end.

Lemma appends_insert_documents fp : steps appended (insert_documents fp).
Proof. steps_with ltac:(appends_leaf). Qed.

(** X2.  [insert_documents] only appends, whatever it returns or raises:
    every collection is still there with the rows it had, in their order,
    and possibly more after them, and the next primary key has not gone
    back.  The same holds of the command line run with [--operation
    insert], whatever its exit status. *)
Theorem insert_documents_only_appends w fp cfg file_path qa use_rag :
  appended (db w) (db (insert_documents fp w).2) ∧
  appended (db w) (db (main (mkArgs cfg OpInsert file_path qa use_rag) w).2).
Proof.
  split; [apply appends_insert_documents|].
  apply (steps_main appended). unfold main_body. cbn [arg_operation].
  steps_with ltac:(appends_leaf).
Qed.

(** *** Deleting only removes *)

Lemma sublist_filter_entries (f : Entry → bool) rows :
  sublist (List.filter f rows) rows.
Proof.
  induction rows as [|e rows IH]; simpl; [constructor|].
  destruct (f e); by constructor.
Qed.

#[local] Instance thinned_preorder : PreOrder thinned.
Proof.
  split.
  - intros s. by repeat split.
  - intros s1 s2 s3 (Hd12 & Hr12 & Hk12) (Hd23 & Hr23 & Hk23).
    split; [|split].
    + intros n. by rewrite Hd23.
    + intros n. etrans; [apply Hr23|apply Hr12].
    + congruence.
Qed.

Lemma thins_delete c expr : steps thinned (Milvus.delete c expr).
Proof.
  intros w. unfold Milvus.delete. run.
  destruct (collections (db w) !! ch_name c) as [rows|] eqn:Hrows;
    [|reflexivity].
  destruct (Milvus.eval_expr expr) as [p|]; [|reflexivity].
  simpl. split; [|split; [|done]]; intros n; unfold Milvus.rows_of; simpl.
  - destruct (decide (ch_name c = n)) as [<-|Hne].
    + rewrite lookup_insert_eq, Hrows. by split.
    + by rewrite lookup_insert_ne.
  - destruct (decide (ch_name c = n)) as [<-|Hne].
    + rewrite lookup_insert_eq, Hrows. apply sublist_filter_entries.
    + by rewrite lookup_insert_ne.
Qed.

Ltac thins_leaf :=
  idtac;
  lazymatch goal with
  | |- steps _ (Milvus.delete _ _) => apply thins_delete
  end.

Lemma thins_delete_documents fp : steps thinned (delete_documents fp).
Proof. steps_with ltac:(thins_leaf). Qed.

(** X3.  [delete_documents] only removes rows, whatever it returns or
    raises: the collections are the same ones, each holds some of the rows
    it had, in their order, and the next primary key is unchanged.  The same
    holds of the command line run with [--operation delete], whatever its
    exit status. *)
Theorem delete_documents_only_removes w fp cfg file_path qa use_rag :
  thinned (db w) (db (delete_documents fp w).2) ∧
  thinned (db w) (db (main (mkArgs cfg OpDelete file_path qa use_rag) w).2).
Proof.
  split; [apply thins_delete_documents|].
  apply (steps_main thinned). unfold main_body. cbn [arg_operation].
  steps_with ltac:(thins_leaf).
Qed.

(** ** Deleting twice, and deleting what was inserted *)

Lemma hits_without_hits fp rows :
  hits fp (without_pks (pk <$> hits fp rows) rows) = [].
Proof.
  apply length_zero_iff_nil. apply (count_source_without_hits fp rows).
Qed.

Lemma deleted_lookup name fp rows w :
  collections (db w) !! name = Some rows →
  collections (db (deleted name fp rows w)) !! name =
    Some (without_pks (pk <$> hits fp rows) rows).
Proof.
  intros Hrows. unfold deleted.
  destruct (hits fp rows) as [|e es]; simpl; [done|].
  rewrite lookup_insert_eq. by rewrite <- list_fmap_compose.
Qed.

Lemma deleted_self name fp rows w :
  self (deleted name fp rows w) = self (acquired name w).
Proof. unfold deleted. by destruct (hits fp rows). Qed.

Lemma deleted_no_hits name fp rows w :
  hits fp rows = [] →
  deleted name fp rows w =
    mkWorld (self (acquired name w)) (db w)
      (stdout w ++ ["No documents found for file: " +:+ fp])
      (trace w ++ acquire_events (self w) name ++
         [EQuery name (source_expr fp)]).
Proof. intros Hh. unfold deleted. rewrite Hh. simpl. by rewrite <- app_assoc. Qed.

(** X4.  On a collection that exists, for a path free of quotes and
    backslashes: a second [delete_documents] right after the first finds
    nothing.  It makes the one lookup, leaves the database as the first call
    left it and prints that no documents were found. *)
Theorem delete_documents_twice w name rows fp :
  collection_name_of (self w) = Some name →
  handle_on (self w) name →
  collections (db w) !! name = Some rows →
  plain fp →
  ∃ w1 w2,
    delete_documents fp w = (Ret tt, w1) ∧
    delete_documents fp w1 = (Ret tt, w2) ∧
    db w2 = db w1 ∧
    stdout w2 = stdout w1 ++ ["No documents found for file: " +:+ fp] ∧
    trace w2 = trace w1 ++ [EQuery name (source_expr fp)].
Proof.
  intros Hn Hh Hrows Hp.
  set (w1 := deleted name fp rows w).
  set (rows1 := without_pks (pk <$> hits fp rows) rows).
  exists w1, (deleted name fp rows1 w1).
  split; [by apply delete_documents_run|].
  split.
  { apply delete_documents_run; [| |by apply deleted_lookup|done].
    - unfold w1. by rewrite deleted_self.
    - unfold w1. rewrite deleted_self. apply handle_on_acquired. }
  rewrite deleted_no_hits by apply hits_without_hits.
  simpl. unfold acquire_events, w1. rewrite deleted_self. simpl.
  done.
Qed.

Lemma lookup_insert_batch name docs s rows :
  collections s !! name = Some rows →
  collections (Milvus.insert_batch name docs s) !! name =
    Some (rows ++ Milvus.entries_from (next_pk s) docs).
Proof.
  intros Hrows. destruct docs as [|d docs]; simpl.
  - by rewrite app_nil_r.
  - unfold Milvus.rows_of. by rewrite lookup_insert_eq, Hrows.
Qed.

Lemma next_pk_insert_batch name docs s :
  next_pk (Milvus.insert_batch name docs s) =
  next_pk s + Z.of_nat (length docs).
Proof. destruct docs; simpl; lia. Qed.

Lemma collections_insert_batch name docs s rows :
  collections s !! name = Some rows →
  collections (Milvus.insert_batch name docs s) =
    <[name := rows ++ Milvus.entries_from (next_pk s) docs]> (collections s).
Proof.
  intros Hrows. destruct docs as [|d docs]; simpl.
  - by rewrite app_nil_r, insert_id.
  - unfold Milvus.rows_of. by rewrite Hrows.
Qed.

Lemma filter_other_sources_id fp rows :
  hits fp rows = [] →
  List.filter (fun e => negb (String.eqb (e_source e) fp)) rows = rows.
Proof.
  unfold hits. induction rows as [|e rows IH]; simpl; [done|].
  destruct (String.eqb (e_source e) fp); simpl; [done|].
  intros Hh. by rewrite IH.
Qed.

Lemma filter_other_sources_entries_from fp k docs :
  Forall (fun d => doc_source d = fp) docs →
  List.filter (fun e => negb (String.eqb (e_source e) fp))
    (Milvus.entries_from k docs) = [].
Proof.
  intros Hall. revert k. induction Hall as [|d docs Hd _ IH]; intros k; [done|].
  simpl. rewrite Hd, String.eqb_refl. simpl. apply IH.
Qed.

Lemma hits_filter_other_sources fp rows :
  hits fp (List.filter (fun e => negb (String.eqb (e_source e) fp)) rows) = [].
Proof.
  unfold hits. rewrite filter_filter_entries.
  induction rows as [|e rows IH]; simpl; [done|].
  by destruct (String.eqb (e_source e) fp).
Qed.

Lemma store_wf_lookup s name rows :
  store_wf s → collections s !! name = Some rows → NoDup (pk <$> rows).
Proof. intros Hwf Hrows. by destruct (Hwf name rows Hrows). Qed.

Lemma Ready_acquired name' w name ca ts :
  Ready (self w) name ca ts → Ready (self (acquired name' w)) name ca ts.
Proof. done. Qed.

(** X5.  Deleting undoes an insert, except for the primary keys.  For a
    path free of quotes and backslashes, on a database with unique primary
    keys whose collection is there and holds no row of the path, with a
    loader that tags every chunk with the path:
    [insert_documents] and then [delete_documents] of the same path both
    return and leave every collection with the rows it had; the keys handed
    to the chunks are spent, the next one is past them. *)
Theorem insert_then_delete_restores w name ca ts fp raw rows :
  Ready (self w) name ca ts →
  handle_on (self w) name →
  file_type_of (self w) = Some "pdf" →
  loaded fp = Some raw →
  Forall (fun d => doc_source d = fp) (split_documents ts raw) →
  collections (db w) !! name = Some rows →
  hits fp rows = [] →
  store_wf (db w) →
  plain fp →
  ∃ w1 w2,
    insert_documents fp w = (Ret tt, w1) ∧
    delete_documents fp w1 = (Ret tt, w2) ∧
    collections (db w2) = collections (db w) ∧
    next_pk (db w2) =
      next_pk (db w) + Z.of_nat (length (split_documents ts raw)).
Proof.
  intros Hr Hh Hft Hl Hall Hrows Hnone Hwf Hp.
  set (docs := split_documents ts raw) in *.
  set (w1 := inserted name ca ts fp raw w).
  set (rows1 := rows ++ Milvus.entries_from (next_pk (db w)) docs).
  assert (collections (db w1) !! name = Some rows1) as Hrows1
    by (by apply lookup_insert_batch).
  assert (NoDup (pk <$> rows1)) as Hnd.
  { apply (store_wf_lookup (db w1) name); [|done].
    by apply store_wf_insert_batch. }
  assert (without_pks (pk <$> hits fp rows1) rows1 = rows) as Hleft.
  { rewrite without_hits_unique by done. unfold rows1.
    rewrite List.filter_app, filter_other_sources_id by done.
    rewrite filter_other_sources_entries_from by done. apply app_nil_r. }
  exists w1, (deleted name fp rows1 w1).
  split; [by apply insert_documents_run|].
  split.
  { apply delete_documents_run; [apply Hr|done..]. }
  split.
  - apply map_eq. intros n. destruct (decide (n = name)) as [->|Hne].
    + rewrite deleted_lookup by done. by rewrite Hleft.
    + unfold deleted. simpl.
      destruct (row_of_entry <$> hits fp rows1); simpl.
      * rewrite (collections_insert_batch _ _ _ rows) by done.
        by rewrite lookup_insert_ne.
      * rewrite lookup_insert_ne by done.
        rewrite (collections_insert_batch _ _ _ rows) by done.
        by rewrite lookup_insert_ne.
  - unfold deleted.
    destruct (row_of_entry <$> hits fp rows1); simpl;
      apply next_pk_insert_batch.
Qed.

(** ** Updating twice *)

Lemma cleared_lookup name fp rows w :
  collections (db w) !! name = Some rows →
  collections (db (cleared name fp rows w)) !! name =
    Some (without_pks (pk <$> hits fp rows) rows).
Proof.
  intros Hrows. unfold cleared.
  destruct (hits fp rows) as [|e es] eqn:Hh.
  - simpl. by rewrite Hrows.
  - rewrite deleted_lookup by done. by rewrite Hh.
Qed.

Lemma keeps_update_documents fp : keeps (update_documents fp).
Proof. keeps. Qed.

(** The world after a successful [update_documents]. *)
Lemma update_documents_run w name ca ts fp raw rows :
  Ready (self w) name ca ts →
  handle_on (self w) name →
  file_type_of (self w) = Some "pdf" →
  loaded fp = Some raw →
  collections (db w) !! name = Some rows →
  plain fp →
  update_documents fp w =
    (Ret tt, inserted name ca ts fp raw (cleared name fp rows w)).
Proof.
  intros Hr Hh Hft Hl Hrows Hp.
  rewrite (update_clears _ name rows) by (done || apply Hr).
  apply insert_documents_run; [|by rewrite cleared_self|done].
  by rewrite cleared_self.
Qed.

Lemma inserted_cleared_self name ca ts fp raw rows w :
  self (inserted name ca ts fp raw (cleared name fp rows w)) =
    set_vector_db (Some (store_object (self (acquired name w)) name ca))
      (self (acquired name w)).
Proof. simpl. by rewrite cleared_self. Qed.

(** X6.  Updating twice gives the documents of updating once.  For a path
    free of quotes and backslashes, on a collection that exists in a
    database with unique primary keys, with a loader that succeeds and tags
    every chunk with the path: two calls of [update_documents] in a row
    both return, and after each the collection holds the rows of the other
    sources followed by the chunks of the path.  The chunks of the second
    call are new rows, with primary keys past those of the first. *)
Theorem update_documents_twice w name ca ts fp raw rows :
  Ready (self w) name ca ts →
  handle_on (self w) name →
  file_type_of (self w) = Some "pdf" →
  loaded fp = Some raw →
  Forall (fun d => doc_source d = fp) (split_documents ts raw) →
  collections (db w) !! name = Some rows →
  store_wf (db w) →
  plain fp →
  let others :=
    List.filter (fun e => negb (String.eqb (e_source e) fp)) rows in
  ∃ w1 w2,
    update_documents fp w = (Ret tt, w1) ∧
    update_documents fp w1 = (Ret tt, w2) ∧
    Milvus.rows_of (db w1) name =
      others ++ Milvus.entries_from (next_pk (db w)) (split_documents ts raw) ∧
    Milvus.rows_of (db w2) name =
      others ++ Milvus.entries_from
                  (next_pk (db w) + Z.of_nat (length (split_documents ts raw)))
                  (split_documents ts raw) ∧
    documents_of (db w2) name = documents_of (db w1) name.
Proof.
  intros Hr Hh Hft Hl Hall Hrows Hwf Hp others.
  set (docs := split_documents ts raw) in *.
  set (w1 := inserted name ca ts fp raw (cleared name fp rows w)).
  set (rows1 := others ++ Milvus.entries_from (next_pk (db w)) docs).
  assert (update_documents fp w = (Ret tt, w1)) as Hrun1
    by (by apply update_documents_run).
  assert (without_pks (pk <$> hits fp rows) rows = others) as Hleft
    by (apply without_hits_unique; by apply (store_wf_lookup (db w) name)).
  assert (collections (db w1) !! name = Some rows1) as Hrows1.
  { unfold w1, rows1. simpl.
    erewrite lookup_insert_batch by (by apply cleared_lookup).
    by rewrite Hleft, cleared_next_pk. }
  assert (store_wf (db w1)) as Hwf1.
  { pose proof (keeps_update_documents fp w Hwf) as Hk.
    by rewrite Hrun1 in Hk. }
  assert (without_pks (pk <$> hits fp rows1) rows1 = others) as Hleft1.
  { rewrite without_hits_unique by (by apply (store_wf_lookup (db w1) name)).
    unfold rows1. rewrite List.filter_app.
    rewrite filter_other_sources_entries_from by done.
    rewrite app_nil_r. apply filter_other_sources_id.
    apply hits_filter_other_sources. }
  assert (next_pk (db w1) = next_pk (db w) + Z.of_nat (length docs)) as Hk1.
  { unfold w1. simpl. by rewrite next_pk_insert_batch, cleared_next_pk. }
  exists w1, (inserted name ca ts fp raw (cleared name fp rows1 w1)).
  split; [done|].
  split.
  { apply update_documents_run; try done;
      unfold w1; rewrite inserted_cleared_self; [done| |done].
    intros c. simpl. by intros [= <-]. }
  assert (Milvus.rows_of
            (db (inserted name ca ts fp raw (cleared name fp rows1 w1))) name =
          others ++ Milvus.entries_from (next_pk (db w) + Z.of_nat (length docs))
                      docs) as Hrows2.
  { simpl. rewrite rows_of_insert_batch, cleared_rows by done.
    by rewrite Hleft1, cleared_next_pk, Hk1. }
  assert (Milvus.rows_of (db w1) name = rows1) as Hr1
    by (unfold Milvus.rows_of; by rewrite Hrows1).
  split; [done|]. split; [done|].
  unfold documents_of. rewrite Hrows2, Hr1. unfold rows1.
  by rewrite !fmap_app, !doc_of_entries_from.
Qed.

(** ** More paths that fail, and what they leave behind *)

(** X7.  A configured file type that is not a string stops the load before
    the path is looked at: [_load_documents] raises [AttributeError] from
    the call of [lower], for every path, on disk or not, and
    [insert_documents] raises it having made no call to a loader or to the
    database. *)
Theorem file_type_not_a_string_raises w d v fp :
  config (self w) = CDict d →
  d !! "file_type" = Some v →
  (∀ s, v ≠ PStr s) →
  let e := AttributeError (type_name_of v +:+ " object has no attribute 'lower'") in
  _load_documents fp w = (Raise e, w) ∧
  ∃ w', insert_documents fp w = (Raise e, w') ∧
        db w' = db w ∧ trace w' = trace w ∧ self w' = self w.
Proof.
  intros Hc Hv Hns e.
  assert (_load_documents fp w = (Raise e, w)) as Hload.
  { unfold _load_documents.
    erewrite bind_ret by (by apply config_get_run).
    rewrite Hv. simpl. erewrite bind_raise; [reflexivity|].
    unfold str_lower. destruct v; try done. by destruct (Hns s). }
  split; [done|].
  exists (mkWorld (self w) (db w)
            (stdout w ++ ["Inserting documents from: " +:+ fp]) (trace w)).
  split; [|done]. unfold insert_documents.
  erewrite bind_ret by (unfold print; reflexivity).
  erewrite bind_raise; [reflexivity|].
  unfold _load_documents.
  erewrite bind_ret by (by apply config_get_run).
  rewrite Hv. simpl. erewrite bind_raise; [reflexivity|].
  unfold str_lower. destruct v; try done. by destruct (Hns s).
Qed.

Lemma after_drop_collections name w :
  collections (db (after_drop name w)) = delete name (collections (db w)).
Proof.
  unfold after_drop.
  destruct (collections (db w) !! name) eqn:Hl; simpl; [done|].
  symmetry. by apply delete_id.
Qed.

(** X8.  [load_collection] drops before it looks at the path.  For a path
    that is neither a file nor a directory (and a configured file type that
    is a string) it raises [FileNotFoundError] after the drop: the
    collection is gone with its rows, the manager has let go of its handle
    and vector store object, and no loader or insert was called. *)
Theorem load_collection_missing_path_drops w name ft fp :
  collection_name_of (self w) = Some name →
  file_type_of (self w) = Some ft →
  isfile fp = false → isdir fp = false →
  ∃ w',
    load_collection fp w =
      (Raise (FileNotFoundError ("File or directory not found: " +:+ fp)), w') ∧
    collections (db w') = delete name (collections (db w)) ∧
    trace w' = trace w ++ drop_events (db w) name ∧
    (is_Some (collections (db w) !! name) →
       collection (self w') = None ∧ vector_db (self w') = None).
Proof.
  intros Hn Hft Hf Hd.
  set (w1 := after_drop name w).
  exists (mkWorld (self w1) (db w1)
            (stdout w1 ++ ["Loading documents from: " +:+ fp]) (trace w1)).
  split.
  { unfold load_collection.
    erewrite bind_ret by (by apply drop_collection_run).
    erewrite bind_ret by (unfold print; reflexivity).
    erewrite bind_raise; [reflexivity|].
    apply (load_documents_not_found _ ft); [|done..].
    simpl. unfold w1. by rewrite file_type_after_drop. }
  simpl. split; [apply after_drop_collections|].
  split; [apply after_drop_trace|].
  intros [rows Hrows]. unfold w1, after_drop. by rewrite Hrows.
Qed.

(** X9.  A query that follows an insert on the same manager searches
    through the vector store object the insert left: no new object is
    created, and the search is made with the search parameters of
    [_get_search_params]. *)
Theorem query_after_insert_reuses_store_object w name ca ts fp raw q :
  Ready (self w) name ca ts →
  file_type_of (self w) = Some "pdf" →
  loaded fp = Some raw →
  ∃ w1 w2,
    insert_documents fp w = (Ret tt, w1) ∧
    query_documents q false w1 =
      (match search_result (store_object (self w) name ca) q (db w1) with
       | Ret docs => Ret (Docs docs)
       | Raise e => Raise e
       end, w2) ∧
    vector_db (self w2) = Some (store_object (self w) name ca) ∧
    trace w2 =
      trace w1 ++ [ESimilaritySearch name q (Some _get_search_params)] ∧
    db w2 = db w1.
Proof.
  intros Hr Hft Hl.
  set (w1 := inserted name ca ts fp raw w).
  set (vs := store_object (self w) name ca).
  exists w1, (mkWorld (self w1) (db w1) (stdout w1)
                (trace w1 ++ [ESimilaritySearch name q (Some _get_search_params)])).
  split; [by apply insert_documents_run|].
  split; [|done].
  destruct Hr as (Hn & Hca & _).
  unfold query_documents.
  erewrite bind_ret by (by apply (ensure_vector_db_run w1 name ca)).
  change (query_object (self w1) name ca) with vs.
  unfold mbind, M_bind, bind. rewrite similarity_search_run.
  change (db (bound name ca w1)) with (db w1).
  destruct (search_result vs q (db w1)); simpl; by rewrite app_nil_r.
Qed.

(** X10.  A query that follows the drop of an existing collection starts
    over: the manager creates a new vector store object, without search
    parameters, and the search returns no document and does not raise. *)
Theorem query_after_drop_is_empty w name ca q :
  collection_name_of (self w) = Some name →
  connection_args_of (self w) = Some ca →
  is_Some (collections (db w) !! name) →
  ∃ w1 w2,
    _drop_collection w = (Ret tt, w1) ∧
    query_documents q false w1 = (Ret (Docs []), w2) ∧
    vector_db (self w2) =
      Some (mkVectorStore name (embeddings (self w)) ca None None) ∧
    trace w2 = trace w1 ++ [EMilvus name; ESimilaritySearch name q None] ∧
    db w2 = db w1.
Proof.
  intros Hn Hca [rows Hrows].
  set (w1 := dropped name w).
  assert (after_drop name w = w1) as Hw1
    by (unfold after_drop; by rewrite Hrows).
  exists w1, (mkWorld (self (bound name ca w1)) (db w1) (stdout w1)
                (trace w1 ++ [EMilvus name; ESimilaritySearch name q None])).
  split; [rewrite <- Hw1; by apply drop_collection_run|].
  split; [|done].
  unfold query_documents.
  erewrite bind_ret by (by apply (ensure_vector_db_run w1 name ca)).
  unfold mbind, M_bind, bind. rewrite similarity_search_run.
  unfold search_result. simpl. rewrite lookup_delete_eq. simpl.
  by rewrite <- !app_assoc.
Qed.

(** X11.  [_create_collection_if_not_exists] creates nothing.  With a
    collection name configured it returns in every state and leaves the
    database as it was: when the collection is not there it only says so,
    and when it is there the manager takes a handle on it. *)
Theorem create_collection_if_not_exists_creates_nothing w name :
  collection_name_of (self w) = Some name →
  ∃ w',
    _create_collection_if_not_exists w = (Ret tt, w') ∧
    db w' = db w ∧
    (collections (db w) !! name = None →
       self w' = self w ∧
       trace w' = trace w ++ [EHasCollection name] ∧
       stdout w' =
         stdout w ++
           ["Collection '" +:+ name
            +:+ "' does not exist. Will be created during first insert."]) ∧
    (is_Some (collections (db w) !! name) →
       self w' = set_collection (Some (mkCollectionHandle name)) (self w) ∧
       trace w' = trace w ++ [EHasCollection name; ECollection name] ∧
       stdout w' = stdout w ++ ["Collection '" +:+ name +:+ "' already exists."]).
Proof.
  intros Hn. unfold _create_collection_if_not_exists.
  erewrite bind_ret by (by apply config_getitem_collection_name).
  unfold Milvus.has_collection, Milvus.Collection, Milvus.check_name.
  rewrite (collection_name_valid _ _ Hn). run.
  destruct (collections (db w) !! name) as [rows|] eqn:Hrows; simpl.
  - rewrite Hrows. simpl. eexists. split; [reflexivity|]. simpl.
    split; [done|]. split; [done|]. intros _.
    by rewrite <- !app_assoc.
  - eexists. split; [reflexivity|]. simpl.
    split; [done|]. split; [done|]. by intros [? ?].
Qed.

(** X12.  [_get_connection_args] hands the host over as configured and the
    port as text: an integer port becomes its decimal digits, which read
    back as the same integer.  A missing host or port raises [KeyError] with
    the name of the key, the host first.  The manager is not changed. *)
Theorem get_connection_args_port_as_text w d :
  config (self w) = CDict d →
  (∀ host p,
     d !! "docker_host" = Some host → d !! "docker_port" = Some (PInt p) →
     ∃ ca, _get_connection_args w = (Ret ca, w) ∧
           ca_host ca = host ∧ int_of_str (ca_port ca) = Some p) ∧
  (d !! "docker_host" = None →
     _get_connection_args w = (Raise (KeyError "docker_host"), w)) ∧
  (∀ host, d !! "docker_host" = Some host → d !! "docker_port" = None →
     _get_connection_args w = (Raise (KeyError "docker_port"), w)).
Proof.
  intros Hc. unfold _get_connection_args. split; [|split].
  - intros host p Hh Hp.
    erewrite bind_ret by (by eapply config_getitem_run).
    erewrite bind_ret by (by eapply config_getitem_run).
    eexists. split; [reflexivity|]. split; [done|]. apply int_of_str_int.
  - intros Hh. by erewrite bind_raise by (by eapply config_getitem_missing).
  - intros host Hh Hp.
    erewrite bind_ret by (by eapply config_getitem_run).
    by erewrite bind_raise by (by eapply config_getitem_missing).
Qed.

(** ** Listing and statistics *)

Lemma print_each_run {A} (f : A → string) xs : ∀ w,
  for_each xs (fun x => print (f x)) w =
    (Ret tt, mkWorld (self w) (db w) (stdout w ++ (f <$> xs)) (trace w)).
Proof.
  induction xs as [|x xs IH]; intros w; simpl.
  - rewrite app_nil_r. by destruct w.
  - erewrite bind_ret by (unfold print; reflexivity).
    rewrite IH. simpl. by rewrite <- app_assoc.
Qed.

(** X13.  [list_collections] returns every collection of the database
    once, and prints the heading and one line per collection, in the order
    it returns them.  It does not raise and changes nothing else. *)
Theorem list_collections_lists_every_collection w :
  ∃ names,
    list_collections w =
      (Ret names,
       mkWorld (self w) (db w)
         (stdout w ++
            "Available collections:" :: ((fun n => "  - " +:+ n) <$> names))
         (trace w)) ∧
    NoDup names ∧
    ∀ n, n ∈ names ↔ is_Some (collections (db w) !! n).
Proof.
  exists ((map_to_list (collections (db w))).*1).
  split; [|split].
  - unfold list_collections.
    erewrite bind_ret by (unfold get_db; reflexivity).
    cbv zeta.
    erewrite bind_ret by (unfold print; reflexivity).
    erewrite bind_ret by apply print_each_run.
    simpl. by rewrite <- app_assoc.
  - apply NoDup_fst_map_to_list.
  - intros n. rewrite list_elem_of_fmap. split.
    + intros ([n' rows] & -> & Hin). apply elem_of_map_to_list in Hin. eauto.
    + intros [rows Hrows]. exists (n, rows). split; [done|].
      by apply elem_of_map_to_list.
Qed.

(** The world after [get_collection_stats] printed its two lines. *)
Lemma get_collection_stats_run w name rows :
  collection_name_of (self w) = Some name →
  handle_on (self w) name →
  collections (db w) !! name = Some rows →
  get_collection_stats w =
    match collection_stats (db w) name with
    | Ret stats =>
        (Ret stats,
         mkWorld (self (acquired name w)) (db w)
           (stdout w ++
              ["Collection '" +:+ name +:+ "' statistics:";
               "  Row count: " +:+ str_int (row_count stats)])
           (trace (acquired name w)))
    | Raise e => (Raise e, acquired name w)
    end.
Proof.
  intros Hn Hh Hrows. unfold get_collection_stats.
  erewrite bind_ret by (by eapply ensure_collection_run).
  unfold get_stats.
  destruct (collection_stats (db w) name) as [stats|e] eqn:Hs.
  - erewrite bind_ret
      by (erewrite bind_ret by (unfold get_db; reflexivity);
          simpl; rewrite Hs; reflexivity).
    erewrite bind_ret by (by apply config_getitem_collection_name).
    run. by rewrite <- app_assoc.
  - erewrite bind_raise; [reflexivity|].
    erewrite bind_ret by (unfold get_db; reflexivity).
    simpl. by rewrite Hs.
Qed.

Lemma get_collection_stats_absent w name :
  collection_name_of (self w) = Some name →
  collection (self w) = None →
  collections (db w) !! name = None →
  get_collection_stats w =
    (Raise (MilvusException ("Collection '" +:+ name +:+ "' not exist")),
     mkWorld (self w) (db w) (stdout w) (trace w ++ [ECollection name])).
Proof.
  intros Hn Hc Habs. unfold get_collection_stats.
  erewrite bind_raise; [reflexivity|].
  unfold ensure_collection.
  erewrite bind_ret by (unfold get_self; reflexivity).
  rewrite Hc.
  erewrite bind_ret by (by apply config_getitem_collection_name).
  erewrite bind_raise; [reflexivity|].
  unfold Milvus.Collection, Milvus.check_name.
  rewrite (collection_name_valid _ _ Hn). run. by rewrite Habs.
Qed.

(** X14.  [get_collection_stats] takes a handle on the configured
    collection when the manager holds none.  On a database without the
    collection that step raises and nothing is printed.  On a collection
    that exists the statistics are asked of the store: when it answers, the
    two lines are printed and the statistics returned; when it raises,
    nothing is printed.  The database is as it was. *)
Theorem get_collection_stats_outcomes w name :
  collection_name_of (self w) = Some name →
  handle_on (self w) name →
  (collection (self w) = None → collections (db w) !! name = None →
     ∃ msg w', get_collection_stats w = (Raise (MilvusException msg), w') ∧
               stdout w' = stdout w ∧ db w' = db w ∧
               trace w' = trace w ++ [ECollection name]) ∧
  (is_Some (collections (db w) !! name) →
     ∃ w',
       get_collection_stats w =
         (match collection_stats (db w) name with
          | Ret stats => Ret stats
          | Raise e => Raise e
          end, w') ∧
       collection (self w') = Some (mkCollectionHandle name) ∧
       db w' = db w ∧
       trace w' = trace w ++ acquire_events (self w) name ∧
       stdout w' =
         stdout w ++
           match collection_stats (db w) name with
           | Ret stats =>
               ["Collection '" +:+ name +:+ "' statistics:";
                "  Row count: " +:+ str_int (row_count stats)]
           | Raise _ => []
           end).
Proof.
  intros Hn Hh. split.
  - intros Hc Habs. eexists _, _.
    split; [by apply get_collection_stats_absent|done].
  - intros [rows Hrows].
    rewrite (get_collection_stats_run w name rows) by done.
    destruct (collection_stats (db w) name) as [stats|e].
    + eexists. split; [reflexivity|done].
    + eexists. split; [reflexivity|]. simpl. by rewrite app_nil_r.
Qed.

(** ** The command line *)

Lemma init_run path d host port w :
  configuration path d host port →
  __init__ path w = (Ret tt, started d host port w).
Proof.
  intros ((text & Hr & Hj) & Hh & Hp & Hcomp & Hconn & _).
  rewrite (init_connects _ text d) by done.
  rewrite (connect_milvus_run d host port) by done.
  by rewrite Hconn.
Qed.

Lemma configured_name d name :
  d !! "collection_name" = Some (PStr name) →
  valid_name name = true →
  collection_name_of (configured d) = Some name.
Proof.
  intros Hn Hv. unfold collection_name_of. simpl. by rewrite Hn, Hv.
Qed.

Lemma configuration_name path d host port name :
  configuration path d host port →
  d !! "collection_name" = Some (PStr name) →
  collection_name_of (configured d) = Some name.
Proof.
  intros (_ & _ & _ & _ & _ & Hvalid) Hn.
  apply configured_name; [done|by apply Hvalid].
Qed.

Lemma configured_ready path d host port name :
  configuration path d host port →
  d !! "collection_name" = Some (PStr name) →
  Ready (configured d) name (connection_of host port) (splitter_of d).
Proof.
  intros Hcfg Hn. split; [by eapply configuration_name|].
  destruct Hcfg as (_ & Hh & Hp & _).
  split; [|done]. unfold connection_args_of. simpl. by rewrite Hh, Hp.
Qed.

Lemma configured_no_handle d name : handle_on (configured d) name.
Proof. intros c. discriminate. Qed.

(** X15.  [main] builds the manager before it looks at the arguments of
    the operation.  With a configuration that gives a host and a port, a
    command line whose operation lacks its argument ([--file-path] for
    insert, update, delete and load, [--query] for query; an empty string
    counts as missing) connects to the server, prints which argument the
    operation requires and exits with status 1; the database is not
    touched. *)
Theorem main_checks_arguments_after_connecting args w d host port flag :
  configuration (arg_config args) d host port →
  missing_argument args = Some flag →
  ∃ w',
    main args w = (1, w') ∧
    db w' = db w ∧
    trace w' = trace w ++ [EConnect host port] ∧
    stdout w' =
      stdout (started d host port w) ++
        ["Error: " +:+ flag +:+ " is required for "
         +:+ operation_name (arg_operation args) +:+ " operation"].
Proof.
  intros Hcfg Hmiss. unfold main, main_body.
  erewrite bind_ret by (by eapply init_run).
  unfold missing_argument, required_argument in Hmiss.
  destruct (arg_operation args); try done;
    match type of Hmiss with
    | context [not_given ?v] => destruct (not_given v) eqn:Hng; [|done]
    end;
    injection Hmiss as <-; run; by eexists.
Qed.

(** X16.  [main] turns a configuration it cannot use into exit status 1,
    whatever the operation, with the exception's text after [Error: ]: the
    message of [_load_config] for a missing file or invalid JSON, and for
    a dict without a host one more line, which is the name of the key
    between quotes when the components can be built.  Nothing is sent to
    the server. *)
Theorem main_reports_unusable_configuration args w :
  let failed line :=
    (1, mkWorld (self w) (db w) (stdout w ++ [line]) (trace w)) in
  (read_text (arg_config args) = None →
     main args w =
       failed ("Error: Config file not found: " +:+ arg_config args)) ∧
  (∀ text e,
     read_text (arg_config args) = Some text → json_loads text = inl e →
     main args w = failed ("Error: Invalid JSON in config file: " +:+ e)) ∧
  (∀ text d,
     read_text (arg_config args) = Some text →
     json_loads text = inr (CDict d) →
     d !! "docker_host" = None →
     ∃ line w', main args w = (1, w') ∧
                stdout w' = stdout w ++ [line] ∧
                db w' = db w ∧ trace w' = trace w ∧
                (components d → line = "Error: 'docker_host'")).
Proof.
  intros failed. split; [|split].
  - intros Hr. unfold main, main_body.
    erewrite bind_raise
      by (unfold __init__; erewrite bind_raise; [reflexivity|];
          unfold _load_config; by rewrite Hr).
    reflexivity.
  - intros text e Hr Hj. unfold main, main_body.
    erewrite bind_raise
      by (unfold __init__; erewrite bind_raise; [reflexivity|];
          unfold _load_config; by rewrite Hr, Hj).
    reflexivity.
  - intros text d Hr Hj Hh. unfold main, main_body.
    destruct (components_or_unbuilt d) as [Hcomp|[e Hun]].
    + erewrite bind_raise.
      2:{ rewrite (init_connects _ text d) by done.
          unfold _connect_milvus.
          erewrite bind_raise by (by eapply config_getitem_missing).
          reflexivity. }
      by eexists _, _.
    + destruct (setup_components_unbuilt d
                  (mkWorld (mkManager (CDict d) None false None None None)
                     (db w) (stdout w) (trace w)) e eq_refl Hun)
        as (w' & Hrun & Hdb & Hout & Htr).
      erewrite bind_raise
        by (rewrite (init_sets_up _ text d) by done; exact Hrun).
      eexists _, _. split; [reflexivity|]. simpl. rewrite Hout, Hdb, Htr.
      do 3 (split; [done|]).
      intros Hcomp. by destruct (unbuilt_not_components d e).
Qed.

(** X17.  [main] with [--operation drop] does not ask for statistics.  With
    a configuration that gives a host, a port and a collection name it
    connects, drops the collection when it is there, and exits with status
    0 in either case, whatever the store would answer about statistics. *)
Theorem main_drop_reads_no_statistics args w d host port name :
  arg_operation args = OpDrop →
  configuration (arg_config args) d host port →
  d !! "collection_name" = Some (PStr name) →
  ∃ w',
    main args w = (0, w') ∧
    collections (db w') = delete name (collections (db w)) ∧
    trace w' = trace w ++ EConnect host port :: drop_events (db w) name.
Proof.
  intros Hop Hcfg Hn. unfold main, main_body. rewrite Hop.
  erewrite bind_ret by (by eapply init_run).
  erewrite bind_ret.
  2:{ erewrite bind_ret; [reflexivity|].
      apply (drop_collection_run _ name). by eapply configuration_name. }
  simpl. eexists. split; [reflexivity|].
  split; [apply (after_drop_collections name (started d host port w))|].
  rewrite after_drop_trace. simpl. by rewrite <- app_assoc.
Qed.

(** X18.  [main] with [--operation query] on a database without the
    collection prints an empty result and then fails.  The similarity
    search returns no document and that is printed; the statistics step
    that follows wants a handle on the collection, which is not there, so
    the run ends with the exception's text and exit status 1. *)
Theorem main_query_without_collection_fails args w d host port name q :
  arg_operation args = OpQuery →
  arg_query args = Some q → q ≠ EmptyString →
  arg_use_rag args = false →
  configuration (arg_config args) d host port →
  d !! "collection_name" = Some (PStr name) →
  collections (db w) !! name = None →
  ∃ w',
    main args w = (1, w') ∧
    db w' = db w ∧
    trace w' =
      trace w ++
        [EConnect host port; EMilvus name; ESimilaritySearch name q None;
         ECollection name] ∧
    stdout w' =
      stdout (started d host port w) ++
        ["Query result:"; str_docs [];
         "Error: " +:+ str_milvus ("Collection '" +:+ name +:+ "' not exist")].
Proof.
  intros Hop Hq Hne Hrag Hcfg Hn Habs.
  pose proof (configured_ready _ d host port name Hcfg Hn) as (Hcn & Hca & _).
  unfold main, main_body. rewrite Hop, Hq, Hrag.
  assert (not_given (Some q) = false) as ->
    by (simpl; by apply String.eqb_neq).
  erewrite bind_ret by (by eapply init_run).
  set (w0 := started d host port w).
  set (ca := connection_of host port).
  erewrite bind_ret.
  2:{ unfold query_documents, given. simpl.
      erewrite bind_ret.
      2:{ erewrite bind_ret by (by apply (ensure_vector_db_run w0 name ca)).
          unfold mbind, M_bind, bind. rewrite similarity_search_run.
          unfold search_result. simpl. rewrite Habs. reflexivity. }
      run. reflexivity. }
  cbv iota.
  erewrite bind_raise by (apply (get_collection_stats_absent _ name); done).
  eexists. split; [reflexivity|]. simpl.
  split; [done|]. by rewrite <- !app_assoc.
Qed.

(** X19.  [main] with [--operation insert] inserts first and asks for
    statistics after.  With a usable configuration for PDF, a path whose
    loader succeeds, and a collection that exists or at least one chunk to
    create it with: the chunks are appended, and the exit status is that of
    the statistics step, 0 when the store answers and 1 when it raises.  The
    rows are in the collection in either case. *)
Theorem main_insert_exit_status args w d host port name fp raw :
  arg_operation args = OpInsert →
  arg_file_path args = Some fp → fp ≠ EmptyString →
  configuration (arg_config args) d host port →
  d !! "collection_name" = Some (PStr name) →
  file_type_of (configured d) = Some "pdf" →
  loaded fp = Some raw →
  is_Some (collections (db w) !! name) ∨
    split_documents (splitter_of d) raw ≠ [] →
  let docs := split_documents (splitter_of d) raw in
  let s1 := Milvus.insert_batch name docs (db w) in
  ∃ w',
    main args w =
      (match collection_stats s1 name with Ret _ => 0 | Raise _ => 1 end, w') ∧
    db w' = s1 ∧
    Milvus.rows_of s1 name =
      Milvus.rows_of (db w) name ++ Milvus.entries_from (next_pk (db w)) docs ∧
    last (stdout w') =
      Some match collection_stats s1 name with
           | Ret stats => "  Row count: " +:+ str_int (row_count stats)
           | Raise e => "Error: " +:+ str_exn e
           end.
Proof.
  intros Hop Hfp Hne Hcfg Hn Hft Hl Hex docs s1.
  pose proof (configured_ready _ d host port name Hcfg Hn) as Hr.
  unfold main, main_body. rewrite Hop, Hfp.
  change (given (Some fp)) with fp.
  assert (not_given (Some fp) = false) as ->
    by (simpl; by apply String.eqb_neq).
  erewrite bind_ret by (by eapply init_run).
  set (w0 := started d host port w).
  set (ca := connection_of host port).
  set (w1 := inserted name ca (splitter_of d) fp raw w0).
  assert (∃ rows1, collections s1 !! name = Some rows1) as [rows1 Hrows1].
  { unfold s1. destruct Hex as [[rows Hrows]|Hdocs].
    - erewrite lookup_insert_batch by done. eauto.
    - fold docs in Hdocs. destruct docs as [|x xs]; [done|]. simpl.
      rewrite lookup_insert_eq. eauto. }
  erewrite bind_ret.
  2:{ erewrite bind_ret; [reflexivity|].
      by apply (insert_documents_run w0 name ca (splitter_of d)). }
  cbv iota beta.
  pose proof (get_collection_stats_run w1 name rows1) as Hstats.
  change (db w1) with s1 in Hstats.
  unfold mbind, M_bind, bind. subst w1 w0 ca.
  rewrite Hstats; [|apply Hr|done|done].
  destruct (collection_stats s1 name) as [stats|e]; simpl.
  - eexists. split; [reflexivity|]. simpl. split; [done|].
    split; [apply rows_of_insert_batch|].
    by rewrite last_app.
  - eexists. split; [reflexivity|]. simpl. split; [done|].
    split; [apply rows_of_insert_batch|].
    by rewrite last_app.
Qed.

(** ** Only the configured collection is written *)

Lemma same_elsewhere_refl name s : same_elsewhere name s s.
Proof. by intros n _. Qed.

Lemma same_elsewhere_trans name s1 s2 s3 :
  same_elsewhere name s1 s2 → same_elsewhere name s2 s3 →
  same_elsewhere name s1 s3.
Proof. intros H12 H23 n Hn. by rewrite H23, H12. Qed.

Lemma confined_same name {A} (m : M A) (V : A → Prop) :
  (∀ w, on_collection name (self w) →
     self (m w).2 = self w ∧ db (m w).2 = db w ∧
     ∀ a, (m w).1 = Ret a → V a) →
  confined name m V.
Proof.
  intros H w Hon. destruct (H w Hon) as (Hs & Hd & Hv).
  rewrite Hs, Hd. split; [done|]. split; [apply same_elsewhere_refl|done].
Qed.

Lemma confined_ret name {A} (a : A) (V : A → Prop) :
  V a → confined name (mret a) V.
Proof.
  intros Ha. apply confined_same. intros w _.
  split; [done|]. split; [done|]. by intros ? [= <-].
Qed.

Lemma confined_ret_any name {A} (a : A) : confined name (mret a) (fun _ => True).
Proof. by apply confined_ret. Qed.

Lemma confined_raise name {A} e (V : A → Prop) : confined name (@raise A e) V.
Proof. apply confined_same. intros w _. by repeat split. Qed.

Lemma confined_lift name {A} (o : outcome A) :
  confined name (lift o) (fun _ => True).
Proof. apply confined_same. intros w _. by destruct o. Qed.

Lemma confined_get_self name : confined name get_self (on_collection name).
Proof.
  apply confined_same. intros w Hon.
  split; [done|]. split; [done|]. by intros ? [= <-].
Qed.

Lemma confined_put_self name m :
  on_collection name m → confined name (put_self m) (fun _ => True).
Proof. intros Hm w _. split; [done|]. split; [apply same_elsewhere_refl|done]. Qed.

Lemma confined_get_db name : confined name get_db (fun _ => True).
Proof. apply confined_same. intros w _. by repeat split. Qed.

Lemma confined_print name line : confined name (print line) (fun _ => True).
Proof. intros w Hon. split; [done|]. split; [apply same_elsewhere_refl|done]. Qed.

Lemma confined_emit name e : confined name (emit e) (fun _ => True).
Proof. intros w Hon. split; [done|]. split; [apply same_elsewhere_refl|done]. Qed.

Lemma confined_bind name {A B} (m : M A) (k : A → M B)
    (V : A → Prop) (V' : B → Prop) :
  confined name m V → (∀ a, V a → confined name (k a) V') →
  confined name (m ≫= k) V'.
Proof.
  intros Hm Hk w Hon. unfold mbind, M_bind, bind.
  destruct (Hm w Hon) as (Hon1 & Hd1 & Hv1).
  destruct (m w) as [[a|e] w1]; simpl in *; [|done].
  destruct (Hk a (Hv1 a eq_refl) w1 Hon1) as (Hon2 & Hd2 & Hv2).
  split; [done|]. split; [by eapply same_elsewhere_trans|done].
Qed.

Lemma confined_any name {A} (m : M A) (V : A → Prop) :
  confined name m V → confined name m (fun _ => True).
Proof.
  intros H w Hon. destruct (H w Hon) as (Hon1 & Hd1 & _).
  split; [done|]. by split.
Qed.

Lemma confined_for_each name {A} (xs : list A) (body : A → M unit) :
  (∀ x, confined name (body x) (fun _ => True)) →
  confined name (for_each xs body) (fun _ => True).
Proof.
  intros Hbody. induction xs as [|x xs IH]; simpl.
  - apply confined_ret_any.
  - eapply confined_bind; [apply Hbody|by intros _ _].
Qed.

Lemma confined_config_getitem name key :
  confined name (config_getitem key) (fun _ => True).
Proof.
  apply confined_same. intros w _. unfold config_getitem. run.
  destruct (config (self w)) as [d|v]; [|done]. by destruct (d !! key).
Qed.

Lemma confined_config_get name key dflt :
  confined name (config_get key dflt) (fun _ => True).
Proof.
  apply confined_same. intros w _. unfold config_get. run.
  by destruct (config (self w)) as [d|v].
Qed.

Lemma confined_collection_name name :
  confined name (config_getitem "collection_name") (fun v => v = PStr name).
Proof.
  apply confined_same. intros w [(d & Hc & Hn) _].
  rewrite (config_getitem_run w d _ _ Hc Hn).
  split; [done|]. split; [done|]. by intros ? [= <-].
Qed.

Lemma confined_has_collection name v :
  confined name (Milvus.has_collection v) (fun _ => True).
Proof.
  intros w Hon. unfold Milvus.has_collection, Milvus.check_name.
  destruct v as [| | |s|]; try destruct (valid_name s);
    run; (split; [done|]; split; [apply same_elsewhere_refl|done]).
Qed.

Lemma confined_drop_collection name :
  confined name (Milvus.drop_collection (PStr name)) (fun _ => True).
Proof.
  intros w Hon. unfold Milvus.drop_collection, Milvus.check_name.
  destruct (valid_name name); run; (split; [done|]; split; [|done]);
    [|apply same_elsewhere_refl].
  intros n Hne. simpl. by rewrite lookup_delete_ne.
Qed.

Lemma confined_Collection name :
  confined name (Milvus.Collection (PStr name)) (fun c => ch_name c = name).
Proof.
  intros w Hon. unfold Milvus.Collection, Milvus.check_name.
  destruct (valid_name name); run;
    [|split; [done|]; split; [apply same_elsewhere_refl|done]].
  destruct (collections (db w) !! name); simpl;
    (split; [done|]; split; [apply same_elsewhere_refl|]); [|done].
  by intros ? [= <-].
Qed.

Lemma confined_query name c expr :
  confined name (Milvus.query c expr) (fun _ => True).
Proof.
  intros w Hon. unfold Milvus.query. run.
  destruct (collections (db w) !! ch_name c); simpl.
  - destruct (Milvus.eval_expr expr); simpl;
      (split; [done|]; split; [apply same_elsewhere_refl|done]).
  - split; [done|]. split; [apply same_elsewhere_refl|done].
Qed.

Lemma confined_delete name c expr :
  ch_name c = name →
  confined name (Milvus.delete c expr) (fun _ => True).
Proof.
  intros Hc w Hon. unfold Milvus.delete. run.
  destruct (collections (db w) !! ch_name c); simpl.
  - destruct (Milvus.eval_expr expr); simpl;
      (split; [done|]; split; [|done]); [|apply same_elsewhere_refl].
    intros n Hne. simpl. rewrite lookup_insert_ne; [done|congruence].
  - split; [done|]. split; [apply same_elsewhere_refl|done].
Qed.

Lemma same_elsewhere_insert_batch name docs s :
  same_elsewhere name s (Milvus.insert_batch name docs s).
Proof.
  destruct docs as [|d docs]; [apply same_elsewhere_refl|].
  intros n Hne. simpl. by rewrite lookup_insert_ne.
Qed.

Lemma confined_from_documents name docs emb ca sp ip :
  confined name (Milvus.from_documents docs emb ca (PStr name) sp ip)
    (fun _ => True).
Proof.
  intros w Hon. unfold Milvus.from_documents, Milvus.check_name.
  destruct (valid_name name); run;
    [|split; [done|]; split; [apply same_elsewhere_refl|done]].
  destruct emb; simpl; (split; [done|]; split; [|done]).
  - apply same_elsewhere_insert_batch.
  - apply same_elsewhere_refl.
Qed.

Lemma confined_Milvus name emb ca v :
  confined name (Milvus.Milvus emb ca v) (fun _ => True).
Proof.
  intros w Hon. unfold Milvus.Milvus, Milvus.check_name.
  destruct v as [| | |s|]; try destruct (valid_name s);
    run; (split; [done|]; split; [apply same_elsewhere_refl|done]).
Qed.

Lemma on_collection_set_collection name m c :
  on_collection name m → ch_name c = name →
  on_collection name (set_collection (Some c) m).
Proof. intros [Hn Hh] Hc. split; [done|]. intros c'. simpl. by intros [= <-]. Qed.

Lemma on_collection_set_vector_db name m v :
  on_collection name m → on_collection name (set_vector_db v m).
Proof. by intros [Hn Hh]. Qed.

Lemma on_collection_no_collection name m :
  on_collection name m → on_collection name (set_collection None m).
Proof. intros [Hn Hh]. split; [done|]. intros c. discriminate. Qed.

Lemma confined_ensure_collection name :
  confined name ensure_collection (fun c => ch_name c = name).
Proof.
  unfold ensure_collection.
  eapply confined_bind; [apply confined_get_self|]. intros m Hm.
  destruct (collection m) as [c|] eqn:Hc.
  - apply confined_ret. by apply Hm.
  - eapply confined_bind; [apply confined_collection_name|]. intros v ->.
    eapply confined_bind; [apply confined_Collection|]. intros c Hcn.
    eapply confined_bind; [apply confined_get_self|]. intros m' Hm'.
    eapply confined_bind;
      [apply confined_put_self; by apply on_collection_set_collection|].
    intros _ _. by apply confined_ret.
Qed.

Lemma on_collection_fields name m e l v t :
  on_collection name m →
  on_collection name (mkManager (config m) e l v (collection m) t).
Proof. by intros [Hn Hh]. Qed.

(** Proves [confined name m V] for a program built from the operations
    above. *)
Ltac confined :=
  lazymatch goal with
  | |- confined _ ensure_collection _ => apply confined_ensure_collection
  | |- confined _ (config_getitem "collection_name") _ =>
      apply confined_collection_name
  | |- confined _ (config_getitem _) _ => apply confined_config_getitem
  | |- confined _ (config_get _ _) _ => apply confined_config_get
  | |- confined _ (Milvus.drop_collection _) _ =>
      apply confined_drop_collection
  | |- confined _ (Milvus.from_documents _ _ _ _ _ _) _ =>
      apply confined_from_documents
  | |- confined _ (Milvus.delete _ _) _ => apply confined_delete; done
  | |- confined _ (Milvus.Collection _) _ => apply confined_Collection
  | |- confined _ (Milvus.query _ _) _ => apply confined_query
  | |- confined _ (Milvus.has_collection _) _ => apply confined_has_collection
  | |- confined _ (Milvus.Milvus _ _ _) _ => apply confined_Milvus
  | |- confined _ get_self _ => apply confined_get_self
  | |- confined _ (put_self _) _ =>
      apply confined_put_self;
        first [ by apply on_collection_set_collection
              | by apply on_collection_set_vector_db
              | by apply on_collection_no_collection
              | by apply on_collection_fields ]
  | |- confined _ get_db _ => apply confined_get_db
  | |- confined _ (print _) _ => apply confined_print
  | |- confined _ (emit _) _ => apply confined_emit
  | |- confined _ (mret _) _ => apply confined_ret_any
  | |- confined _ (ret _) _ => apply confined_ret_any
  | |- confined _ (raise _) _ => apply confined_raise
  | |- confined _ (lift _) _ => apply confined_lift
  | |- confined _ (for_each _ _) _ =>
      apply confined_for_each; intros ?; confined
  | |- confined _ (_ ≫= _) _ =>
      eapply confined_bind;
        [ confined
        | intros ? ?; cbv beta in *;
          try match goal with
              | H : ?a = PStr _ |- _ => is_var a; subst a
              end;
          confined ]
  | |- confined _ (match ?x with _ => _ end) _ => destruct x; confined
  | |- _ =>
      progress unfold str_lower, chain_from_llm, _connect_milvus,
        _setup_components, _create_collection_if_not_exists,
        _get_connection_args, split, _load_documents, insert_documents,
        delete_documents, _check_file_exists, update_documents,
        ensure_vector_db, similarity_search, run_chain, query_documents,
        _drop_collection, load_collection, list_collections, get_stats,
        get_collection_stats, sys_exit;
      confined
  end.

Lemma confined_insert_documents name fp :
  confined name (insert_documents fp) (fun _ => True).
Proof. confined. Qed.

Lemma confined_delete_documents name fp :
  confined name (delete_documents fp) (fun _ => True).
Proof. confined. Qed.

Lemma confined_update_documents name fp :
  confined name (update_documents fp) (fun _ => True).
Proof. confined. Qed.

Lemma confined_load_collection name fp :
  confined name (load_collection fp) (fun _ => True).
Proof. confined. Qed.

Lemma confined_drop name : confined name _drop_collection (fun _ => True).
Proof. confined. Qed.

Lemma confined_query_documents name q use_rag :
  confined name (query_documents q use_rag) (fun _ => True).
Proof. eapply confined_any. confined. Qed.

Lemma confined_get_collection_stats name :
  confined name get_collection_stats (fun _ => True).
Proof. eapply confined_any. confined. Qed.

Lemma confined_setup_components name :
  confined name _setup_components (fun _ => True).
Proof. confined. Qed.

(** X20.  The manager writes to no collection but the one it is set on.
    With a collection name configured, and the handle the manager may hold
    being on that collection, every other collection of the database is
    after an insert, a delete, an update, a load or a drop what it was
    before, whatever the operation returns or raises. *)
Theorem operations_write_configured_collection_only w name fp :
  collection_name_of (self w) = Some name →
  handle_on (self w) name →
  same_elsewhere name (db w) (db (insert_documents fp w).2) ∧
  same_elsewhere name (db w) (db (delete_documents fp w).2) ∧
  same_elsewhere name (db w) (db (update_documents fp w).2) ∧
  same_elsewhere name (db w) (db (load_collection fp w).2) ∧
  same_elsewhere name (db w) (db (_drop_collection w).2).
Proof.
  intros Hn Hh.
  assert (on_collection name (self w)) as Hon
    by (split; [by apply collection_name_names|done]).
  split; [apply (confined_insert_documents name fp w Hon)|].
  split; [apply (confined_delete_documents name fp w Hon)|].
  split; [apply (confined_update_documents name fp w Hon)|].
  split; [apply (confined_load_collection name fp w Hon)|].
  apply (confined_drop name w Hon).
Qed.

Lemma bind_run {A B} (m : M A) (k : A → M B) w :
  (m ≫= k) w =
    match m w with
    | (Ret a, w') => k a w'
    | (Raise e, w') => (Raise e, w')
    end.
Proof. done. Qed.

(** X21.  The command line writes to no collection but the one its
    configuration names: with a configuration file that holds a dict with a
    collection name, for every operation and whatever the exit status,
    every other collection of the database is left as it was. *)
Theorem main_writes_configured_collection_only args w text d name :
  read_text (arg_config args) = Some text →
  json_loads text = inr (CDict d) →
  d !! "collection_name" = Some (PStr name) →
  same_elsewhere name (db w) (db (main args w).2).
Proof.
  intros Hr Hj Hn.
  assert (same_elsewhere name (db w) (db (main_body args w).2)) as Hbody.
  { unfold main_body.
    match goal with
    | |- context [(__init__ _ ≫= ?k) w] => set (rest := k)
    end.
    assert (∀ u, confined name (rest u) (fun _ => True)) as Hrest
      by (intros u; unfold rest; confined).
    rewrite bind_run, (init_sets_up _ text d) by done.
    set (w0 := mkWorld _ _ _ _).
    assert (on_collection name (self w0)) as Hon0.
    { split; [by exists d|intros c; discriminate]. }
    destruct (confined_setup_components name w0 Hon0) as (Hon1 & Hd1 & _).
    destruct (_setup_components w0) as [[u|e] w1]; simpl in *; [|done].
    destruct (Hrest u w1 Hon1) as (_ & Hd2 & _).
    by eapply same_elsewhere_trans. }
  unfold main. by destruct (main_body args w) as [[[code|]|e] w'].
Qed.

#[local] Instance keeps_wf_preorder : PreOrder keeps_wf.
Proof.
  split.
  - by intros s Hwf.
  - intros s1 s2 s3 H12 H23 Hwf. by apply H23, H12.
Qed.

Ltac keeps_leaf :=
  idtac;
  lazymatch goal with
  | |- steps _ (Milvus.drop_collection _) => apply keeps_drop_collection
  | |- steps _ (Milvus.delete _ _) => apply keeps_delete
  | |- steps _ (Milvus.from_documents _ _ _ _ _ _) =>
      apply keeps_from_documents
  end.

Lemma keeps_main_body args : steps keeps_wf (main_body args).
Proof. steps_with ltac:(keeps_leaf). Qed.

(** X22.  The command line keeps the primary keys unique: run on a
    database where, within every collection, the primary keys are unique
    and below the next one the store hands out, it leaves such a database,
    for every operation and whatever the exit status. *)
Theorem main_keeps_primary_keys_unique args w :
  store_wf (db w) → store_wf (db (main args w).2).
Proof.
  apply (steps_main keeps_wf), keeps_main_body.
Qed.

(** ** A database without the collection *)

Lemma ensure_collection_absent w name :
  collection_name_of (self w) = Some name →
  collection (self w) = None →
  collections (db w) !! name = None →
  ensure_collection w =
    (Raise (MilvusException ("Collection '" +:+ name +:+ "' not exist")),
     mkWorld (self w) (db w) (stdout w) (trace w ++ [ECollection name])).
Proof.
  intros Hn Hc Habs. unfold ensure_collection.
  erewrite bind_ret by (unfold get_self; reflexivity).
  rewrite Hc.
  erewrite bind_ret by (by apply config_getitem_collection_name).
  erewrite bind_raise; [reflexivity|].
  unfold Milvus.Collection, Milvus.check_name.
  rewrite (collection_name_valid _ _ Hn). run. by rewrite Habs.
Qed.

(** X23.  Deleting and updating need the collection to be there; inserting
    does not.  On a database without the configured collection, with a
    manager that holds no handle, [delete_documents] and [update_documents]
    raise when they ask for the handle: nothing is loaded and nothing is
    inserted.  [insert_documents] of at least one chunk returns and the
    collection exists afterwards. *)
Theorem update_needs_existing_collection w name fp :
  collection_name_of (self w) = Some name →
  collection (self w) = None →
  collections (db w) !! name = None →
  let e := MilvusException ("Collection '" +:+ name +:+ "' not exist") in
  (∃ w', delete_documents fp w = (Raise e, w') ∧
         db w' = db w ∧ trace w' = trace w ++ [ECollection name]) ∧
  (∃ w', update_documents fp w = (Raise e, w') ∧
         db w' = db w ∧ trace w' = trace w ++ [ECollection name]) ∧
  (∀ ca ts raw,
     Ready (self w) name ca ts →
     file_type_of (self w) = Some "pdf" →
     loaded fp = Some raw →
     split_documents ts raw ≠ [] →
     ∃ w', insert_documents fp w = (Ret tt, w') ∧
           collections (db w') !! name =
             Some (Milvus.entries_from (next_pk (db w)) (split_documents ts raw))).
Proof.
  intros Hn Hc Habs e. split; [|split].
  - eexists. split.
    + unfold delete_documents.
      erewrite bind_raise by (by apply ensure_collection_absent). done.
    + done.
  - eexists. split.
    + unfold update_documents.
      erewrite bind_ret by (unfold print; reflexivity).
      erewrite bind_raise; [reflexivity|].
      unfold _check_file_exists.
      erewrite bind_raise by (by apply ensure_collection_absent). done.
    + done.
  - intros ca ts raw Hr Hft Hl Hdocs.
    exists (inserted name ca ts fp raw w).
    split; [by apply insert_documents_run|]. simpl.
    destruct (split_documents ts raw) as [|x xs]; [done|]. simpl.
    rewrite lookup_insert_eq. unfold Milvus.rows_of. by rewrite Habs.
Qed.

(** ** Databases of one collection *)

Lemma store_wf_singleton name rows k :
  NoDup (pk <$> rows) → Forall (fun e => pk e < k) rows →
  store_wf (mkStore {[name := rows]} k).
Proof.
  intros Hnd Hlt n rs. simpl. rewrite lookup_singleton_Some.
  by intros [<- <-].
Qed.

End Properties.

(** * The statements on the reference installation *)

Import Example.

#[local] Existing Instance collaborators.

Lemma name_indexed : collection_name_of (self indexed) = Some "docs".
Proof. reflexivity. Qed.

Lemma name_unindexed : collection_name_of (self unindexed) = Some "docs".
Proof. reflexivity. Qed.

Lemma name_shared : collection_name_of (self shared) = Some "docs".
Proof. reflexivity. Qed.

(** C3 (amended) on [indexed]. *)
Lemma drop_collection_idempotent_witness :
  collection_name_of (self indexed) = Some "docs" ∧
  ∃ w1 w2,
    _drop_collection indexed = (Ret tt, w1) ∧
    _drop_collection w1 = (Ret tt, w2) ∧
    db w2 = db w1.
Proof.
  split; [reflexivity|].
  destruct (drop_collection_idempotent indexed "docs" name_indexed)
    as (w1 & w2 & H1 & H2 & Hdb & _).
  by exists w1, w2.
Defined.

(** C3 as stated fails: from the state of a manager built from [bare.json],
    which gives no collection name, the first [_drop_collection] raises
    [KeyError]; with the collection name ['my-docs'], which the server does
    not accept, it raises the server's exception. *)
Lemma drop_without_usable_name_counterexample :
  config (self unnamed) = CDict base_config ∧
  base_config !! "collection_name" = None ∧
  (∃ w', _drop_collection unnamed =
           (Raise (KeyError "collection_name"), w')) ∧
  config (self hyphenated) = CDict hyphen_config ∧
  hyphen_config !! "collection_name" = Some (PStr "my-docs") ∧
  (∃ w', _drop_collection hyphenated =
           (Raise (MilvusException "Invalid collection name: my-docs"), w')).
Proof.
  split; [reflexivity|]. split; [reflexivity|].
  split; [eexists; vm_compute; reflexivity|].
  split; [reflexivity|]. split; [reflexivity|].
  eexists. vm_compute. reflexivity.
Qed.

Lemma ready_unindexed : Ready (self unindexed) "docs" connection splitter.
Proof. repeat split; (reflexivity || discriminate). Qed.

(** C2 on [unindexed] and [a.pdf]: three rows of the source after the
    first insert, six after the second. *)
Lemma insert_twice_doubles_witness :
  (Ready (self unindexed) "docs" connection splitter ∧
   file_type_of (self unindexed) = Some "pdf" ∧
   loaded "a.pdf" = Some (pages_of "a.pdf")) ∧
  ∃ w1 w2,
    insert_documents "a.pdf" unindexed = (Ret tt, w1) ∧
    insert_documents "a.pdf" w1 = (Ret tt, w2) ∧
    count_source "a.pdf" (Milvus.rows_of (db unindexed) "docs") = 0%nat ∧
    count_source "a.pdf" (Milvus.rows_of (db w1) "docs") = 3%nat ∧
    count_source "a.pdf" (Milvus.rows_of (db w2) "docs") = 6%nat.
Proof.
  assert (loaded "a.pdf" = Some (pages_of "a.pdf")) as Hl by reflexivity.
  split; [split; [apply ready_unindexed|split; reflexivity]|].
  destruct (insert_twice_doubles unindexed "docs" connection splitter "a.pdf"
              (pages_of "a.pdf") ready_unindexed eq_refl Hl)
    as (w1 & w2 & H1 & H2 & _ & _ & _ & _ & _ & _ & Hc & _).
  exists w1, w2. split; [exact H1|]. split; [exact H2|].
  split; [reflexivity|].
  destruct Hc as [Hc1 Hc2]; [repeat constructor|reflexivity|].
  rewrite Hc1, Hc2. split; reflexivity.
Defined.

Lemma ready_indexed : Ready (self indexed) "docs" connection splitter.
Proof. repeat split; (reflexivity || discriminate). Qed.

Lemma no_handle_indexed : handle_on (self indexed) "docs".
Proof. intros c. discriminate. Qed.







(** C4 on [indexed] and [a.pdf]: the six old rows are gone, the three
    chunks are in. *)
Lemma load_collection_drops_then_inserts_witness :
  (Ready (self indexed) "docs" connection splitter ∧
   file_type_of (self indexed) = Some "pdf" ∧
   loaded "a.pdf" = Some (pages_of "a.pdf")) ∧
  ∃ w',
    load_collection "a.pdf" indexed = (Ret tt, w') ∧
    documents_of (db w') "docs" = pages_of "a.pdf" ∧
    pk <$> Milvus.rows_of (db w') "docs" = [7; 8; 9] ∧
    trace w' =
      [EHasCollection "docs"; EDropCollection "docs"; EPdfLoad "a.pdf";
       ESplit 3;
       EFromDocuments "docs" (pages_of "a.pdf")
         _get_search_params _get_index_params;
       ECollection "docs"].
Proof.
  assert (loaded "a.pdf" = Some (pages_of "a.pdf")) as Hl by reflexivity.
  split; [split; [apply ready_indexed|split; reflexivity]|].
  destruct (load_collection_drops_then_inserts indexed "docs" connection
              splitter "a.pdf" ready_indexed)
    as (_ & Hloadable).
  destruct (Hloadable (pages_of "a.pdf") eq_refl Hl)
    as (r & w' & Hrun & Htrace & Hrows & Hdocs & _ & _ & Hsome & _).
  destruct Hsome as (-> & _); [discriminate|].
  exists w'. split; [exact Hrun|]. split; [exact Hdocs|].
  rewrite Hrows, Htrace. split; reflexivity.
Defined.

(** C7 (amended) on [unindexed]: a missing path, and [a.pdf]. *)
Lemma insert_documents_outcomes_witness :
  (Ready (self unindexed) "docs" connection splitter ∧
   file_type_of (self unindexed) = Some "pdf") ∧
  (∃ w', insert_documents "nowhere.pdf" unindexed =
           (Raise (FileNotFoundError
                     "File or directory not found: nowhere.pdf"), w')) ∧
  (∃ w', insert_documents "a.pdf" unindexed = (Ret tt, w') ∧
         Milvus.rows_of (db w') "docs" = Milvus.entries_from 1 (pages_of "a.pdf")).
Proof.
  assert (loaded "a.pdf" = Some (pages_of "a.pdf")) as Hl by reflexivity.
  split; [split; [apply ready_unindexed|reflexivity]|].
  split.
  - destruct (insert_documents_outcomes unindexed "docs" connection splitter
                "pdf" "nowhere.pdf" ready_unindexed eq_refl)
      as (Hmissing & _).
    assert (isfile "nowhere.pdf" = false) as Hf by reflexivity.
    assert (isdir "nowhere.pdf" = false) as Hd by reflexivity.
    destruct (Hmissing Hf Hd) as (w' & Hrun & _).
    by exists w'.
  - destruct (insert_documents_outcomes unindexed "docs" connection splitter
                "pdf" "a.pdf" ready_unindexed eq_refl)
      as (_ & _ & Hok).
    destruct (Hok (pages_of "a.pdf") eq_refl Hl) as (w' & Hrun & Hrows & _).
    exists w'. split; [exact Hrun|exact Hrows].
Defined.

(** C7 as stated fails: the configured file type is ['PDF'], which is not
    ['pdf'], and [insert_documents] inserts the three chunks of the file
    instead of raising. *)
Lemma insert_upper_case_file_type_counterexample :
  config (self upper) = CDict upper_config ∧
  upper_config !! "file_type" = Some (PStr "PDF") ∧
  "PDF" ≠ "pdf" ∧
  isfile "a.pdf" = true ∧
  ∃ w', insert_documents "a.pdf" upper = (Ret tt, w') ∧
        Milvus.rows_of (db w') "docs" = Milvus.entries_from 1 (pages_of "a.pdf").
Proof.
  split; [reflexivity|]. split; [reflexivity|]. split; [discriminate|].
  split; [reflexivity|].
  eexists. split; [vm_compute; reflexivity|]. reflexivity.
Qed.

(** C8 on [indexed]: the call asks the model with an empty history, and
    a call of the chain on the history of that first turn hands the model
    the turn and leaves two turns. *)
Lemma conversational_history_appends_witness :
  (collection_name_of (self indexed) = Some "docs" ∧
   connection_args_of (self indexed) = Some connection ∧
   llm (self indexed) = true ∧
   search_result (query_object (self indexed) "docs" connection)
     "first" (db indexed) =
     Ret (doc_of_entry <$> take 4 sample_rows)) ∧
  (∃ w',
     query_documents "first" true indexed =
       (Ret (Answer "answer to first"), w') ∧
     trace w' =
       [EMilvus "docs"; ESimilaritySearch "docs" "first" None;
        EGenerate [] "first"]) ∧
  (∃ u',
     run_chain (query_object (self indexed) "docs" connection)
       [("first", "answer to first")] "second" indexed =
       (Ret ("answer to second",
             [("first", "answer to first"); ("second", "answer to second")]),
        u') ∧
     trace u' =
       [ESimilaritySearch "docs" "second" None;
        EGenerate [("first", "answer to first")] "second"]).
Proof.
  assert (search_result (query_object (self indexed) "docs" connection)
            "first" (db indexed) =
          Ret (doc_of_entry <$> take 4 sample_rows)) as Hs by reflexivity.
  assert (search_result (query_object (self indexed) "docs" connection)
            "second" (db indexed) =
          Ret (doc_of_entry <$> take 4 sample_rows)) as Hs' by reflexivity.
  split; [split; [apply name_indexed|repeat split; reflexivity]|].
  destruct (conversational_history_appends indexed "docs" connection
              "first" (doc_of_entry <$> take 4 sample_rows)
              name_indexed eq_refl eq_refl Hs)
    as ((r & w' & Hrun & Htrace & -> & _) & Hchain).
  split.
  - exists w'. split; [exact Hrun|]. rewrite Htrace. reflexivity.
  - destruct (Hchain [("first", "answer to first")] "second" "second"
                (doc_of_entry <$> take 4 sample_rows) "answer to second"
                indexed eq_refl Hs' eq_refl)
      as (u' & Hrun' & Htrace' & _).
    exists u'. split; [exact Hrun'|]. rewrite Htrace'. reflexivity.
Defined.

Lemma components_full : components full_config.
Proof. repeat split; reflexivity. Qed.

Lemma connect_full : connect (PStr "localhost") (PInt 19530) = Ret tt.
Proof. reflexivity. Qed.

(** C9 (amended) on [config.json]. *)
Lemma init_outcomes_witness :
  (read_text "config.json" = Some "full" ∧
   json_loads "full" = inr (CDict full_config) ∧
   full_config !! "docker_host" = Some (PStr "localhost") ∧
   full_config !! "docker_port" = Some (PInt 19530) ∧
   components full_config ∧
   connect (PStr "localhost") (PInt 19530) = Ret tt) ∧
  ∃ w',
    __init__ "config.json" blank = (Ret tt, w') ∧
    self w' = configured full_config ∧
    text_splitter (self w') = Some (mkTextSplitter (PInt 500) (PInt 20)) ∧
    embeddings (self w') = Some (PStr "all-mpnet-base-v2").
Proof.
  split; [repeat split; (reflexivity || discriminate)|].
  assert (read_text "config.json" = Some "full") as Hread by reflexivity.
  assert (json_loads "full" = inr (CDict full_config)) as Hjson
    by reflexivity.
  destruct (init_outcomes blank "config.json") as (_ & _ & Hdict).
  destruct (Hdict "full" full_config Hread Hjson) as (_ & Hbuilt).
  destruct (Hbuilt components_full) as (_ & Hok).
  destruct (Hok (PStr "localhost") (PInt 19530) eq_refl eq_refl)
    as (_ & Hconnected).
  destruct (Hconnected connect_full)
    as (w' & Hrun & Hself & _ & _ & Hem & Hts & _).
  exists w'. split; [exact Hrun|]. split; [exact Hself|].
  split; [apply Hts; reflexivity|apply Hem; reflexivity].
Defined.

(** C9 as stated fails: [bare.json] has a host and a port and no collection
    name; the manager is built, and the missing key only shows when an
    operation reads it. *)
Lemma init_without_collection_name_counterexample :
  json_loads "bare" = inr (CDict base_config) ∧
  base_config !! "collection_name" = None ∧
  ∃ w' w'',
    __init__ "bare.json" blank = (Ret tt, w') ∧
    trace w' = [EConnect (PStr "localhost") (PInt 19530)] ∧
    _drop_collection w' = (Raise (KeyError "collection_name"), w'').
Proof.
  split; [reflexivity|]. split; [reflexivity|].
  eexists _, _. split; [vm_compute; reflexivity|].
  split; [reflexivity|]. vm_compute. reflexivity.
Qed.

(** C6 at a failing input: a manager that holds no vector store object
    queries a collection of twelve rows.  The object it creates carries no
    search parameters, no [k] is passed, and the store answers with its own
    four hits; the limit of [_get_search_params] is ten. *)
Theorem similarity_search_store_default :
  vector_db (self crowded) = None ∧
  length (Milvus.rows_of (db crowded) "docs") = 12%nat ∧
  sp_limit _get_search_params = 10 ∧
  ∃ docs w',
    query_documents "anything" false crowded = (Ret (Docs docs), w') ∧
    length docs = 4%nat ∧
    vector_db (self w') =
      Some (mkVectorStore "docs" (Some (PStr "all-mpnet-base-v2")) connection
              None None) ∧
    trace w' = [EMilvus "docs"; ESimilaritySearch "docs" "anything" None].
Proof.
  split; [reflexivity|]. split; [reflexivity|]. split; [reflexivity|].
  eexists _, _. split; [vm_compute; reflexivity|].
  repeat split; reflexivity.
Qed.

(** * The further properties on the reference installation *)

#[local] Existing Instance reporting.

Lemma store_wf_indexed : store_wf (db indexed).
Proof.
  apply store_wf_singleton.
  - by apply (bool_decide_unpack _).
  - repeat constructor.
Qed.

Lemma store_wf_archived : store_wf (db archived).
Proof.
  apply store_wf_singleton.
  - by apply (bool_decide_unpack _).
  - repeat constructor.
Qed.

Lemma ready_archived : Ready (self archived) "docs" connection splitter.
Proof. repeat split; (reflexivity || discriminate). Qed.

Lemma no_handle_archived : handle_on (self archived) "docs".
Proof. intros c. discriminate. Qed.

Lemma tagged_pages : Forall (fun d => doc_source d = "a.pdf") (pages_of "a.pdf").
Proof. repeat constructor. Qed.

(** X4 on [indexed] and [gone.pdf]. *)
Lemma delete_documents_twice_witness :
  (collection_name_of (self indexed) = Some "docs" ∧
   handle_on (self indexed) "docs" ∧
   collections (db indexed) !! "docs" = Some sample_rows ∧
   plain "gone.pdf") ∧
  ∃ w1 w2,
    delete_documents "gone.pdf" indexed = (Ret tt, w1) ∧
    delete_documents "gone.pdf" w1 = (Ret tt, w2) ∧
    db w2 = db w1 ∧
    stdout w2 = stdout w1 ++ ["No documents found for file: gone.pdf"].
Proof.
  assert (collections (db indexed) !! "docs" = Some sample_rows) as Hrows
    by reflexivity.
  split.
  { split; [reflexivity|]. split; [apply no_handle_indexed|].
    split; reflexivity. }
  destruct (delete_documents_twice indexed "docs" sample_rows "gone.pdf"
              name_indexed no_handle_indexed Hrows eq_refl)
    as (w1 & w2 & H1 & H2 & Hdb & Hout & _).
  by exists w1, w2.
Defined.

(** X5 on [archived] and [a.pdf]: three chunks in, three rows out, and the
    next primary key is 10. *)
Lemma insert_then_delete_restores_witness :
  (Ready (self archived) "docs" connection splitter ∧
   handle_on (self archived) "docs" ∧
   file_type_of (self archived) = Some "pdf" ∧
   loaded "a.pdf" = Some (pages_of "a.pdf") ∧
   Forall (fun d => doc_source d = "a.pdf")
     (split_documents splitter (pages_of "a.pdf")) ∧
   collections (db archived) !! "docs" = Some archived_rows ∧
   hits "a.pdf" archived_rows = [] ∧
   store_wf (db archived) ∧
   plain "a.pdf") ∧
  ∃ w1 w2,
    insert_documents "a.pdf" archived = (Ret tt, w1) ∧
    delete_documents "a.pdf" w1 = (Ret tt, w2) ∧
    collections (db w2) = collections (db archived) ∧
    next_pk (db w2) = 10.
Proof.
  assert (loaded "a.pdf" = Some (pages_of "a.pdf")) as Hl by reflexivity.
  assert (collections (db archived) !! "docs" = Some archived_rows) as Hrows
    by reflexivity.
  split.
  { split; [apply ready_archived|]. split; [apply no_handle_archived|].
    split; [reflexivity|]. split; [reflexivity|].
    split; [apply tagged_pages|]. split; [reflexivity|].
    split; [reflexivity|]. split; [apply store_wf_archived|reflexivity]. }
  destruct (insert_then_delete_restores archived "docs" connection splitter
              "a.pdf" (pages_of "a.pdf") archived_rows ready_archived
              no_handle_archived eq_refl Hl tagged_pages Hrows eq_refl
              store_wf_archived eq_refl)
    as (w1 & w2 & H1 & H2 & Hc & Hk).
  exists w1, w2. split; [done|]. split; [done|]. split; [done|].
  rewrite Hk. reflexivity.
Defined.

(** X6 on [indexed] and [a.pdf]. *)
Lemma update_documents_twice_witness :
  (Ready (self indexed) "docs" connection splitter ∧
   handle_on (self indexed) "docs" ∧
   file_type_of (self indexed) = Some "pdf" ∧
   loaded "a.pdf" = Some (pages_of "a.pdf") ∧
   Forall (fun d => doc_source d = "a.pdf")
     (split_documents splitter (pages_of "a.pdf")) ∧
   collections (db indexed) !! "docs" = Some sample_rows ∧
   store_wf (db indexed) ∧
   plain "a.pdf") ∧
  ∃ w1 w2,
    update_documents "a.pdf" indexed = (Ret tt, w1) ∧
    update_documents "a.pdf" w1 = (Ret tt, w2) ∧
    pk <$> Milvus.rows_of (db w1) "docs" = [2; 4; 5; 7; 8; 9] ∧
    pk <$> Milvus.rows_of (db w2) "docs" = [2; 4; 5; 10; 11; 12] ∧
    documents_of (db w2) "docs" = documents_of (db w1) "docs".
Proof.
  assert (loaded "a.pdf" = Some (pages_of "a.pdf")) as Hl by reflexivity.
  assert (collections (db indexed) !! "docs" = Some sample_rows) as Hrows
    by reflexivity.
  split.
  { split; [apply ready_indexed|]. split; [apply no_handle_indexed|].
    split; [reflexivity|]. split; [reflexivity|].
    split; [apply tagged_pages|]. split; [reflexivity|].
    split; [apply store_wf_indexed|reflexivity]. }
  destruct (update_documents_twice indexed "docs" connection splitter
              "a.pdf" (pages_of "a.pdf") sample_rows ready_indexed
              no_handle_indexed eq_refl Hl tagged_pages Hrows
              store_wf_indexed eq_refl)
    as (w1 & w2 & H1 & H2 & Hr1 & Hr2 & Hdocs).
  exists w1, w2. split; [done|]. split; [done|].
  rewrite Hr1, Hr2. split; [reflexivity|]. split; [reflexivity|done].
Defined.

(** X7 on [numbered], whose file type is the integer 1, and a path that is
    not on disk. *)
Lemma file_type_not_a_string_raises_witness :
  (config (self numbered) = CDict numbered_config ∧
   numbered_config !! "file_type" = Some (PInt 1) ∧
   (∀ s, PInt 1 ≠ PStr s)) ∧
  ∃ w',
    insert_documents "nowhere.pdf" numbered =
      (Raise (AttributeError "int object has no attribute 'lower'"), w') ∧
    db w' = db numbered ∧ trace w' = [].
Proof.
  assert (∀ s, PInt 1 ≠ PStr s) as Hns by discriminate.
  split; [split; [reflexivity|split; [reflexivity|exact Hns]]|].
  destruct (file_type_not_a_string_raises numbered numbered_config (PInt 1)
              "nowhere.pdf" eq_refl eq_refl Hns)
    as (_ & w' & Hrun & Hdb & Htrace & _).
  exists w'. split; [exact Hrun|]. split; [exact Hdb|exact Htrace].
Defined.

(** X8 on [indexed] and a path that is not on disk: the six rows are
    gone. *)
Lemma load_collection_missing_path_drops_witness :
  (collection_name_of (self indexed) = Some "docs" ∧
   file_type_of (self indexed) = Some "pdf" ∧
   isfile "nowhere.pdf" = false ∧ isdir "nowhere.pdf" = false) ∧
  ∃ w',
    load_collection "nowhere.pdf" indexed =
      (Raise (FileNotFoundError "File or directory not found: nowhere.pdf"),
       w') ∧
    length (Milvus.rows_of (db indexed) "docs") = 6%nat ∧
    collections (db w') = ∅ ∧
    trace w' = [EHasCollection "docs"; EDropCollection "docs"].
Proof.
  assert (isfile "nowhere.pdf" = false) as Hf by reflexivity.
  assert (isdir "nowhere.pdf" = false) as Hd by reflexivity.
  split; [repeat split; reflexivity|].
  destruct (load_collection_missing_path_drops indexed "docs" "pdf"
              "nowhere.pdf" name_indexed eq_refl Hf Hd)
    as (w' & Hrun & Hc & Htrace & _).
  exists w'. split; [exact Hrun|]. split; [reflexivity|].
  rewrite Hc, Htrace. split; [|reflexivity].
  apply delete_singleton_eq.
Defined.

(** X9 on [unindexed]: insert [a.pdf], then query. *)
Lemma query_after_insert_reuses_store_object_witness :
  (Ready (self unindexed) "docs" connection splitter ∧
   file_type_of (self unindexed) = Some "pdf" ∧
   loaded "a.pdf" = Some (pages_of "a.pdf")) ∧
  ∃ w1 r w2,
    insert_documents "a.pdf" unindexed = (Ret tt, w1) ∧
    query_documents "what is it" false w1 = (r, w2) ∧
    trace w2 =
      trace w1 ++
        [ESimilaritySearch "docs" "what is it" (Some (mkSearchParams "IP" 0 10))].
Proof.
  assert (loaded "a.pdf" = Some (pages_of "a.pdf")) as Hl by reflexivity.
  split; [split; [apply ready_unindexed|split; reflexivity]|].
  destruct (query_after_insert_reuses_store_object unindexed "docs"
              connection splitter "a.pdf" (pages_of "a.pdf") "what is it"
              ready_unindexed eq_refl Hl)
    as (w1 & w2 & H1 & H2 & _ & Htrace & _).
  exists w1. eexists. exists w2. split; [exact H1|]. split; [exact H2|].
  exact Htrace.
Defined.

(** X10 on [indexed]. *)
Lemma query_after_drop_is_empty_witness :
  (collection_name_of (self indexed) = Some "docs" ∧
   connection_args_of (self indexed) = Some connection ∧
   is_Some (collections (db indexed) !! "docs")) ∧
  ∃ w1 w2,
    _drop_collection indexed = (Ret tt, w1) ∧
    query_documents "what is it" false w1 = (Ret (Docs []), w2).
Proof.
  assert (is_Some (collections (db indexed) !! "docs")) as Hsome
    by (by exists sample_rows).
  split; [split; [reflexivity|split; [reflexivity|exact Hsome]]|].
  destruct (query_after_drop_is_empty indexed "docs" connection "what is it"
              name_indexed eq_refl Hsome)
    as (w1 & w2 & H1 & H2 & _).
  by exists w1, w2.
Defined.

(** X11 on [unindexed], where the collection is not there. *)
Lemma create_collection_if_not_exists_creates_nothing_witness :
  collection_name_of (self unindexed) = Some "docs" ∧
  ∃ w',
    _create_collection_if_not_exists unindexed = (Ret tt, w') ∧
    db w' = db unindexed ∧
    collections (db w') !! "docs" = None.
Proof.
  split; [reflexivity|].
  destruct (create_collection_if_not_exists_creates_nothing unindexed "docs"
              name_unindexed)
    as (w' & Hrun & Hdb & _).
  exists w'. split; [exact Hrun|]. split; [exact Hdb|].
  rewrite Hdb. reflexivity.
Defined.

(** X12 on [indexed]: port 19530. *)
Lemma get_connection_args_port_as_text_witness :
  (config (self indexed) = CDict full_config ∧
   full_config !! "docker_host" = Some (PStr "localhost") ∧
   full_config !! "docker_port" = Some (PInt 19530)) ∧
  ∃ ca,
    _get_connection_args indexed = (Ret ca, indexed) ∧
    ca_host ca = PStr "localhost" ∧
    int_of_str (ca_port ca) = Some 19530.
Proof.
  split; [repeat split; reflexivity|].
  destruct (get_connection_args_port_as_text indexed full_config eq_refl)
    as (Hok & _).
  exact (Hok (PStr "localhost") 19530 eq_refl eq_refl).
Defined.

(** X14 on [indexed], with statistics that count the rows. *)
Lemma get_collection_stats_outcomes_witness :
  (collection_name_of (self indexed) = Some "docs" ∧
   handle_on (self indexed) "docs" ∧
   is_Some (collections (db indexed) !! "docs")) ∧
  ∃ w',
    get_collection_stats indexed = (Ret (mkStats 6), w') ∧
    stdout w' = ["Collection 'docs' statistics:"; "  Row count: 6"].
Proof.
  assert (is_Some (collections (db indexed) !! "docs")) as Hsome
    by (by exists sample_rows).
  split; [split; [reflexivity|split; [apply no_handle_indexed|exact Hsome]]|].
  destruct (get_collection_stats_outcomes indexed "docs" name_indexed
              no_handle_indexed)
    as (_ & Hthere).
  destruct (Hthere Hsome) as (w' & Hrun & _ & _ & _ & Hout).
  exists w'. split; [exact Hrun|exact Hout].
Defined.

Lemma configuration_full :
  configuration "config.json" full_config (PStr "localhost") (PInt 19530).
Proof.
  split; [exists "full"; split; reflexivity|].
  split; [reflexivity|]. split; [reflexivity|].
  split; [repeat split; reflexivity|]. split; [reflexivity|].
  intros name Hn. vm_compute in Hn. injection Hn as <-. reflexivity.
Qed.

(** X15 on [installed]: an insert without [--file-path]. *)
Lemma main_checks_arguments_after_connecting_witness :
  (configuration (arg_config (command OpInsert None None)) full_config
     (PStr "localhost") (PInt 19530) ∧
   missing_argument (command OpInsert None None) = Some "--file-path") ∧
  ∃ w',
    main (command OpInsert None None) installed = (1, w') ∧
    db w' = db installed ∧
    trace w' = [EConnect (PStr "localhost") (PInt 19530)] ∧
    last (stdout w') =
      Some "Error: --file-path is required for insert operation".
Proof.
  split; [split; [apply configuration_full|reflexivity]|].
  destruct (main_checks_arguments_after_connecting (command OpInsert None None)
              installed full_config (PStr "localhost") (PInt 19530)
              "--file-path" configuration_full eq_refl)
    as (w' & Hrun & Hdb & Htrace & Hout).
  exists w'. split; [exact Hrun|]. split; [exact Hdb|].
  split; [exact Htrace|]. rewrite Hout. reflexivity.
Defined.

(** X16 on [installed]: a configuration file that is not there, and one
    that is not JSON. *)
Lemma main_reports_unusable_configuration_witness :
  (read_text "missing.json" = None ∧
   read_text "broken.json" = Some "{" ∧
   json_loads "{" = inl "Expecting property name") ∧
  main (mkArgs "missing.json" OpDrop None None false) installed =
    (1, mkWorld (self installed) (db installed)
          ["Error: Config file not found: missing.json"] []) ∧
  main (mkArgs "broken.json" OpDrop None None false) installed =
    (1, mkWorld (self installed) (db installed)
          ["Error: Invalid JSON in config file: Expecting property name"] []).
Proof.
  assert (read_text "missing.json" = None) as Hmiss by reflexivity.
  assert (read_text "broken.json" = Some "{") as Hread by reflexivity.
  assert (json_loads "{" = inl "Expecting property name") as Hjson
    by reflexivity.
  split; [repeat split; reflexivity|]. split.
  - destruct (main_reports_unusable_configuration
                (mkArgs "missing.json" OpDrop None None false) installed)
      as (Hnone & _).
    exact (Hnone Hmiss).
  - destruct (main_reports_unusable_configuration
                (mkArgs "broken.json" OpDrop None None false) installed)
      as (_ & Hbad & _).
    exact (Hbad "{" "Expecting property name" Hread Hjson).
Defined.

(** X17 on [installed]. *)
Lemma main_drop_reads_no_statistics_witness :
  (arg_operation (command OpDrop None None) = OpDrop ∧
   configuration (arg_config (command OpDrop None None)) full_config
     (PStr "localhost") (PInt 19530) ∧
   full_config !! "collection_name" = Some (PStr "docs")) ∧
  ∃ w',
    main (command OpDrop None None) installed = (0, w') ∧
    collections (db w') = ∅ ∧
    trace w' =
      [EConnect (PStr "localhost") (PInt 19530);
       EHasCollection "docs"; EDropCollection "docs"].
Proof.
  split; [split; [reflexivity|split; [apply configuration_full|reflexivity]]|].
  destruct (main_drop_reads_no_statistics (command OpDrop None None) installed
              full_config (PStr "localhost") (PInt 19530) "docs"
              eq_refl configuration_full eq_refl)
    as (w' & Hrun & Hc & Htrace).
  exists w'. split; [exact Hrun|].
  rewrite Hc, Htrace. split; [apply delete_singleton_eq|reflexivity].
Defined.

(** X18 on [blank], whose database is empty. *)
Lemma main_query_without_collection_fails_witness :
  (arg_operation (command OpQuery None (Some "what is it")) = OpQuery ∧
   arg_query (command OpQuery None (Some "what is it")) = Some "what is it" ∧
   "what is it" ≠ EmptyString ∧
   arg_use_rag (command OpQuery None (Some "what is it")) = false ∧
   configuration "config.json" full_config (PStr "localhost") (PInt 19530) ∧
   full_config !! "collection_name" = Some (PStr "docs") ∧
   collections (db blank) !! "docs" = None) ∧
  ∃ w',
    main (command OpQuery None (Some "what is it")) blank = (1, w') ∧
    stdout w' =
      ["Connected to Milvus at localhost:19530"; "Server version: v2.3.0";
       "Query result:"; "[]";
       "Error: <MilvusException: Collection 'docs' not exist>"].
Proof.
  assert ("what is it" ≠ EmptyString) as Hne by discriminate.
  split.
  { split; [reflexivity|]. split; [reflexivity|]. split; [exact Hne|].
    split; [reflexivity|]. split; [apply configuration_full|].
    split; reflexivity. }
  destruct (main_query_without_collection_fails
              (command OpQuery None (Some "what is it")) blank full_config
              (PStr "localhost") (PInt 19530) "docs" "what is it"
              eq_refl eq_refl Hne eq_refl configuration_full eq_refl eq_refl)
    as (w' & Hrun & _ & _ & Hout).
  exists w'. split; [exact Hrun|]. rewrite Hout. reflexivity.
Defined.

(** X19 on [blank]: the three chunks of [a.pdf] are inserted, the
    statistics count three rows, the exit status is 0. *)
Lemma main_insert_exit_status_witness :
  (arg_operation (command OpInsert (Some "a.pdf") None) = OpInsert ∧
   arg_file_path (command OpInsert (Some "a.pdf") None) = Some "a.pdf" ∧
   "a.pdf" ≠ EmptyString ∧
   configuration "config.json" full_config (PStr "localhost") (PInt 19530) ∧
   full_config !! "collection_name" = Some (PStr "docs") ∧
   file_type_of (configured full_config) = Some "pdf" ∧
   loaded "a.pdf" = Some (pages_of "a.pdf") ∧
   split_documents (splitter_of full_config) (pages_of "a.pdf") ≠ []) ∧
  ∃ w',
    main (command OpInsert (Some "a.pdf") None) blank = (0, w') ∧
    Milvus.rows_of (db w') "docs" = Milvus.entries_from 1 (pages_of "a.pdf") ∧
    last (stdout w') = Some "  Row count: 3".
Proof.
  assert ("a.pdf" ≠ EmptyString) as Hne by discriminate.
  assert (loaded "a.pdf" = Some (pages_of "a.pdf")) as Hl by reflexivity.
  assert (split_documents (splitter_of full_config) (pages_of "a.pdf") ≠ [])
    as Hdocs by discriminate.
  split.
  { split; [reflexivity|]. split; [reflexivity|]. split; [exact Hne|].
    split; [apply configuration_full|]. split; [reflexivity|].
    split; [reflexivity|]. split; [reflexivity|exact Hdocs]. }
  destruct (main_insert_exit_status (command OpInsert (Some "a.pdf") None)
              blank full_config (PStr "localhost") (PInt 19530) "docs"
              "a.pdf" (pages_of "a.pdf") eq_refl eq_refl Hne
              configuration_full eq_refl eq_refl Hl (or_intror Hdocs))
    as (w' & Hrun & Hdb & Hrows & Hout).
  exists w'. split; [exact Hrun|]. rewrite Hdb.
  split; [exact Hrows|]. rewrite Hout. reflexivity.
Defined.

Lemma no_handle_shared : handle_on (self shared) "docs".
Proof. intros c. discriminate. Qed.

(** X20 on [shared]: loading [a.pdf] into [docs] leaves [notes] alone. *)
Lemma operations_write_configured_collection_only_witness :
  (collection_name_of (self shared) = Some "docs" ∧
   handle_on (self shared) "docs") ∧
  collections (db (load_collection "a.pdf" shared).2) !! "notes" =
    collections (db shared) !! "notes" ∧
  collections (db (delete_documents "a.pdf" shared).2) !! "notes" =
    collections (db shared) !! "notes".
Proof.
  assert ("notes" ≠ "docs") as Hne by discriminate.
  split; [split; [reflexivity|apply no_handle_shared]|].
  destruct (operations_write_configured_collection_only shared "docs" "a.pdf"
              name_shared no_handle_shared)
    as (_ & Hdelete & _ & Hload & _).
  split; [exact (Hload "notes" Hne)|exact (Hdelete "notes" Hne)].
Defined.

(** X21 on the database of [shared], before any manager is built. *)
Lemma main_writes_configured_collection_only_witness :
  (read_text "config.json" = Some "full" ∧
   json_loads "full" = inr (CDict full_config) ∧
   full_config !! "collection_name" = Some (PStr "docs")) ∧
  collections
    (db (main (command OpLoad (Some "a.pdf") None)
           (mkWorld (self blank) (db shared) [] [])).2) !! "notes" =
    collections (db shared) !! "notes".
Proof.
  assert ("notes" ≠ "docs") as Hne by discriminate.
  assert (read_text "config.json" = Some "full") as Hread by reflexivity.
  assert (json_loads "full" = inr (CDict full_config)) as Hjson
    by reflexivity.
  split; [repeat split; reflexivity|].
  exact (main_writes_configured_collection_only
           (command OpLoad (Some "a.pdf") None)
           (mkWorld (self blank) (db shared) [] []) "full" full_config "docs"
           Hread Hjson eq_refl "notes" Hne).
Defined.

(** X22 on [installed] and an update of [a.pdf]. *)
Lemma main_keeps_primary_keys_unique_witness :
  store_wf (db installed) ∧
  store_wf (db (main (command OpUpdate (Some "a.pdf") None) installed).2).
Proof.
  split; [apply store_wf_indexed|].
  apply (main_keeps_primary_keys_unique
           (command OpUpdate (Some "a.pdf") None) installed).
  apply store_wf_indexed.
Defined.

(** X23 on [unindexed]. *)
Lemma update_needs_existing_collection_witness :
  (collection_name_of (self unindexed) = Some "docs" ∧
   collection (self unindexed) = None ∧
   collections (db unindexed) !! "docs" = None) ∧
  (∃ w', update_documents "a.pdf" unindexed =
           (Raise (MilvusException "Collection 'docs' not exist"), w') ∧
         db w' = db unindexed) ∧
  (∃ w', insert_documents "a.pdf" unindexed = (Ret tt, w') ∧
         is_Some (collections (db w') !! "docs")).
Proof.
  assert (loaded "a.pdf" = Some (pages_of "a.pdf")) as Hl by reflexivity.
  assert (split_documents splitter (pages_of "a.pdf") ≠ []) as Hdocs
    by discriminate.
  split; [repeat split; reflexivity|].
  destruct (update_needs_existing_collection unindexed "docs" "a.pdf"
              name_unindexed eq_refl eq_refl)
    as (_ & (w1 & Hupdate & Hdb & _) & Hinsert).
  split; [by exists w1|].
  destruct (Hinsert connection splitter (pages_of "a.pdf") ready_unindexed
              eq_refl Hl Hdocs)
    as (w2 & Hrun & Hrows).
  exists w2. split; [exact Hrun|]. rewrite Hrows. by eexists.
Defined.

(** X25 on [indexed] and an update of [a.pdf]. *)
Lemma operations_keep_primary_keys_unique_witness :
  store_wf (db indexed) ∧
  store_wf (db (update_documents "a.pdf" indexed).2).
Proof.
  split; [apply store_wf_indexed|].
  destruct (operations_keep_primary_keys_unique "a.pdf" "what is it" false)
    as (_ & _ & Hupdate & _).
  apply Hupdate, store_wf_indexed.
Defined.

(** X26 on [unindexed]. *)
Lemma query_documents_no_collection_witness :
  (collection_name_of (self unindexed) = Some "docs" ∧
   connection_args_of (self unindexed) = Some connection ∧
   collections (db unindexed)
     !! vs_collection_name (query_object (self unindexed) "docs" connection) =
     None) ∧
  ∃ w', query_documents "what is it" false unindexed = (Ret (Docs []), w').
Proof.
  split; [repeat split; reflexivity|].
  exact (query_documents_no_collection unindexed "docs" connection
           "what is it" name_unindexed eq_refl eq_refl).
Defined.
